(** * AmazonQ gateway: event-stream decoder, stream handler, aggregator,
      request converter and authentication, embedded from the Go sources.

    Conventions of the embedding.
    - A Go [string] is a Rocq [string] (a sequence of bytes); [len] is the
      byte length, as in Go.
    - A Go [int] is a [Z].  The only [int]s of the modelled code are string
      lengths, offsets into a string and a block counter bumped at most a few
      times per event, so the 64-bit wrap-around is never reached and is not
      written out.  The decoder's [uint32] arithmetic does wrap, and its
      wrap-around is explicit.
    - A Go [interface{}] holding decoded JSON is a [JSON] value; a
      [map[string]interface{}] is a [gmap string JSON]; the nil interface is
      [JNull].  JSON numbers are integers here: the numbers the modelled
      code reads are block indices and token counts.
    - Library calls whose result the code cannot influence (random ids, the
      clock, [json.Marshal], [json.Unmarshal], [strings.TrimSpace],
      [strings.ToLower]) are section variables. *)

From Stdlib Require Import ZArith String List Bool Lia.
From Stdlib.Strings Require Import Ascii Byte.
From Stdlib.Numbers Require Import DecimalString.
From stdpp Require Import gmap strings list fin_maps.
Import ListNotations.

#[local] Set Warnings "-register-all".
#[local] Open Scope Z_scope.

(** ** Go strings *)

Module GoString.

Definition len (s : string) : Z := Z.of_nat (String.length s).

(** [s[lo:hi]]; every use in the modelled code is in range. *)
Definition slice (s : string) (lo hi : Z) : string :=
  String.substring (Z.to_nat lo) (Z.to_nat (hi - lo)) s.

(** [s[lo:]] *)
Definition slice_from (s : string) (lo : Z) : string := slice s lo (len s).

(** [s[:hi]] *)
Definition slice_to (s : string) (hi : Z) : string := slice s 0 hi.

Fixpoint index_nat (s sub : string) : option nat :=
  if String.prefix sub s then Some O
  else match s with
       | EmptyString => None
       | String _ s' => option_map S (index_nat s' sub)
       end.

(** [strings.Index]: offset of the first occurrence, [-1] when absent. *)
Definition strings_Index (s sub : string) : Z :=
  match index_nat s sub with
  | Some n => Z.of_nat n
  | None => -1
  end.

Definition strings_Contains (s sub : string) : bool :=
  negb (strings_Index s sub =? -1).

Definition strings_HasPrefix (s p : string) : bool := String.prefix p s.

Definition strings_HasSuffix (s suf : string) : bool :=
  (len suf <=? len s) && String.eqb (slice_from s (len s - len suf)) suf.

(** [strings.Join] *)
Fixpoint strings_Join (parts : list string) (sep : string) : string :=
  match parts with
  | [] => EmptyString
  | [p] => p
  | p :: rest => String.append p (String.append sep (strings_Join rest sep))
  end.

(** The part of [s] after its last occurrence of the byte [c] (all of [s]
    when [c] does not occur): the last element of [strings.Split(s, c)]. *)
Fixpoint after_last (c : ascii) (s : string) : string :=
  match s with
  | EmptyString => EmptyString
  | String a s' =>
      if strings_Contains s' (String c EmptyString) then after_last c s'
      else if Ascii.eqb a c then s'
      else s
  end.

(** [strconv.Itoa] *)
Definition strconv_Itoa (n : Z) : string := NilZero.string_of_int (Z.to_int n).

End GoString.
Import GoString.

(** ** Decoded JSON values *)

Inductive JSON : Type :=
| JNull
| JBool (b : bool)
| JNum (n : Z)
| JStr (s : string)
| JArr (items : list JSON)
| JObj (fields : gmap string JSON).

(** [m[k].(string)] with the comma-ok form: the zero value on a miss. *)
Definition get_string (m : gmap string JSON) (k : string) : string :=
  match m !! k with
  | Some (JStr s) => s
  | _ => EmptyString
  end.

(** [m[k].(bool)] with the comma-ok form. *)
Definition get_bool (m : gmap string JSON) (k : string) : bool :=
  match m !! k with
  | Some (JBool b) => b
  | _ => false
  end.

(** [m[k]] as an interface value: nil for a missing key and for JSON null. *)
Definition get_value (m : gmap string JSON) (k : string) : JSON :=
  match m !! k with
  | Some v => v
  | None => JNull
  end.

(** [o != nil] for a map or pointer that may be nil. *)
Definition is_some {A : Type} (o : option A) : bool :=
  match o with Some _ => true | None => false end.

(** [v == nil] for an interface value. *)
Definition is_nil_value (v : JSON) : bool :=
  match v with JNull => true | _ => false end.

(** [v == "lit"] for an interface value [v] and a string constant. *)
Definition is_str (v : JSON) (lit : string) : bool :=
  match v with
  | JStr s => String.eqb s lit
  | _ => false
  end.

(** ** Outgoing events (parser.go: [SSEEvent], [FormatSSE], [Build*])

    [FormatSSE] renders an event name and a JSON payload as the text
    ["event: <name>\ndata: <json>\n\n"].  The embedding keeps the two parts
    of that text, the name and the payload, and leaves the key order of the
    rendered JSON out.  A Go string holding several rendered events is the
    list of them. *)

Record SSEEvent : Type := mkSSE { Event : string; Data : JSON }.

Definition FormatSSE (eventType : string) (data : JSON) : SSEEvent :=
  {| Event := eventType; Data := data |}.

Definition obj (kvs : list (string * JSON)) : JSON := JObj (list_to_map kvs).

Definition BuildMessageStart (messageID : string) (model : string) (inputTokens : Z)
  : SSEEvent * string :=
  let data := obj
    [ ("type", JStr "message_start");
      ("message", obj
        [ ("model", JStr model);
          ("id", JStr messageID);
          ("type", JStr "message");
          ("role", JStr "assistant");
          ("content", JArr []);
          ("stop_reason", JNull);
          ("stop_sequence", JNull);
          ("usage", obj
            [ ("input_tokens", JNum inputTokens);
              ("cache_creation_input_tokens", JNum 0);
              ("cache_read_input_tokens", JNum 0);
              ("cache_creation", obj
                [ ("ephemeral_5m_input_tokens", JNum 0);
                  ("ephemeral_1h_input_tokens", JNum 0) ]);
              ("output_tokens", JNum 1);
              ("service_tier", JStr "standard") ]) ]) ] in
  (FormatSSE "message_start" data, messageID).

Definition BuildContentBlockStart (index : Z) (blockType : string) : SSEEvent :=
  let contentBlock : list (string * JSON) := [ ("type", JStr blockType) ] in
  let contentBlock :=
    if String.eqb blockType "text" || String.eqb blockType "thinking"
    then contentBlock ++ [ ("text", JStr "") ]
    else contentBlock in
  FormatSSE "content_block_start"
    (obj [ ("type", JStr "content_block_start");
           ("index", JNum index);
           ("content_block", obj contentBlock) ]).

Definition BuildContentBlockDelta (index : Z) (text : string) : SSEEvent :=
  FormatSSE "content_block_delta"
    (obj [ ("type", JStr "content_block_delta");
           ("index", JNum index);
           ("delta", obj [ ("type", JStr "text_delta"); ("text", JStr text) ]) ]).

Definition BuildContentBlockStop (index : Z) : SSEEvent :=
  FormatSSE "content_block_stop"
    (obj [ ("type", JStr "content_block_stop"); ("index", JNum index) ]).

Definition BuildPing : SSEEvent :=
  FormatSSE "ping" (obj [ ("type", JStr "ping") ]).

(** One Go string carrying two rendered events, [message_delta] then
    [message_stop]. *)
Definition BuildMessageStop (inputTokens outputTokens : Z) (stopReason : option string)
  : list SSEEvent :=
  let reason := match stopReason with Some r => r | None => "end_turn"%string end in
  let deltaEvent := FormatSSE "message_delta"
    (obj [ ("type", JStr "message_delta");
           ("delta", obj [ ("stop_reason", JStr reason); ("stop_sequence", JNull) ]);
           ("usage", obj
             [ ("input_tokens", JNum inputTokens);
               ("cache_creation_input_tokens", JNum 0);
               ("cache_read_input_tokens", JNum 0);
               ("output_tokens", JNum outputTokens) ]) ]) in
  let stopEvent := FormatSSE "message_stop" (obj [ ("type", JStr "message_stop") ]) in
  [deltaEvent; stopEvent].

Definition BuildToolUseStart (index : Z) (toolUseID toolName : string) : SSEEvent :=
  FormatSSE "content_block_start"
    (obj [ ("type", JStr "content_block_start");
           ("index", JNum index);
           ("content_block", obj
             [ ("type", JStr "tool_use");
               ("id", JStr toolUseID);
               ("name", JStr toolName);
               ("input", obj []) ]) ]).

Definition BuildToolUseInputDelta (index : Z) (inputJSONDelta : string) : SSEEvent :=
  FormatSSE "content_block_delta"
    (obj [ ("type", JStr "content_block_delta");
           ("index", JNum index);
           ("delta", obj [ ("type", JStr "input_json_delta");
                           ("partial_json", JStr inputJSONDelta) ]) ]).

(** *** Reading an emitted event back *)

Definition data_field (e : SSEEvent) (k : string) : JSON :=
  match Data e with
  | JObj m => get_value m k
  | _ => JNull
  end.

Definition json_field (v : JSON) (k : string) : JSON :=
  match v with
  | JObj m => get_value m k
  | _ => JNull
  end.

Definition is_message_start (e : SSEEvent) : bool := String.eqb (Event e) "message_start".
Definition is_content_block_start (e : SSEEvent) : bool := String.eqb (Event e) "content_block_start".
Definition is_content_block_stop (e : SSEEvent) : bool := String.eqb (Event e) "content_block_stop".
Definition is_ping (e : SSEEvent) : bool := String.eqb (Event e) "ping".

(** A [content_block_start] whose block has the given type. *)
Definition is_block_start_of (blockType : string) (e : SSEEvent) : bool :=
  is_content_block_start e
  && is_str (json_field (data_field e "content_block") "type") blockType.

(** The text of a [text_delta], if the event is one. *)
Definition text_delta_of (e : SSEEvent) : option string :=
  if String.eqb (Event e) "content_block_delta"
     && is_str (json_field (data_field e "delta") "type") "text_delta"
  then match json_field (data_field e "delta") "text" with
       | JStr s => Some s
       | _ => None
       end
  else None.

(** The fragment of an [input_json_delta], if the event is one. *)
Definition input_json_delta_of (e : SSEEvent) : option string :=
  if String.eqb (Event e) "content_block_delta"
     && is_str (json_field (data_field e "delta") "type") "input_json_delta"
  then match json_field (data_field e "delta") "partial_json" with
       | JStr s => Some s
       | _ => None
       end
  else None.

(** The [index] field of an event. *)
Definition index_of (e : SSEEvent) : option Z :=
  match data_field e "index" with
  | JNum n => Some n
  | _ => None
  end.

Definition count_events (p : SSEEvent -> bool) (evs : list SSEEvent) : nat :=
  List.length (List.filter p evs).

Definition start_indices (evs : list SSEEvent) : list Z :=
  omap index_of (List.filter is_content_block_start evs).

(** The [output_tokens] figure of a [message_delta]. *)
Definition output_tokens_of (e : SSEEvent) : option Z :=
  if String.eqb (Event e) "message_delta"
  then match json_field (data_field e "usage") "output_tokens" with
       | JNum n => Some n
       | _ => None
       end
  else None.

(** ** The stream handler (streaming.go) *)

Module Streaming.

Definition ThinkingStartTag : string := "<thinking>".
Definition ThinkingEndTag : string := "</thinking>".

Record ClaudeStreamHandler : Type := mkHandler {
  Model : string;
  InputTokens : Z;
  ResponseBuffer : list string;
  ContentBlockIndex : Z;
  ContentBlockStarted : bool;
  ContentBlockStartSent : bool;
  ContentBlockStopSent : bool;
  MessageStartSent : bool;
  ConversationID : string;
  MessageID : string;
  CurrentToolUse : option (gmap string JSON);
  ToolInputBuffer : list string;
  ToolUseID : string;
  ToolName : string;
  ProcessedToolUseIDs : gmap string bool;
  AllToolInputs : list string;
  InThinkBlock : bool;
  ThinkBuffer : string;
  PingPending : bool
}.

(** Field assignments [h.F = v]: every field but [F] is carried over. *)
Definition set_ResponseBuffer (v : list string) (h : ClaudeStreamHandler) : ClaudeStreamHandler :=
  match h with
  | mkHandler mo it _ ix st ss sp ms cv mi
              tu tb ti tn pr ai th bf pp =>
      mkHandler mo it v ix st ss sp ms cv mi
                tu tb ti tn pr ai th bf pp
  end.
Definition set_ContentBlockIndex (v : Z) (h : ClaudeStreamHandler) : ClaudeStreamHandler :=
  match h with
  | mkHandler mo it rb _ st ss sp ms cv mi
              tu tb ti tn pr ai th bf pp =>
      mkHandler mo it rb v st ss sp ms cv mi
                tu tb ti tn pr ai th bf pp
  end.
Definition set_ContentBlockStarted (v : bool) (h : ClaudeStreamHandler) : ClaudeStreamHandler :=
  match h with
  | mkHandler mo it rb ix _ ss sp ms cv mi
              tu tb ti tn pr ai th bf pp =>
      mkHandler mo it rb ix v ss sp ms cv mi
                tu tb ti tn pr ai th bf pp
  end.
Definition set_ContentBlockStartSent (v : bool) (h : ClaudeStreamHandler) : ClaudeStreamHandler :=
  match h with
  | mkHandler mo it rb ix st _ sp ms cv mi
              tu tb ti tn pr ai th bf pp =>
      mkHandler mo it rb ix st v sp ms cv mi
                tu tb ti tn pr ai th bf pp
  end.
Definition set_ContentBlockStopSent (v : bool) (h : ClaudeStreamHandler) : ClaudeStreamHandler :=
  match h with
  | mkHandler mo it rb ix st ss _ ms cv mi
              tu tb ti tn pr ai th bf pp =>
      mkHandler mo it rb ix st ss v ms cv mi
                tu tb ti tn pr ai th bf pp
  end.
Definition set_MessageStartSent (v : bool) (h : ClaudeStreamHandler) : ClaudeStreamHandler :=
  match h with
  | mkHandler mo it rb ix st ss sp _ cv mi
              tu tb ti tn pr ai th bf pp =>
      mkHandler mo it rb ix st ss sp v cv mi
                tu tb ti tn pr ai th bf pp
  end.
Definition set_ConversationID (v : string) (h : ClaudeStreamHandler) : ClaudeStreamHandler :=
  match h with
  | mkHandler mo it rb ix st ss sp ms _ mi
              tu tb ti tn pr ai th bf pp =>
      mkHandler mo it rb ix st ss sp ms v mi
                tu tb ti tn pr ai th bf pp
  end.
Definition set_MessageID (v : string) (h : ClaudeStreamHandler) : ClaudeStreamHandler :=
  match h with
  | mkHandler mo it rb ix st ss sp ms cv _
              tu tb ti tn pr ai th bf pp =>
      mkHandler mo it rb ix st ss sp ms cv v
                tu tb ti tn pr ai th bf pp
  end.
Definition set_CurrentToolUse (v : option (gmap string JSON)) (h : ClaudeStreamHandler) : ClaudeStreamHandler :=
  match h with
  | mkHandler mo it rb ix st ss sp ms cv mi
              _ tb ti tn pr ai th bf pp =>
      mkHandler mo it rb ix st ss sp ms cv mi
                v tb ti tn pr ai th bf pp
  end.
Definition set_ToolInputBuffer (v : list string) (h : ClaudeStreamHandler) : ClaudeStreamHandler :=
  match h with
  | mkHandler mo it rb ix st ss sp ms cv mi
              tu _ ti tn pr ai th bf pp =>
      mkHandler mo it rb ix st ss sp ms cv mi
                tu v ti tn pr ai th bf pp
  end.
Definition set_ToolUseID (v : string) (h : ClaudeStreamHandler) : ClaudeStreamHandler :=
  match h with
  | mkHandler mo it rb ix st ss sp ms cv mi
              tu tb _ tn pr ai th bf pp =>
      mkHandler mo it rb ix st ss sp ms cv mi
                tu tb v tn pr ai th bf pp
  end.
Definition set_ToolName (v : string) (h : ClaudeStreamHandler) : ClaudeStreamHandler :=
  match h with
  | mkHandler mo it rb ix st ss sp ms cv mi
              tu tb ti _ pr ai th bf pp =>
      mkHandler mo it rb ix st ss sp ms cv mi
                tu tb ti v pr ai th bf pp
  end.
Definition set_ProcessedToolUseIDs (v : gmap string bool) (h : ClaudeStreamHandler) : ClaudeStreamHandler :=
  match h with
  | mkHandler mo it rb ix st ss sp ms cv mi
              tu tb ti tn _ ai th bf pp =>
      mkHandler mo it rb ix st ss sp ms cv mi
                tu tb ti tn v ai th bf pp
  end.
Definition set_AllToolInputs (v : list string) (h : ClaudeStreamHandler) : ClaudeStreamHandler :=
  match h with
  | mkHandler mo it rb ix st ss sp ms cv mi
              tu tb ti tn pr _ th bf pp =>
      mkHandler mo it rb ix st ss sp ms cv mi
                tu tb ti tn pr v th bf pp
  end.
Definition set_InThinkBlock (v : bool) (h : ClaudeStreamHandler) : ClaudeStreamHandler :=
  match h with
  | mkHandler mo it rb ix st ss sp ms cv mi
              tu tb ti tn pr ai _ bf pp =>
      mkHandler mo it rb ix st ss sp ms cv mi
                tu tb ti tn pr ai v bf pp
  end.
Definition set_ThinkBuffer (v : string) (h : ClaudeStreamHandler) : ClaudeStreamHandler :=
  match h with
  | mkHandler mo it rb ix st ss sp ms cv mi
              tu tb ti tn pr ai th _ pp =>
      mkHandler mo it rb ix st ss sp ms cv mi
                tu tb ti tn pr ai th v pp
  end.
Definition set_PingPending (v : bool) (h : ClaudeStreamHandler) : ClaudeStreamHandler :=
  match h with
  | mkHandler mo it rb ix st ss sp ms cv mi
              tu tb ti tn pr ai th bf _ =>
      mkHandler mo it rb ix st ss sp ms cv mi
                tu tb ti tn pr ai th bf v
  end.

Definition NewClaudeStreamHandler (model : string) (inputTokens : Z) : ClaudeStreamHandler :=
  {| Model := model;
     InputTokens := inputTokens;
     ResponseBuffer := [];
     ContentBlockIndex := -1;
     ContentBlockStarted := false;
     ContentBlockStartSent := false;
     ContentBlockStopSent := false;
     MessageStartSent := false;
     ConversationID := "";
     MessageID := "";
     CurrentToolUse := None;
     ToolInputBuffer := [];
     ToolUseID := "";
     ToolName := "";
     ProcessedToolUseIDs := ∅;
     AllToolInputs := [];
     InThinkBlock := false;
     ThinkBuffer := "";
     PingPending := false |}.

(** The handler threaded with the events appended so far. *)
Definition Run : Type := ClaudeStreamHandler * list SSEEvent.

(** [if h.PingPending { events = append(events, BuildPing()); h.PingPending = false }],
    the statement that follows each [content_block_start]. *)
Definition fire_pending_ping (r : Run) : Run :=
  let '(h, events) := r in
  if PingPending h
  then (set_PingPending false h, events ++ [BuildPing])
  else (h, events).

(** [if !h.ContentBlockStartSent { ... }] of lines 112-122 and, verbatim
    again, 149-159: open a text block unless one is marked as sent. *)
Definition open_text_block (r : Run) : Run :=
  let '(h, events) := r in
  if negb (ContentBlockStartSent h) then
    let h := set_ContentBlockIndex (ContentBlockIndex h + 1) h in
    let events := events ++ [BuildContentBlockStart (ContentBlockIndex h) "text"] in
    let h := set_ContentBlockStartSent true h in
    let h := set_ContentBlockStarted true h in
    fire_pending_ping (h, events)
  else (h, events).

(** How one pass through the body of the scan loop ends: at its closing
    brace, back to the loop condition, or by [break]. *)
Inductive LoopStep : Type :=
| Continue (pos : Z) (h : ClaudeStreamHandler) (events : list SSEEvent)
| Break (pos : Z) (h : ClaudeStreamHandler) (events : list SSEEvent).

(** The body of [for pos < len(h.ThinkBuffer) { ... }], lines 104-189. *)
Definition scan_body (pos : Z) (h : ClaudeStreamHandler) (events : list SSEEvent) : LoopStep :=
  if negb (InThinkBlock h) then
    let thinkStart := strings_Index (slice_from (ThinkBuffer h) pos) ThinkingStartTag in
    if negb (thinkStart =? -1) then
      let thinkStart := thinkStart + pos in
      let beforeText := slice (ThinkBuffer h) pos thinkStart in
      let '(h, events) :=
        if negb (String.eqb beforeText "") then
          let '(h, events) := open_text_block (h, events) in
          let h := set_ResponseBuffer (ResponseBuffer h ++ [beforeText]) h in
          (h, events ++ [BuildContentBlockDelta (ContentBlockIndex h) beforeText])
        else (h, events) in
      let '(h, events) :=
        if ContentBlockStartSent h then
          let events := events ++ [BuildContentBlockStop (ContentBlockIndex h)] in
          let h := set_ContentBlockStopSent true h in
          let h := set_ContentBlockStartSent false h in
          (h, events)
        else (h, events) in
      let h := set_ContentBlockIndex (ContentBlockIndex h + 1) h in
      let events := events ++ [BuildContentBlockStart (ContentBlockIndex h) "thinking"] in
      let h := set_ContentBlockStartSent true h in
      let h := set_ContentBlockStarted true h in
      let h := set_ContentBlockStopSent false h in
      let '(h, events) := fire_pending_ping (h, events) in
      let h := set_InThinkBlock true h in
      Continue (thinkStart + len ThinkingStartTag) h events
    else
      let remaining := slice_from (ThinkBuffer h) pos in
      let '(h, events) := open_text_block (h, events) in
      let h := set_ResponseBuffer (ResponseBuffer h ++ [remaining]) h in
      let events := events ++ [BuildContentBlockDelta (ContentBlockIndex h) remaining] in
      let h := set_ThinkBuffer "" h in
      Break pos h events
  else
    let thinkEnd := strings_Index (slice_from (ThinkBuffer h) pos) ThinkingEndTag in
    if negb (thinkEnd =? -1) then
      let thinkEnd := thinkEnd + pos in
      let thinkingText := slice (ThinkBuffer h) pos thinkEnd in
      let events :=
        if negb (String.eqb thinkingText "")
        then events ++ [BuildContentBlockDelta (ContentBlockIndex h) thinkingText]
        else events in
      let events := events ++ [BuildContentBlockStop (ContentBlockIndex h)] in
      let h := set_ContentBlockStopSent true h in
      let h := set_ContentBlockStartSent false h in
      let h := set_InThinkBlock false h in
      Continue (thinkEnd + len ThinkingEndTag) h events
    else
      let remaining := slice_from (ThinkBuffer h) pos in
      let events := events ++ [BuildContentBlockDelta (ContentBlockIndex h) remaining] in
      let h := set_ThinkBuffer "" h in
      Break pos h events.

(** The scan loop [for pos < len(h.ThinkBuffer) { ... }], lines 103-190.
    [Some (pos, h, events)] is the state when the loop is left, by its
    condition or by [break]; [None] means the fuel ran out, which
    [scan_loop_total] rules out for fuel above the buffer length. *)
Fixpoint scan_loop (fuel : nat) (pos : Z) (h : ClaudeStreamHandler) (events : list SSEEvent)
  : option (Z * ClaudeStreamHandler * list SSEEvent) :=
  if negb (pos <? len (ThinkBuffer h)) then Some (pos, h, events) else
  match fuel with
  | O => None
  | S fuel =>
      match scan_body pos h events with
      | Continue pos h events => scan_loop fuel pos h events
      | Break pos h events => Some (pos, h, events)
      end
  end.

Section Handler.

(** The id [GenerateMessageID()] draws from [crypto/rand]; the handler calls
    it only while [MessageStartSent] is false. *)
Variable GenerateMessageID : string.

(** [json.Marshal] rendered as a string. *)
Variable json_Marshal : JSON -> string.

(** 1. [if eventType == "initial-response" { ... }], lines 68-85. *)
Definition on_initial_response (payloadMap : gmap string JSON) (r : Run) : Run :=
  let '(h, events) := r in
  if negb (MessageStartSent h) then
    let convID := get_string payloadMap "conversationId" in
    let convID := if String.eqb convID "" then ConversationID h else convID in
    let convID := if String.eqb convID "" then "unknown"%string else convID in
    let h := set_ConversationID convID h in
    let '(messageStartEvent, messageID) :=
      BuildMessageStart GenerateMessageID (Model h) (InputTokens h) in
    let h := set_MessageID messageID h in
    let events := events ++ [messageStartEvent] in
    let h := set_MessageStartSent true h in
    let h := set_PingPending true h in
    (h, events)
  else (h, events).

(** 2. [if eventType == "assistantResponseEvent" { ... }], lines 88-199. *)
Definition on_assistantResponseEvent (payloadMap : gmap string JSON) (r : Run) : Run :=
  let '(h, events) := r in
  let content := get_string payloadMap "content" in
  let '(h, events) :=
    if is_some (CurrentToolUse h) && negb (ContentBlockStopSent h) then
      let events := events ++ [BuildContentBlockStop (ContentBlockIndex h)] in
      let h := set_ContentBlockStopSent true h in
      let h := set_CurrentToolUse None h in
      (h, events)
    else (h, events) in
  if negb (String.eqb content "") then
    let h := set_ThinkBuffer (String.append (ThinkBuffer h) content) h in
    match scan_loop (S (String.length (ThinkBuffer h))) 0 h events with
    | Some (pos, h, events) =>
        let h :=
          if pos <? len (ThinkBuffer h)
          then set_ThinkBuffer (slice_from (ThinkBuffer h) pos) h
          else set_ThinkBuffer "" h in
        (h, events)
    | None => (h, events)
    end
  else (h, events).

(** 3. [if eventType == "toolUseEvent" { ... }], lines 202-266. *)
Definition on_toolUseEvent (payloadMap : gmap string JSON) (r : Run) : Run :=
  let '(h, events) := r in
  let toolUseID := get_string payloadMap "toolUseId" in
  let toolName := get_string payloadMap "name" in
  let toolInput := get_value payloadMap "input" in
  let isStop := get_bool payloadMap "stop" in
  let '(h, events) :=
    if negb (String.eqb toolUseID "") && negb (String.eqb toolName "")
       && negb (is_some (CurrentToolUse h)) then
      let '(h, events) :=
        if ContentBlockStartSent h && negb (ContentBlockStopSent h) then
          let events := events ++ [BuildContentBlockStop (ContentBlockIndex h)] in
          (set_ContentBlockStopSent true h, events)
        else (h, events) in
      let h := set_ProcessedToolUseIDs (<[toolUseID := true]> (ProcessedToolUseIDs h)) h in
      let h := set_ContentBlockIndex (ContentBlockIndex h + 1) h in
      let events := events ++ [BuildToolUseStart (ContentBlockIndex h) toolUseID toolName] in
      let '(h, events) := fire_pending_ping (h, events) in
      let h := set_ContentBlockStarted true h in
      let h := set_CurrentToolUse
                 (Some (list_to_map [ ("toolUseId", JStr toolUseID);
                                      ("name", JStr toolName) ])) h in
      let h := set_ToolUseID toolUseID h in
      let h := set_ToolName toolName h in
      let h := set_ToolInputBuffer [] h in
      let h := set_ContentBlockStopSent false h in
      let h := set_ContentBlockStartSent true h in
      (h, events)
    else (h, events) in
  let '(h, events) :=
    if is_some (CurrentToolUse h) && negb (is_nil_value toolInput) then
      let fragment :=
        match toolInput with
        | JStr v => v
        | _ => json_Marshal toolInput
        end in
      let h := set_ToolInputBuffer (ToolInputBuffer h ++ [fragment]) h in
      let events := events ++ [BuildToolUseInputDelta (ContentBlockIndex h) fragment] in
      (h, events)
    else (h, events) in
  if isStop && is_some (CurrentToolUse h) then
    let fullInput := strings_Join (ToolInputBuffer h) "" in
    let h := set_AllToolInputs (AllToolInputs h ++ [fullInput]) h in
    let events := events ++ [BuildContentBlockStop (ContentBlockIndex h)] in
    let h := set_ContentBlockStopSent true h in
    let h := set_ContentBlockStarted false h in
    let h := set_CurrentToolUse None h in
    let h := set_ToolUseID "" h in
    let h := set_ToolName "" h in
    let h := set_ToolInputBuffer [] h in
    (h, events)
  else (h, events).

(** 4. [if eventType == "assistantResponseEnd" { ... }], lines 269-275. *)
Definition on_assistantResponseEnd (r : Run) : Run :=
  let '(h, events) := r in
  if ContentBlockStarted h && negb (ContentBlockStopSent h) then
    let events := events ++ [BuildContentBlockStop (ContentBlockIndex h)] in
    (set_ContentBlockStopSent true h, events)
  else (h, events).

(** [HandleEvent]: the handler after the call and the events it returns. *)
Definition HandleEvent (h : ClaudeStreamHandler) (eventType : string) (payload : JSON) : Run :=
  match payload with
  | JObj payloadMap =>
      let r : Run := (h, []) in
      let r := if String.eqb eventType "initial-response"
               then on_initial_response payloadMap r else r in
      let r := if String.eqb eventType "assistantResponseEvent"
               then on_assistantResponseEvent payloadMap r else r in
      let r := if String.eqb eventType "toolUseEvent"
               then on_toolUseEvent payloadMap r else r in
      let r := if String.eqb eventType "assistantResponseEnd"
               then on_assistantResponseEnd r else r in
      r
  | _ => (h, [])
  end.

(** The approximate output-token count of [Finish], lines 292-298. *)
Definition outputTokens (h : ClaudeStreamHandler) : Z :=
  let fullText := strings_Join (ResponseBuffer h) "" in
  let fullToolInput := strings_Join (AllToolInputs h) "" in
  let outputTokens := Z.quot (len fullText + len fullToolInput) 4 in
  if outputTokens <? 1 then 1 else outputTokens.

(** [Finish] *)
Definition Finish (h : ClaudeStreamHandler) : Run :=
  let '(h, events) :=
    if ContentBlockStarted h && negb (ContentBlockStopSent h) then
      (set_ContentBlockStopSent true h, [BuildContentBlockStop (ContentBlockIndex h)])
    else (h, []) in
  (h, events ++ BuildMessageStop (InputTokens h) (outputTokens h) None).

(** A classified event: its type and its payload. *)
Definition Classified : Type := string * JSON.

(** Feeding classified events in order, collecting what each call returns. *)
Fixpoint feed (h : ClaudeStreamHandler) (evs : list Classified) : Run :=
  match evs with
  | [] => (h, [])
  | (eventType, payload) :: rest =>
      let '(h1, out1) := HandleEvent h eventType payload in
      let '(h2, out2) := feed h1 rest in
      (h2, out1 ++ out2)
  end.

(** The whole run of one response: a fresh handler, the events, then
    [Finish]; the result is everything sent to the client. *)
Definition run (model : string) (inputTokens : Z) (evs : list Classified) : list SSEEvent :=
  let '(h, out) := feed (NewClaudeStreamHandler model inputTokens) evs in
  out ++ snd (Finish h).

End Handler.

(** ** Properties of the stream handler *)

#[local] Arguments BuildContentBlockStart : simpl never.
#[local] Arguments BuildContentBlockDelta : simpl never.
#[local] Arguments BuildContentBlockStop : simpl never.
#[local] Arguments BuildPing : simpl never.
#[local] Arguments BuildToolUseStart : simpl never.
#[local] Arguments BuildToolUseInputDelta : simpl never.
#[local] Arguments BuildMessageStart : simpl never.
#[local] Arguments BuildMessageStop : simpl never.
#[local] Arguments strings_Index : simpl never.
#[local] Arguments strings_Join : simpl never.
#[local] Arguments slice : simpl never.
#[local] Arguments slice_from : simpl never.
#[local] Arguments len : simpl never.
#[local] Arguments String.eqb : simpl never.

(** Case analysis on every [if] of the goal. *)
Ltac split_ifs :=
  repeat match goal with
         | |- context [if negb ?b then _ else _] => destruct b eqn:?; cbn
         | |- context [if ?b then _ else _] => destruct b eqn:?; cbn
         end.

(** *** The scan loop terminates *)

Lemma prefix_length (p s : string) :
  String.prefix p s = true -> (String.length p <= String.length s)%nat.
Proof.
  revert s; induction p as [|a p IH]; intros [|b s]; simpl;
    try lia; try (intros; discriminate).
  destruct (ascii_dec a b); [|intros; discriminate].
  intros H; apply IH in H; lia.
Qed.

Lemma index_nat_bound (sub s : string) (n : nat) :
  index_nat s sub = Some n -> (n + String.length sub <= String.length s)%nat.
Proof.
  revert n; induction s as [|a s IH]; intros n; cbn [index_nat].
  - destruct (String.prefix sub "") eqn:E; [|intros; discriminate].
    intros [= <-]. apply prefix_length in E. simpl in *. lia.
  - destruct (String.prefix sub (String a s)) eqn:E.
    + intros [= <-]. apply prefix_length in E. simpl in *. lia.
    + destruct (index_nat s sub) as [m|]; [|intros; discriminate].
      simpl. intros [= <-]. specialize (IH m eq_refl). lia.
Qed.

Lemma strings_Index_bound (s sub : string) :
  strings_Index s sub <> -1 ->
  0 <= strings_Index s sub /\ strings_Index s sub + len sub <= len s.
Proof.
  unfold strings_Index, len.
  destruct (index_nat s sub) as [n|] eqn:E; [|congruence].
  intros _. apply index_nat_bound in E. lia.
Qed.

Lemma length_substring (n m : nat) (s : string) :
  (n + m <= String.length s)%nat -> String.length (String.substring n m s) = m.
Proof.
  revert n m; induction s as [|a s IH]; intros [|n] [|m]; simpl; intros H; try lia.
  - f_equal. apply (IH O m). lia.
  - apply (IH n 0%nat). lia.
  - apply (IH n (S m)). lia.
Qed.

Lemma len_slice_from (s : string) (pos : Z) :
  0 <= pos <= len s -> len (slice_from s pos) = len s - pos.
Proof.
  unfold slice_from, slice, len. intros H.
  rewrite length_substring; lia.
Qed.

Lemma len_ThinkingStartTag : len ThinkingStartTag = 10.
Proof. reflexivity. Qed.

Lemma len_ThinkingEndTag : len ThinkingEndTag = 11.
Proof. reflexivity. Qed.

(** A pass that reaches the closing brace has moved [pos] forward, past a
    whole tag, and has left the buffer alone. *)
Lemma scan_body_progress (pos : Z) (h : ClaudeStreamHandler) (events : list SSEEvent) :
  0 <= pos < len (ThinkBuffer h) ->
  forall pos' h' events', scan_body pos h events = Continue pos' h' events' ->
  pos < pos' <= len (ThinkBuffer h') /\ ThinkBuffer h' = ThinkBuffer h.
Proof.
  intros Hpos pos' h' events'.
  assert (Hlen := len_slice_from (ThinkBuffer h) pos ltac:(lia)).
  pose proof (strings_Index_bound (slice_from (ThinkBuffer h) pos) ThinkingStartTag) as Bs.
  pose proof (strings_Index_bound (slice_from (ThinkBuffer h) pos) ThinkingEndTag) as Be.
  rewrite len_ThinkingStartTag in Bs. rewrite len_ThinkingEndTag in Be.
  unfold scan_body, open_text_block, fire_pending_ping.
  rewrite len_ThinkingStartTag, len_ThinkingEndTag.
  destruct h; cbn in *. split_ifs; intros [= <- <- <-]; cbn;
    repeat match goal with H : (_ =? _) = false |- _ => apply Z.eqb_neq in H end;
    (split; [lia|reflexivity]).
Qed.

(** The loop leaves within [len(buffer) - pos + 1] passes. *)
Lemma scan_loop_total (fuel : nat) :
  forall pos h events,
    0 <= pos -> (Z.to_nat (len (ThinkBuffer h) - pos) < fuel)%nat ->
    exists r, scan_loop fuel pos h events = Some r.
Proof.
  induction fuel as [|fuel IH]; intros pos h events Hpos Hfuel; [lia|].
  cbn [scan_loop].
  destruct (Z.ltb_spec pos (len (ThinkBuffer h))); cbn [negb]; [|eauto].
  destruct (scan_body pos h events) as [pos' h' ev'|pos' h' ev'] eqn:E; [|eauto].
  apply scan_body_progress in E as [Hp Hb]; [|lia].
  apply IH; [lia|]. rewrite Hb in *. lia.
Qed.

(** The fuel [HandleEvent] gives the loop is enough: the [None] branch of
    [on_assistantResponseEvent] is never taken. *)
Lemma scan_loop_fuel_enough (h : ClaudeStreamHandler) (events : list SSEEvent) :
  exists r, scan_loop (S (String.length (ThinkBuffer h))) 0 h events = Some r.
Proof.
  apply scan_loop_total; [lia|]. unfold len. lia.
Qed.

(** *** The handler's trace, abstractly

    Three fields decide where [message_start], [content_block_start] and
    [ping] may appear: [MessageStartSent], [PingPending] and
    [ContentBlockIndex].  [trace c0 ev0 c ev] says that the code, started
    with these fields at [c0] and the events [ev0] behind it, can have them
    at [c] with [ev] behind it. *)

#[local] Arguments obj : simpl never.

Definition neutral (e : SSEEvent) : bool :=
  negb (is_message_start e) && negb (is_content_block_start e) && negb (is_ping e).

Definition Core : Type := bool * bool * Z.

Definition core_of (h : ClaudeStreamHandler) : Core :=
  (MessageStartSent h, PingPending h, ContentBlockIndex h).

Inductive trace (c0 : Core) (ev0 : list SSEEvent) : Core -> list SSEEvent -> Prop :=
| trace_here : trace c0 ev0 c0 ev0
| trace_emit c ev e :
    trace c0 ev0 c ev -> neutral e = true ->
    trace c0 ev0 c (ev ++ [e])
| trace_open_armed ms i ev e :
    trace c0 ev0 (ms, true, i) ev ->
    is_content_block_start e = true -> index_of e = Some (i + 1) ->
    trace c0 ev0 (ms, false, i + 1) ((ev ++ [e]) ++ [BuildPing])
| trace_open ms i ev e :
    trace c0 ev0 (ms, false, i) ev ->
    is_content_block_start e = true -> index_of e = Some (i + 1) ->
    trace c0 ev0 (ms, false, i + 1) (ev ++ [e])
| trace_message_start pp i ev e :
    trace c0 ev0 (false, pp, i) ev -> is_message_start e = true ->
    trace c0 ev0 (true, true, i) (ev ++ [e]).

(** A piece of handler code that only moves along [trace]. *)
Definition traceable (F : Run -> Run) : Prop :=
  forall c0 ev0 pre h ev,
    trace c0 ev0 (core_of h) (pre ++ ev) ->
    trace c0 ev0 (core_of (fst (F (h, ev)))) (pre ++ snd (F (h, ev))).

Ltac peel :=
  repeat first
    [ assumption
    | eapply trace_open_armed; [ | reflexivity | reflexivity ]
    | eapply trace_emit; [ | reflexivity ]
    | eapply trace_open; [ | reflexivity | reflexivity ]
    | eapply trace_message_start; [ | reflexivity ] ].

Ltac by_cases :=
  split_ifs; rewrite ?app_assoc; peel.

Lemma trace_emits (c0 : Core) (ev0 : list SSEEvent) (c : Core) (ev l : list SSEEvent) :
  trace c0 ev0 c ev -> forallb neutral l = true -> trace c0 ev0 c (ev ++ l).
Proof.
  revert ev; induction l as [|e l IH]; intros ev H N.
  - rewrite app_nil_r. exact H.
  - cbn in N. apply andb_prop in N as [Ne Nl].
    change (e :: l) with ([e] ++ l). rewrite app_assoc.
    apply IH; [|exact Nl]. apply trace_emit; assumption.
Qed.

Lemma traceable_id : traceable (fun r => r).
Proof. intros c0 ev0 pre h ev H. exact H. Qed.

Lemma traceable_compose (F G : Run -> Run) :
  traceable F -> traceable G -> traceable (fun r => G (F r)).
Proof.
  intros HF HG c0 ev0 pre h ev H. cbn beta.
  specialize (HF c0 ev0 pre h ev H).
  destruct (F (h, ev)) as [h1 ev1]. cbn [fst snd] in HF.
  apply HG, HF.
Qed.

Lemma traceable_if (b : bool) (F : Run -> Run) :
  traceable F -> traceable (fun r => if b then F r else r).
Proof. intros HF. destruct b; [exact HF|apply traceable_id]. Qed.

Lemma open_text_block_traceable : traceable open_text_block.
Proof.
  intros c0 ev0 pre h ev H. unfold open_text_block, fire_pending_ping, core_of in *.
  destruct h; cbn in *. by_cases.
Qed.

Lemma scan_body_trace (c0 : Core) (ev0 pre : list SSEEvent) (pos : Z)
    (h : ClaudeStreamHandler) (ev : list SSEEvent) :
  trace c0 ev0 (core_of h) (pre ++ ev) ->
  match scan_body pos h ev with
  | Continue _ h' ev' | Break _ h' ev' => trace c0 ev0 (core_of h') (pre ++ ev')
  end.
Proof.
  intros H. unfold scan_body, open_text_block, fire_pending_ping, core_of in *.
  destruct h; cbn in *. by_cases.
Qed.

Lemma scan_loop_trace (c0 : Core) (ev0 pre : list SSEEvent) (fuel : nat) :
  forall pos h ev pos' h' ev',
    trace c0 ev0 (core_of h) (pre ++ ev) ->
    scan_loop fuel pos h ev = Some (pos', h', ev') ->
    trace c0 ev0 (core_of h') (pre ++ ev').
Proof.
  induction fuel as [|fuel IH]; intros pos h ev pos' h' ev' H; cbn [scan_loop];
    destruct (negb (pos <? len (ThinkBuffer h))); try (intros [= <- <- <-]; exact H);
    try (intros; discriminate).
  pose proof (scan_body_trace c0 ev0 pre pos h ev H) as B.
  destruct (scan_body pos h ev) as [p1 h1 ev1|p1 h1 ev1].
  - apply IH, B.
  - intros [= <- <- <-]. exact B.
Qed.

Lemma core_of_set_ThinkBuffer (v : string) (h : ClaudeStreamHandler) :
  core_of (set_ThinkBuffer v h) = core_of h.
Proof. destruct h; reflexivity. Qed.

Section HandlerTrace.

Variable GenerateMessageID : string.
Variable json_Marshal : JSON -> string.

Lemma BuildMessageStart_is_message_start (id model : string) (tokens : Z) :
  is_message_start (fst (BuildMessageStart id model tokens)) = true.
Proof. reflexivity. Qed.

Lemma on_initial_response_traceable (payloadMap : gmap string JSON) :
  traceable (on_initial_response GenerateMessageID payloadMap).
Proof.
  intros c0 ev0 pre h ev H. unfold on_initial_response, core_of in *.
  pose proof (BuildMessageStart_is_message_start
                GenerateMessageID (Model h) (InputTokens h)) as M.
  destruct h; cbn in *.
  destruct (BuildMessageStart _ _ _) as [e mid]. cbn in M.
  split_ifs; rewrite ?app_assoc; try assumption.
  eapply trace_message_start; eassumption.
Qed.

Lemma on_assistantResponseEvent_traceable (payloadMap : gmap string JSON) :
  traceable (on_assistantResponseEvent payloadMap).
Proof.
  intros c0 ev0 pre h ev H. unfold on_assistantResponseEvent.
  set (content := get_string payloadMap "content"). clearbody content.
  match goal with
  | |- context [let '(h, events) := ?X in _] =>
      assert (trace c0 ev0 (core_of (fst X)) (pre ++ snd X)) as H1;
      [|destruct X as [h1 ev1]]
  end.
  { unfold core_of in *. destruct h; cbn in *. by_cases. }
  cbn [fst snd] in H1.
  destruct (String.eqb content ""); cbn [negb fst snd]; [exact H1|].
  rewrite <- (core_of_set_ThinkBuffer (String.append (ThinkBuffer h1) content)) in H1.
  destruct (scan_loop _ 0 _ ev1) as [[[pos h2] ev2]|] eqn:E; cbn [fst snd]; [|exact H1].
  eapply scan_loop_trace in E; [|exact H1].
  destruct (pos <? len (ThinkBuffer h2)); rewrite core_of_set_ThinkBuffer; exact E.
Qed.

Lemma on_toolUseEvent_traceable (payloadMap : gmap string JSON) :
  traceable (on_toolUseEvent json_Marshal payloadMap).
Proof.
  intros c0 ev0 pre h ev H. unfold on_toolUseEvent, fire_pending_ping, core_of in *.
  destruct h; cbn in *. by_cases.
Qed.

Lemma on_assistantResponseEnd_traceable : traceable on_assistantResponseEnd.
Proof.
  intros c0 ev0 pre h ev H. unfold on_assistantResponseEnd, core_of in *.
  destruct h; cbn in *. by_cases.
Qed.

Lemma HandleEvent_trace (c0 : Core) (ev0 pre : list SSEEvent)
    (h : ClaudeStreamHandler) (eventType : string) (payload : JSON) :
  trace c0 ev0 (core_of h) pre ->
  trace c0 ev0 (core_of (fst (HandleEvent GenerateMessageID json_Marshal h eventType payload)))
    (pre ++ snd (HandleEvent GenerateMessageID json_Marshal h eventType payload)).
Proof.
  intros H. unfold HandleEvent.
  destruct payload as [| | | | |payloadMap]; cbn [fst snd]; rewrite ?app_nil_r; try exact H.
  pose proof (traceable_compose _ _
    (traceable_compose _ _
      (traceable_compose _ _
        (traceable_if (String.eqb eventType "initial-response") _
           (on_initial_response_traceable payloadMap))
        (traceable_if (String.eqb eventType "assistantResponseEvent") _
           (on_assistantResponseEvent_traceable payloadMap)))
      (traceable_if (String.eqb eventType "toolUseEvent") _
         (on_toolUseEvent_traceable payloadMap)))
    (traceable_if (String.eqb eventType "assistantResponseEnd") _
       on_assistantResponseEnd_traceable)) as T.
  apply (T c0 ev0 pre h []). rewrite app_nil_r. exact H.
Qed.

Lemma Finish_neutral (h : ClaudeStreamHandler) :
  core_of (fst (Finish h)) = core_of h /\ forallb neutral (snd (Finish h)) = true.
Proof.
  unfold Finish, core_of. destruct h; cbn.
  split_ifs; split; reflexivity.
Qed.

Lemma Finish_trace (c0 : Core) (ev0 pre : list SSEEvent) (h : ClaudeStreamHandler) :
  trace c0 ev0 (core_of h) pre ->
  trace c0 ev0 (core_of (fst (Finish h))) (pre ++ snd (Finish h)).
Proof.
  intros H. destruct (Finish_neutral h) as [-> N].
  apply trace_emits; assumption.
Qed.

Lemma feed_trace (c0 : Core) (ev0 : list SSEEvent) (evs : list Classified) :
  forall pre h,
    trace c0 ev0 (core_of h) pre ->
    trace c0 ev0 (core_of (fst (feed GenerateMessageID json_Marshal h evs)))
      (pre ++ snd (feed GenerateMessageID json_Marshal h evs)).
Proof.
  induction evs as [|[eventType payload] evs IH]; intros pre h H; cbn [feed].
  - cbn. rewrite app_nil_r. exact H.
  - pose proof (HandleEvent_trace c0 ev0 pre h eventType payload H) as H1.
    destruct (HandleEvent _ _ h eventType payload) as [h1 out1]. cbn [fst snd] in H1.
    specialize (IH _ _ H1).
    destruct (feed _ _ h1 evs) as [h2 out2]. cbn [fst snd] in *.
    rewrite app_assoc. exact IH.
Qed.

End HandlerTrace.

(** *** Orderings read off a run's output *)

(** Position of the first event satisfying [p]. *)
Fixpoint first_index (p : SSEEvent -> bool) (l : list SSEEvent) : option nat :=
  match l with
  | [] => None
  | e :: l' => if p e then Some O else option_map S (first_index p l')
  end.

(** A [message_start] stands strictly before the first
    [content_block_start], if there is one. *)
Definition message_start_precedes_blocks (out : list SSEEvent) : Prop :=
  forall i, first_index is_content_block_start out = Some i ->
  exists j, first_index is_message_start out = Some j /\ (j < i)%nat.

(** The event right after the first [content_block_start], if there is one,
    is a [ping]. *)
Definition ping_follows_first_block (out : list SSEEvent) : Prop :=
  forall i, first_index is_content_block_start out = Some i ->
  exists e, out !! S i = Some e /\ is_ping e = true.

Lemma count_events_app (p : SSEEvent -> bool) (a b : list SSEEvent) :
  count_events p (a ++ b) = (count_events p a + count_events p b)%nat.
Proof. unfold count_events. rewrite List.filter_app, List.length_app. reflexivity. Qed.

Lemma count_events_cons (p : SSEEvent -> bool) (e : SSEEvent) (l : list SSEEvent) :
  count_events p (e :: l) = ((if p e then 1 else 0) + count_events p l)%nat.
Proof. unfold count_events. cbn. destruct (p e); reflexivity. Qed.

Lemma count_events_nil (p : SSEEvent -> bool) : count_events p [] = 0%nat.
Proof. reflexivity. Qed.

Lemma first_index_skip (p : SSEEvent -> bool) (pre : list SSEEvent) (s : SSEEvent)
    (post : list SSEEvent) :
  count_events p pre = 0%nat -> p s = true ->
  first_index p (pre ++ s :: post) = Some (List.length pre).
Proof.
  induction pre as [|e pre IH]; intros Hc Hs; cbn [first_index app List.length].
  - rewrite Hs. reflexivity.
  - rewrite count_events_cons in Hc. destruct (p e); [discriminate|].
    rewrite IH by assumption. reflexivity.
Qed.

(** An event found in [a] is found there first, whatever follows. *)
Lemma first_index_within (p : SSEEvent -> bool) (a b : list SSEEvent) :
  (1 <= count_events p a)%nat ->
  exists j, first_index p (a ++ b) = Some j /\ (j < List.length a)%nat.
Proof.
  induction a as [|e a IH]; intros Hc; [cbn in Hc; lia|].
  rewrite count_events_cons in Hc. cbn [first_index app List.length].
  destruct (p e); [exists 0%nat; split; [reflexivity|lia]|].
  destruct (IH Hc) as (j & -> & Hj). exists (S j). split; [reflexivity|lia].
Qed.

(** An event not found in [a] is found behind it, if at all. *)
Lemma first_index_beyond (p : SSEEvent -> bool) (a b : list SSEEvent) (i : nat) :
  count_events p a = 0%nat -> first_index p (a ++ b) = Some i -> (List.length a <= i)%nat.
Proof.
  revert i. induction a as [|e a IH]; intros i Hc Hi; [cbn; lia|].
  rewrite count_events_cons in Hc. cbn [first_index app List.length] in *.
  destruct (p e); [discriminate Hc|].
  destruct (first_index p (a ++ b)) as [k|] eqn:E; [|discriminate Hi].
  injection Hi as <-. specialize (IH k Hc eq_refl). lia.
Qed.

Lemma start_is_not_ping (e : SSEEvent) :
  is_content_block_start e = true -> is_ping e = false.
Proof.
  unfold is_content_block_start, is_ping. intros H.
  apply String.eqb_eq in H. rewrite H. reflexivity.
Qed.

Lemma start_is_not_message_start (e : SSEEvent) :
  is_content_block_start e = true -> is_message_start e = false.
Proof.
  unfold is_content_block_start, is_message_start. intros H.
  apply String.eqb_eq in H. rewrite H. reflexivity.
Qed.

Lemma message_start_is_not_start (e : SSEEvent) :
  is_message_start e = true -> is_content_block_start e = false.
Proof.
  unfold is_content_block_start, is_message_start. intros H.
  apply String.eqb_eq in H. rewrite H. reflexivity.
Qed.

Lemma neutral_inv (e : SSEEvent) :
  neutral e = true ->
  is_message_start e = false /\ is_content_block_start e = false /\ is_ping e = false.
Proof.
  unfold neutral. destruct (is_message_start e), (is_content_block_start e), (is_ping e);
    cbn; intros; try discriminate; auto.
Qed.

(** One while [MessageStartSent] is still false, zero afterwards. *)
Definition unsent (c : Core) : nat := if fst (fst c) then 0 else 1.

(** [message_start] is sent at most once: the count of them plus [unsent]
    never changes. *)
Lemma trace_message_start_budget (c0 : Core) (ev0 : list SSEEvent) (c : Core)
    (ev : list SSEEvent) :
  trace c0 ev0 c ev ->
  (count_events is_message_start ev + unsent c
   = count_events is_message_start ev0 + unsent c0)%nat.
Proof.
  induction 1 as [|c ev e _ IH N|ms i ev e _ IH S I|ms i ev e _ IH S I|pp i ev e _ IH M];
    rewrite ?count_events_app, ?count_events_cons, ?count_events_nil.
  - reflexivity.
  - apply neutral_inv in N as (-> & _ & _). rewrite <- IH. cbv iota. lia.
  - rewrite (start_is_not_message_start e S).
    change (unsent (ms, false, i + 1)) with (unsent (ms, true, i)).
    change (is_message_start BuildPing) with false.
    rewrite <- IH. cbv iota. lia.
  - rewrite (start_is_not_message_start e S).
    change (unsent (ms, false, i + 1)) with (unsent (ms, false, i)).
    rewrite <- IH. cbv iota. lia.
  - rewrite M. rewrite <- IH.
    change (unsent (true, true, i)) with 0%nat. change (unsent (false, pp, i)) with 1%nat.
    cbv iota. lia.
Qed.

(** Events are only ever appended. *)
Lemma trace_extends (c0 : Core) (ev0 : list SSEEvent) (c : Core) (ev : list SSEEvent) :
  trace c0 ev0 c ev -> exists suffix, ev = ev0 ++ suffix.
Proof.
  induction 1 as [|c ev e _ [s ->] _|ms i ev e _ [s ->] _ _|ms i ev e _ [s ->] _ _
                 |pp i ev e _ [s ->] _].
  - exists []. rewrite app_nil_r. reflexivity.
  - exists (s ++ [e]). rewrite app_assoc. reflexivity.
  - exists ((s ++ [e]) ++ [BuildPing]). rewrite !app_assoc. reflexivity.
  - exists (s ++ [e]). rewrite app_assoc. reflexivity.
  - exists (s ++ [e]). rewrite app_assoc. reflexivity.
Qed.

(** Once [message_start] is out and the ping is armed, the ping goes out
    right after the first [content_block_start], and only there. *)
Definition ping_shape (pp : bool) (ev : list SSEEvent) : Prop :=
  if pp
  then count_events is_content_block_start ev = 0%nat
       /\ count_events is_ping ev = 0%nat
  else exists pre s post,
         ev = pre ++ s :: BuildPing :: post
         /\ is_content_block_start s = true
         /\ count_events is_content_block_start pre = 0%nat
         /\ count_events is_ping pre = 0%nat
         /\ count_events is_ping post = 0%nat.

Lemma trace_ping_shape (i0 : Z) (ev0 : list SSEEvent) (c : Core) (ev : list SSEEvent) :
  count_events is_content_block_start ev0 = 0%nat ->
  count_events is_ping ev0 = 0%nat ->
  trace (true, true, i0) ev0 c ev ->
  fst (fst c) = true /\ ping_shape (snd (fst c)) ev.
Proof.
  intros S0 P0.
  induction 1 as [|c ev e _ [Hm IH] N|ms i ev e _ [Hm IH] S I|ms i ev e _ [Hm IH] S I
                 |pp i ev e _ [Hm IH] M]; cbn [fst snd] in *.
  - split; [reflexivity|]. cbn. auto.
  - split; [assumption|]. apply neutral_inv in N as (_ & Ns & Np).
    destruct c as [[ms pp] i]; cbn [fst snd] in *. destruct pp; cbn in *.
    + rewrite !count_events_app, !count_events_cons, !count_events_nil, Ns, Np.
      cbv iota. lia.
    + destruct IH as (pre & s & post & -> & Hs & H1 & H2 & H3).
      exists pre, s, (post ++ [e]). repeat split; try assumption.
      * rewrite <- app_assoc. reflexivity.
      * rewrite count_events_app, count_events_cons, count_events_nil, Np.
        cbv iota. lia.
  - split; [assumption|]. cbn in *. destruct IH as [H1 H2].
    exists ev, e, []. repeat split; try assumption.
    rewrite <- app_assoc. reflexivity.
  - split; [assumption|]. cbn in *.
    destruct IH as (pre & s & post & -> & Hs & H1 & H2 & H3).
    exists pre, s, (post ++ [e]). repeat split; try assumption.
    + rewrite <- app_assoc. reflexivity.
    + rewrite count_events_app, count_events_cons, count_events_nil,
        (start_is_not_ping e S). cbv iota. lia.
  - discriminate.
Qed.

(** As long as no block was opened no [ping] went out, and the ping is
    armed exactly when [message_start] was sent. *)
Lemma trace_unfired (i0 : Z) (c : Core) (ev : list SSEEvent) :
  trace (false, false, i0) [] c ev ->
  count_events is_content_block_start ev = 0%nat ->
  snd (fst c) = fst (fst c) /\ count_events is_ping ev = 0%nat.
Proof.
  assert (forall e, is_message_start e = true -> is_ping e = false) as Mp.
  { intros e. unfold is_message_start, is_ping. intros H.
    apply String.eqb_eq in H. rewrite H. reflexivity. }
  induction 1 as [|c ev e _ IH N|ms i ev e _ IH S I|ms i ev e _ IH S I|pp i ev e _ IH M];
    rewrite ?count_events_app, ?count_events_cons, ?count_events_nil;
    cbn [fst snd] in *.
  - intros _. split; reflexivity.
  - apply neutral_inv in N as (_ & -> & ->). intros Hs.
    destruct IH as [IH1 IH2]; [lia|]. split; [exact IH1|lia].
  - rewrite S. intros Hs. lia.
  - rewrite S. intros Hs. lia.
  - rewrite (message_start_is_not_start e M), (Mp e M). intros Hs.
    destruct IH as [_ IH2]; [lia|]. split; [reflexivity|lia].
Qed.

(** *** Block indices count up from zero

    The half of C2 that holds on every run: each [content_block_start]
    carries the next index. *)

(** [from, from + 1, ..., from + n - 1] *)
Definition count_up (from : Z) (n : nat) : list Z :=
  map (fun k => from + Z.of_nat k) (seq 0 n).

Lemma count_up_S (from : Z) (n : nat) :
  count_up from (S n) = count_up from n ++ [from + Z.of_nat n].
Proof. unfold count_up. rewrite seq_S, map_app. reflexivity. Qed.

Lemma start_indices_app (a b : list SSEEvent) :
  start_indices (a ++ b) = start_indices a ++ start_indices b.
Proof. unfold start_indices. rewrite List.filter_app, omap_app. reflexivity. Qed.

Lemma start_indices_other (e : SSEEvent) :
  is_content_block_start e = false -> start_indices [e] = [].
Proof. unfold start_indices. cbn. intros ->. reflexivity. Qed.

Lemma start_indices_start (e : SSEEvent) (i : Z) :
  is_content_block_start e = true -> index_of e = Some i -> start_indices [e] = [i].
Proof. unfold start_indices. cbn. intros -> H. cbn. rewrite H. reflexivity. Qed.

Lemma trace_start_indices (c0 : Core) (ev0 : list SSEEvent) (c : Core) (ev : list SSEEvent) :
  trace c0 ev0 c ev ->
  exists n, snd c = snd c0 + Z.of_nat n
            /\ start_indices ev = start_indices ev0 ++ count_up (snd c0 + 1) n.
Proof.
  induction 1 as [|c ev e _ (n & Hi & Hs) N|ms i ev e _ (n & Hi & Hs) St I
                 |ms i ev e _ (n & Hi & Hs) St I|pp i ev e _ (n & Hi & Hs) M];
    cbn [snd] in *.
  - exists 0%nat. split; [lia|]. cbn. rewrite app_nil_r. reflexivity.
  - exists n. split; [exact Hi|]. apply neutral_inv in N as (_ & N & _).
    rewrite start_indices_app, (start_indices_other e N), app_nil_r. exact Hs.
  - exists (S n). split; [lia|].
    rewrite !start_indices_app, (start_indices_start e _ St I),
      (start_indices_other BuildPing eq_refl), app_nil_r, Hs, count_up_S, <- app_assoc.
    do 3 f_equal. lia.
  - exists (S n). split; [lia|].
    rewrite !start_indices_app, (start_indices_start e _ St I), Hs, count_up_S,
      <- app_assoc.
    do 3 f_equal. lia.
  - exists n. split; [exact Hi|].
    rewrite start_indices_app,
      (start_indices_other e (message_start_is_not_start e M)), app_nil_r.
    exact Hs.
Qed.

(** *** The scan buffer never carries anything over

    Both exits of the scan loop leave nothing of the buffer behind [pos], so
    the statement that would keep the unscanned rest for the next event
    always takes its [else] branch. *)

Lemma scan_body_break (pos : Z) (h : ClaudeStreamHandler) (events : list SSEEvent) :
  forall pos' h' events', scan_body pos h events = Break pos' h' events' ->
  pos' = pos /\ ThinkBuffer h' = EmptyString.
Proof.
  intros pos' h' events'. unfold scan_body, open_text_block, fire_pending_ping.
  destruct h; cbn. split_ifs; intros [= <- <- <-]; split; reflexivity.
Qed.

Lemma scan_loop_leaves_nothing (fuel : nat) :
  forall pos h events pos' h' events',
    0 <= pos ->
    scan_loop fuel pos h events = Some (pos', h', events') ->
    len (ThinkBuffer h') <= pos'.
Proof.
  induction fuel as [|fuel IH]; intros pos h events pos' h' events' Hpos;
    cbn [scan_loop];
    destruct (Z.ltb_spec pos (len (ThinkBuffer h))); cbn [negb];
    try (intros [= <- <- <-]; lia); try (intros; discriminate).
  destruct (scan_body pos h events) as [p1 h1 e1|p1 h1 e1] eqn:E.
  - apply scan_body_progress in E as [Hp _]; [|lia]. apply IH. lia.
  - apply scan_body_break in E as [-> Hb]. intros [= <- <- <-].
    rewrite Hb. unfold len. cbn. lia.
Qed.

(** *** What a whole run sends *)

Definition is_object (v : JSON) : bool :=
  match v with JObj _ => true | _ => false end.

(** Total length of the text carried by the [text_delta] events. *)
Definition emitted_text_length (out : list SSEEvent) : Z :=
  fold_right Z.add 0 (map len (omap text_delta_of out)).

(** Total length of the fragments carried by the [input_json_delta] events. *)
Definition emitted_tool_input_length (out : list SSEEvent) : Z :=
  fold_right Z.add 0 (map len (omap input_json_delta_of out)).

(** [ceil(total / 4)], floored at 1. *)
Definition ceil_quarter_tokens (total : Z) : Z := Z.max 1 ((total + 3) / 4).

(** [floor(total / 4)], floored at 1. *)
Definition floor_quarter_tokens (total : Z) : Z := Z.max 1 (total / 4).

(** The output-token figure of the last [message_delta]. *)
Definition reported_output_tokens (out : list SSEEvent) : option Z :=
  last (omap output_tokens_of out).

Section RunProperties.

Variable GenerateMessageID : string.
Variable json_Marshal : JSON -> string.

#[local] Abbreviation HandleEvent := (HandleEvent GenerateMessageID json_Marshal).
#[local] Abbreviation feed := (feed GenerateMessageID json_Marshal).
#[local] Abbreviation run := (run GenerateMessageID json_Marshal).

Lemma run_unfold (model : string) (inputTokens : Z) (evs : list Classified) :
  run model inputTokens evs
  = snd (feed (NewClaudeStreamHandler model inputTokens) evs)
    ++ snd (Finish (fst (feed (NewClaudeStreamHandler model inputTokens) evs))).
Proof. unfold Streaming.run. destruct (feed _ evs); reflexivity. Qed.

Lemma run_trace (model : string) (inputTokens : Z) (evs : list Classified) :
  exists c, trace (false, false, -1) [] c (run model inputTokens evs).
Proof.
  rewrite run_unfold. eexists.
  apply Finish_trace.
  apply (feed_trace _ _ _ _ evs [] (NewClaudeStreamHandler model inputTokens)).
  apply trace_here.
Qed.

Lemma feed_app (h : ClaudeStreamHandler) (a b : list Classified) :
  feed h (a ++ b)
  = (fst (feed (fst (feed h a)) b), snd (feed h a) ++ snd (feed (fst (feed h a)) b)).
Proof.
  revert h. induction a as [|[eventType payload] a IH]; intros h; cbn [Streaming.feed app].
  - cbn [fst snd app]. destruct (feed h b); reflexivity.
  - destruct (HandleEvent h eventType payload) as [h1 out1]. rewrite IH.
    destruct (feed h1 a) as [h2 out2]. cbn [fst snd].
    destruct (feed h2 b) as [h3 out3]. cbn [fst snd]. rewrite app_assoc. reflexivity.
Qed.

Lemma feed_one (h : ClaudeStreamHandler) (eventType : string) (payload : JSON) :
  feed h [(eventType, payload)] = HandleEvent h eventType payload.
Proof.
  cbn [Streaming.feed]. destruct (HandleEvent h eventType payload) as [h1 out1].
  rewrite app_nil_r. reflexivity.
Qed.

(** A run cut in two: what the first part sends, then the rest. *)
Lemma run_split (model : string) (inputTokens : Z) (a b : list Classified) :
  let h := fst (feed (NewClaudeStreamHandler model inputTokens) a) in
  run model inputTokens (a ++ b)
  = snd (feed (NewClaudeStreamHandler model inputTokens) a)
    ++ (snd (feed h b) ++ snd (Finish (fst (feed h b)))).
Proof.
  cbv zeta. rewrite run_unfold, feed_app. cbn [fst snd]. rewrite app_assoc. reflexivity.
Qed.

(** What an [initial-response] with an object payload does: it sends
    [message_start] and arms the ping, unless [message_start] was sent. *)
Lemma HandleEvent_initial_response (h : ClaudeStreamHandler) (p : gmap string JSON) :
  core_of (fst (HandleEvent h "initial-response" (JObj p)))
  = (true, if MessageStartSent h then PingPending h else true, ContentBlockIndex h)
  /\ snd (HandleEvent h "initial-response" (JObj p))
     = if MessageStartSent h then []
       else [fst (BuildMessageStart GenerateMessageID (Model h) (InputTokens h))].
Proof.
  destruct h as [mo it rb ix st ss sp ms cv mi tu tb ti tn pr ai th bf pp].
  destruct ms; split; reflexivity.
Qed.

(** The events [pre], fed to a fresh handler, open no content block. *)
Definition opens_no_block (model : string) (inputTokens : Z) (pre : list Classified) : Prop :=
  count_events is_content_block_start
    (snd (feed (NewClaudeStreamHandler model inputTokens) pre)) = 0%nat.

(** Once an [initial-response] was handled with no block opened yet,
    [message_start] is out, the ping is armed, and neither a block start nor
    a ping went out. *)
Lemma initial_response_before_blocks (model : string) (inputTokens : Z)
    (pre : list Classified) (p : gmap string JSON) :
  opens_no_block model inputTokens pre ->
  let r := feed (NewClaudeStreamHandler model inputTokens)
             (pre ++ [("initial-response"%string, JObj p)]) in
  (exists i, core_of (fst r) = (true, true, i))
  /\ count_events is_message_start (snd r) = 1%nat
  /\ count_events is_content_block_start (snd r) = 0%nat
  /\ count_events is_ping (snd r) = 0%nat.
Proof.
  unfold opens_no_block. intros Hs. cbv zeta. rewrite feed_app, feed_one. cbn [fst snd].
  pose proof (feed_trace GenerateMessageID json_Marshal (false, false, -1) [] pre []
                (NewClaudeStreamHandler model inputTokens) (trace_here _ _)) as T.
  cbn [app] in T.
  destruct (feed (NewClaudeStreamHandler model inputTokens) pre) as [h1 out1].
  cbn [fst snd] in *.
  pose proof (trace_message_start_budget _ _ _ _ T) as B.
  destruct (trace_unfired _ _ _ T Hs) as [U P].
  destruct (HandleEvent_initial_response h1 p) as [-> ->].
  unfold core_of, unsent in *. cbn [fst snd] in *.
  rewrite count_events_nil in B.
  destruct (MessageStartSent h1); cbn [unsent fst] in B.
  - rewrite app_nil_r, U. repeat split; try assumption; [eauto|lia].
  - rewrite !count_events_app, !count_events_cons, !count_events_nil, Hs, P.
    change (is_message_start (fst (BuildMessageStart GenerateMessageID (Model h1)
                                     (InputTokens h1)))) with true.
    change (is_content_block_start (fst (BuildMessageStart GenerateMessageID (Model h1)
                                           (InputTokens h1)))) with false.
    change (is_ping (fst (BuildMessageStart GenerateMessageID (Model h1)
                            (InputTokens h1)))) with false.
    repeat split; [eauto|cbv iota; lia].
Qed.

(** A [message_start] in [a], and no [content_block_start] there, puts the
    [message_start] before every block of [a ++ b]. *)
Lemma message_start_precedes_later_blocks (a b : list SSEEvent) :
  (1 <= count_events is_message_start a)%nat ->
  count_events is_content_block_start a = 0%nat ->
  message_start_precedes_blocks (a ++ b).
Proof.
  intros Hm Hs i Hi.
  destruct (first_index_within is_message_start a b Hm) as (j & Hj & Hl).
  exists j. split; [exact Hj|].
  pose proof (first_index_beyond is_content_block_start a b i Hs Hi). lia.
Qed.

(** Whatever the handler was fed before, an [assistantResponseEvent] with
    text leaves the scan buffer empty, and no other call touches it: a
    handler that starts with an empty buffer, as a fresh one does, has an
    empty buffer after every call. *)
Lemma HandleEvent_leaves_ThinkBuffer_empty (h : ClaudeStreamHandler) (eventType : string)
    (payload : JSON) :
  ThinkBuffer h = EmptyString ->
  ThinkBuffer (fst (HandleEvent h eventType payload)) = EmptyString.
Proof.
  intros Hb. unfold Streaming.HandleEvent.
  destruct payload as [| | | | |payloadMap]; try exact Hb.
  assert (forall r : Run, ThinkBuffer (fst r) = EmptyString ->
            ThinkBuffer (fst (on_initial_response GenerateMessageID payloadMap r))
            = EmptyString) as H1.
  { intros [h0 ev0]. unfold on_initial_response. destruct h0; cbn.
    destruct (BuildMessageStart _ _ _). split_ifs; auto. }
  assert (forall r : Run, ThinkBuffer (fst r) = EmptyString ->
            ThinkBuffer (fst (on_assistantResponseEvent payloadMap r))
            = EmptyString) as H2.
  { intros [h0 ev0] H0. unfold on_assistantResponseEvent.
    match goal with
    | |- context [let '(h, events) := ?X in _] =>
        assert (ThinkBuffer (fst X) = EmptyString) as Hx
          by (destruct h0; cbn in *; split_ifs; assumption);
        destruct X as [h1 ev1]
    end.
    cbn [fst] in Hx.
    destruct (String.eqb (get_string payloadMap "content") ""); cbn [negb fst];
      [exact Hx|].
    destruct (scan_loop _ 0 _ ev1) as [[[pos h2] ev2]|] eqn:E.
    - apply scan_loop_leaves_nothing in E; [|lia].
      destruct (Z.ltb_spec pos (len (ThinkBuffer h2))); [lia|].
      destruct h2; reflexivity.
    - destruct (scan_loop_fuel_enough
                  (set_ThinkBuffer
                     (String.append (ThinkBuffer h1) (get_string payloadMap "content")) h1)
                  ev1) as [r Hr].
      rewrite Hr in E. discriminate E. }
  assert (forall r : Run, ThinkBuffer (fst r) = EmptyString ->
            ThinkBuffer (fst (on_toolUseEvent json_Marshal payloadMap r))
            = EmptyString) as H3.
  { intros [h0 ev0]. unfold on_toolUseEvent, fire_pending_ping. destruct h0; cbn.
    split_ifs; auto. }
  assert (forall r : Run, ThinkBuffer (fst r) = EmptyString ->
            ThinkBuffer (fst (on_assistantResponseEnd r)) = EmptyString) as H4.
  { intros [h0 ev0]. unfold on_assistantResponseEnd. destruct h0; cbn.
    split_ifs; auto. }
  cbv zeta.
  destruct (String.eqb eventType "initial-response");
    destruct (String.eqb eventType "assistantResponseEvent");
    destruct (String.eqb eventType "toolUseEvent");
    destruct (String.eqb eventType "assistantResponseEnd");
    auto 10.
Qed.

(** X9.  On every run the indices of the [content_block_start] events are
    [0, 1, 2, ...] in this order. *)
Lemma start_indices_count_from_zero (model : string) (inputTokens : Z)
    (evs : list Classified) :
  exists n, start_indices (run model inputTokens evs) = count_up 0 n.
Proof.
  destruct (run_trace model inputTokens evs) as [c T].
  apply trace_start_indices in T as (n & _ & Hs).
  exists n. exact Hs.
Qed.

(** C10.  A payload that is not a JSON object makes [HandleEvent] a no-op:
    whatever the event type, no event is returned and the handler is left
    exactly as it was. *)
Theorem HandleEvent_non_object_is_noop (h : ClaudeStreamHandler) (eventType : string)
    (payload : JSON) :
  is_object payload = false ->
  HandleEvent h eventType payload = (h, []).
Proof.
  destruct payload; cbn; intros H; try reflexivity. discriminate.
Qed.

(** C6, as amended.  Over a whole run [message_start] is sent at most once;
    and when an [initial-response] event carrying an object payload is
    handled before the first content block is opened, a [message_start]
    stands strictly before the first [content_block_start]. *)
Theorem message_start_once_and_before_first_block
    (model : string) (inputTokens : Z) (evs : list Classified) :
  (count_events is_message_start (run model inputTokens evs) <= 1)%nat
  /\ forall pre p rest,
       evs = pre ++ ("initial-response"%string, JObj p) :: rest ->
       opens_no_block model inputTokens pre ->
       message_start_precedes_blocks (run model inputTokens evs).
Proof.
  split.
  - destruct (run_trace model inputTokens evs) as [c T].
    apply trace_message_start_budget in T.
    rewrite count_events_nil in T. change (unsent (false, false, -1)) with 1%nat in T. lia.
  - intros pre p rest -> Hpre.
    destruct (initial_response_before_blocks model inputTokens pre p Hpre)
      as (_ & Hm & Hs & _).
    change (pre ++ ("initial-response"%string, JObj p) :: rest)
      with (pre ++ [("initial-response"%string, JObj p)] ++ rest).
    rewrite app_assoc, run_split.
    apply message_start_precedes_later_blocks; [|exact Hs].
    apply Nat.eq_le_incl. symmetry. exact Hm.
Qed.

(** C7, as amended.  When an [initial-response] event carrying an object
    payload is handled before the first content block is opened, and at
    least one content block is opened, exactly one [ping] is sent over the
    whole run, and it is the event right after the first
    [content_block_start]. *)
Theorem ping_once_right_after_first_block
    (model : string) (inputTokens : Z) (pre : list Classified) (p : gmap string JSON)
    (rest : list Classified) :
  let out := run model inputTokens (pre ++ ("initial-response"%string, JObj p) :: rest) in
  opens_no_block model inputTokens pre ->
  (1 <= count_events is_content_block_start out)%nat ->
  count_events is_ping out = 1%nat /\ ping_follows_first_block out.
Proof.
  intros out Hpre Hopen.
  destruct (initial_response_before_blocks model inputTokens pre p Hpre)
    as ((i & Hc) & _ & Hs & Hp).
  assert (exists c,
            trace (true, true, i)
              (snd (feed (NewClaudeStreamHandler model inputTokens)
                      (pre ++ [("initial-response"%string, JObj p)]))) c out) as [c T].
  { subst out.
    change (pre ++ ("initial-response"%string, JObj p) :: rest)
      with (pre ++ [("initial-response"%string, JObj p)] ++ rest).
    rewrite app_assoc, run_split.
    set (r := feed (NewClaudeStreamHandler model inputTokens)
                (pre ++ [("initial-response"%string, JObj p)])) in *.
    pose proof (feed_trace GenerateMessageID json_Marshal (true, true, i) (snd r) rest
                  (snd r) (fst r)) as F.
    rewrite Hc in F. specialize (F (trace_here _ _)).
    eexists. rewrite app_assoc. apply Finish_trace. exact F. }
  apply trace_ping_shape in T as [_ Sh]; [|exact Hs|exact Hp].
  unfold ping_shape in Sh. destruct (snd (fst c)).
  - destruct Sh as [Hs' _]. lia.
  - destruct Sh as (before & s & post & E & Hst & H1 & H2 & H3). rewrite E. split.
    + rewrite count_events_app, !count_events_cons, H2, H3, (start_is_not_ping s Hst).
      reflexivity.
    + intros k Hk. rewrite (first_index_skip _ before s _ H1 Hst) in Hk.
      injection Hk as <-. exists BuildPing. split; [|reflexivity].
      rewrite lookup_app_r by lia.
      replace (S (List.length before) - length before)%nat with 1%nat by (cbn; lia).
      reflexivity.
Qed.

Lemma outputTokens_is_floor (h : ClaudeStreamHandler) :
  outputTokens h
  = floor_quarter_tokens (len (strings_Join (ResponseBuffer h) "")
                          + len (strings_Join (AllToolInputs h) "")).
Proof.
  unfold outputTokens, floor_quarter_tokens.
  rewrite Z.quot_div_nonneg by (unfold len; lia).
  destruct (Z.ltb_spec ((len (strings_Join (ResponseBuffer h) "")
                         + len (strings_Join (AllToolInputs h) "")) / 4) 1); lia.
Qed.

Lemma Finish_reports_outputTokens (h : ClaudeStreamHandler) :
  omap output_tokens_of (snd (Finish h)) = [outputTokens h].
Proof.
  unfold Finish.
  destruct (ContentBlockStarted h && negb (ContentBlockStopSent h));
    destruct h; reflexivity.
Qed.

End RunProperties.

(** *** Concrete runs

    The runs below fix the id [GenerateMessageID] would draw; none of them
    carries a tool input that is not a string, so [json.Marshal] is never
    reached and any rendering does for it. *)

Definition sample_id : string := "msg_0123456789abcdef0123456789a".
Definition sample_Marshal (v : JSON) : string := "null".

Definition text_event (content : string) : Classified :=
  ("assistantResponseEvent"%string, obj [ ("content", JStr content) ]).

Definition initial_response : Classified :=
  ("initial-response"%string, JObj ∅).

(** C1.  Two consecutive fragments ["<thi"] and ["nking>"]: the handler
    opens no thinking block; it opens a text block and sends both halves of
    the tag as [text_delta]s of that block. *)
Theorem split_start_tag_is_sent_as_text
    (id : string) (marshal : JSON -> string) (model : string) (inputTokens : Z) :
  let out := run id marshal model inputTokens [text_event "<thi"; text_event "nking>"] in
  count_events (is_block_start_of "thinking") out = 0%nat
  /\ count_events (is_block_start_of "text") out = 1%nat
  /\ omap text_delta_of out = ["<thi"%string; "nking>"%string]
  /\ omap index_of (List.filter (fun e => is_some (text_delta_of e)) out) = [0; 0].
Proof. vm_compute. repeat split; reflexivity. Qed.

(** C2.  One fragment ["<thinking>a</thinking>b"] and then [Finish]: two
    blocks are opened, with indices 0 and 1, and only one is closed; the
    text block that follows the thinking block never gets its
    [content_block_stop]. *)
Theorem text_block_after_thinking_is_left_open
    (id : string) (marshal : JSON -> string) (model : string) (inputTokens : Z) :
  let out := run id marshal model inputTokens [text_event "<thinking>a</thinking>b"] in
  count_events is_content_block_start out = 2%nat
  /\ count_events is_content_block_stop out = 1%nat
  /\ start_indices out = [0; 1]
  /\ omap index_of (List.filter is_content_block_stop out) = [0].
Proof. vm_compute. repeat split; reflexivity. Qed.

(** A tool event: the id and name that open a tool use, an input fragment,
    and the stop flag. *)
Definition tool_event (toolUseId name input : string) (stop : bool) : Classified :=
  ("toolUseEvent"%string,
   obj [ ("toolUseId", JStr toolUseId); ("name", JStr name); ("input", JStr input);
         ("stop", JBool stop) ]).

(** An event of a type the handler does not know. *)
Definition metadata_event : Classified := ("messageMetadataEvent"%string, JObj ∅).

(** C5, as stated, fails, in three ways.  Five characters of text make the
    handler report 1 output token, while the ceiling of 5/4 is 2.  Eight
    characters sent inside a thinking block, and eight characters of input
    of a tool use that no stop event ends, are sent and not counted: the
    handler reports 1 where a quarter of what was sent is 2. *)
Lemma output_tokens_are_not_the_ceiling :
  (let out := run sample_id sample_Marshal "m" 0 [text_event "hello"] in
   emitted_text_length out + emitted_tool_input_length out = 5
   /\ reported_output_tokens out = Some 1
   /\ reported_output_tokens out
      <> Some (ceil_quarter_tokens (emitted_text_length out + emitted_tool_input_length out)))
  /\ (let out := run sample_id sample_Marshal "m" 0
                   [text_event "<thinking>abcdefgh</thinking>"] in
      emitted_text_length out + emitted_tool_input_length out = 8
      /\ reported_output_tokens out = Some 1
      /\ reported_output_tokens out
         <> Some (ceil_quarter_tokens
                    (emitted_text_length out + emitted_tool_input_length out)))
  /\ (let out := run sample_id sample_Marshal "m" 0
                   [tool_event "t1" "search" "abcdefgh" false] in
      emitted_text_length out + emitted_tool_input_length out = 8
      /\ reported_output_tokens out = Some 1
      /\ reported_output_tokens out
         <> Some (ceil_quarter_tokens
                    (emitted_text_length out + emitted_tool_input_length out))).
Proof.
  vm_compute. repeat split; try reflexivity; intros H; discriminate H.
Qed.

(** C6, as stated, fails: with the events in the order text fragment,
    [initial-response], the first [content_block_start] is the first event
    sent and [message_start] comes after it. *)
Lemma message_start_can_follow_a_block :
  let out := run sample_id sample_Marshal "m" 0 [text_event "hi"; initial_response] in
  first_index is_content_block_start out = Some 0%nat
  /\ first_index is_message_start out = Some 2%nat
  /\ ~ message_start_precedes_blocks out.
Proof.
  cbv zeta. repeat split; try (vm_compute; reflexivity).
  intros H. destruct (H 0%nat) as (j & _ & Hj); [vm_compute; reflexivity|]. lia.
Qed.

(** C7, as stated, fails: a run with no [initial-response] opens a block
    and sends no [ping] at all. *)
Lemma no_ping_without_initial_response :
  let out := run sample_id sample_Marshal "m" 0 [text_event "hi"] in
  count_events is_content_block_start out = 1%nat
  /\ count_events is_ping out = 0%nat
  /\ ~ ping_follows_first_block out.
Proof.
  cbv zeta. repeat split; try (vm_compute; reflexivity).
  intros H. destruct (H 0%nat) as (e & He & Hp); [vm_compute; reflexivity|].
  vm_compute in He. injection He as <-. vm_compute in Hp. discriminate Hp.
Qed.

(** An instance of [HandleEvent_non_object_is_noop]: a payload that is a
    JSON string. *)
Lemma HandleEvent_non_object_witness :
  is_object (JStr "hello") = false
  /\ HandleEvent sample_id sample_Marshal (NewClaudeStreamHandler "m" 0)
       "assistantResponseEvent" (JStr "hello")
     = (NewClaudeStreamHandler "m" 0, []).
Proof.
  split; [reflexivity|].
  apply HandleEvent_non_object_is_noop. reflexivity.
Defined.

(** An instance of [message_start_once_and_before_first_block]: an event
    the handler ignores, [initial-response], then a text fragment. *)
Lemma message_start_first_witness :
  let out := run sample_id sample_Marshal "m" 0
               [metadata_event; initial_response; text_event "Hello"] in
  opens_no_block sample_id sample_Marshal "m" 0 [metadata_event]
  /\ (count_events is_message_start out <= 1)%nat
  /\ message_start_precedes_blocks out.
Proof.
  cbv zeta.
  assert (opens_no_block sample_id sample_Marshal "m" 0 [metadata_event]) as Hpre
    by (vm_compute; reflexivity).
  destruct (message_start_once_and_before_first_block
              sample_id sample_Marshal "m" 0
              [metadata_event; initial_response; text_event "Hello"])
    as [H1 H2].
  split; [exact Hpre|]. split; [exact H1|].
  apply (H2 [metadata_event] ∅ [text_event "Hello"]); [reflexivity|exact Hpre].
Defined.

(** An instance of [ping_once_right_after_first_block]: an event the
    handler ignores, [initial-response], then a text fragment. *)
Lemma ping_after_first_block_witness :
  let out := run sample_id sample_Marshal "m" 0
               [metadata_event; initial_response; text_event "Hello"] in
  opens_no_block sample_id sample_Marshal "m" 0 [metadata_event]
  /\ (1 <= count_events is_content_block_start out)%nat
  /\ count_events is_ping out = 1%nat
  /\ ping_follows_first_block out.
Proof.
  cbv zeta.
  assert (opens_no_block sample_id sample_Marshal "m" 0 [metadata_event]) as Hpre
    by (vm_compute; reflexivity).
  assert (1 <= count_events is_content_block_start
                 (run sample_id sample_Marshal "m" 0
                    [metadata_event; initial_response; text_event "Hello"]))%nat
    as H by (vm_compute; lia).
  split; [exact Hpre|]. split; [exact H|].
  apply (ping_once_right_after_first_block sample_id sample_Marshal "m" 0
           [metadata_event] ∅ [text_event "Hello"]); [exact Hpre|exact H].
Defined.

(** ** Further properties of the stream handler *)

(** *** Deltas and stops refer to opened blocks

    [indexed i ev]: the events [ev] can have been sent with
    [ContentBlockIndex] now at [i].  A [content_block_start] carries the
    next index and a block that is an object; a [content_block_delta] or
    [content_block_stop] carries the current index, which is then at least
    0, and a delta has a [delta] object; the only other events are
    [message_start] and [ping]. *)

Definition is_block_event (e : SSEEvent) : bool :=
  String.eqb (Event e) "content_block_delta" || is_content_block_stop e.

Definition is_message_delta (e : SSEEvent) : bool := String.eqb (Event e) "message_delta".
Definition is_message_stop (e : SSEEvent) : bool := String.eqb (Event e) "message_stop".

(** The payload is an object whose [type] field is the event name. *)
Definition typed (e : SSEEvent) : bool := is_str (data_field e "type") (Event e).

Inductive indexed : Z -> list SSEEvent -> Prop :=
| indexed_nil : indexed (-1) []
| indexed_envelope i ev e :
    indexed i ev -> is_message_start e || is_ping e = true -> typed e = true ->
    indexed i (ev ++ [e])
| indexed_block i ev e :
    indexed i ev -> 0 <= i -> is_block_event e = true -> typed e = true ->
    index_of e = Some i ->
    is_content_block_stop e || is_object (data_field e "delta") = true ->
    indexed i (ev ++ [e])
| indexed_open i ev e :
    indexed i ev -> is_content_block_start e = true -> typed e = true ->
    index_of e = Some (i + 1) ->
    is_object (data_field e "content_block") = true ->
    indexed (i + 1) (ev ++ [e]).

(** Every flag that lets the handler send a delta or a stop is raised only
    together with [h.ContentBlockIndex++]. *)
Definition sound (h : ClaudeStreamHandler) : Prop :=
  -1 <= ContentBlockIndex h
  /\ (ContentBlockStartSent h = true -> 0 <= ContentBlockIndex h)
  /\ (ContentBlockStarted h = true -> 0 <= ContentBlockIndex h)
  /\ (InThinkBlock h = true -> 0 <= ContentBlockIndex h)
  /\ (is_some (CurrentToolUse h) = true -> 0 <= ContentBlockIndex h).

Definition keeps_indexed (F : Run -> Run) : Prop :=
  forall pre h ev,
    indexed (ContentBlockIndex h) (pre ++ ev) -> sound h ->
    indexed (ContentBlockIndex (fst (F (h, ev)))) (pre ++ snd (F (h, ev)))
    /\ sound (fst (F (h, ev))).

Ltac side :=
  first [ lia | assumption | reflexivity | solve [auto] | (intros; discriminate) ].

Ltac ipeel :=
  repeat first
    [ assumption
    | eapply indexed_block;
        [ | side | reflexivity | reflexivity | reflexivity | reflexivity ]
    | eapply indexed_open; [ | reflexivity | reflexivity | reflexivity | reflexivity ]
    | eapply indexed_envelope; [ | reflexivity | reflexivity ] ].

Ltac open_sound :=
  match goal with
  | H : sound _ |- _ => unfold sound in H; cbn in H; destruct H as (? & ? & ? & ? & ?)
  end.

Ltac by_index :=
  split_ifs;
  repeat match goal with
         | H : _ && _ = true |- _ => apply andb_prop in H as [? ?]
         end;
  rewrite ?app_assoc; (split; [ipeel | unfold sound; cbn; repeat split; side]).

Lemma keeps_indexed_id : keeps_indexed (fun r => r).
Proof. intros pre h ev H S. split; assumption. Qed.

Lemma keeps_indexed_compose (F G : Run -> Run) :
  keeps_indexed F -> keeps_indexed G -> keeps_indexed (fun r => G (F r)).
Proof.
  intros HF HG pre h ev H S. cbn beta.
  destruct (HF pre h ev H S) as [H1 S1].
  destruct (F (h, ev)) as [h1 ev1]. cbn [fst snd] in *.
  apply HG; assumption.
Qed.

Lemma keeps_indexed_if (b : bool) (F : Run -> Run) :
  keeps_indexed F -> keeps_indexed (fun r => if b then F r else r).
Proof. intros HF. destruct b; [exact HF|apply keeps_indexed_id]. Qed.

Lemma scan_body_indexed (pre : list SSEEvent) (pos : Z) (h : ClaudeStreamHandler)
    (ev : list SSEEvent) :
  indexed (ContentBlockIndex h) (pre ++ ev) -> sound h ->
  match scan_body pos h ev with
  | Continue _ h' ev' | Break _ h' ev' =>
      indexed (ContentBlockIndex h') (pre ++ ev') /\ sound h'
  end.
Proof.
  intros H S. unfold scan_body, open_text_block, fire_pending_ping in *.
  destruct h; cbn in H. open_sound. cbn. by_index.
Qed.

Lemma scan_loop_indexed (pre : list SSEEvent) (fuel : nat) :
  forall pos h ev pos' h' ev',
    indexed (ContentBlockIndex h) (pre ++ ev) -> sound h ->
    scan_loop fuel pos h ev = Some (pos', h', ev') ->
    indexed (ContentBlockIndex h') (pre ++ ev') /\ sound h'.
Proof.
  induction fuel as [|fuel IH]; intros pos h ev pos' h' ev' H S; cbn [scan_loop];
    destruct (negb (pos <? len (ThinkBuffer h)));
    try (intros [= <- <- <-]; split; assumption);
    try (intros; discriminate).
  pose proof (scan_body_indexed pre pos h ev H S) as B.
  destruct (scan_body pos h ev) as [p1 h1 ev1|p1 h1 ev1].
  - destruct B as [B1 B2]. apply IH; assumption.
  - intros [= <- <- <-]. exact B.
Qed.

Lemma set_ThinkBuffer_indexed (v : string) (h : ClaudeStreamHandler) :
  ContentBlockIndex (set_ThinkBuffer v h) = ContentBlockIndex h
  /\ (sound h -> sound (set_ThinkBuffer v h)).
Proof. destruct h; split; [reflexivity|exact (fun S => S)]. Qed.
Lemma before_last_two {A : Type} (body pre post : list A) (a b e : A) :
  body ++ [a; b] = pre ++ e :: post -> e <> a -> e <> b ->
  exists rest, body = pre ++ e :: rest.
Proof.
  revert body. induction pre as [|p pre IH]; intros body E Ha Hb.
  - destruct body as [|x body]; cbn in E.
    + injection E as -> _. congruence.
    + injection E as -> _. exists body. reflexivity.
  - destruct body as [|x body]; cbn in E.
    + injection E as _ E. destruct pre as [|q pre]; cbn in E.
      * injection E as -> _. congruence.
      * injection E as _ E. destruct pre; discriminate E.
    + injection E as -> E. destruct (IH body E Ha Hb) as [rest ->].
      exists rest. reflexivity.
Qed.

Lemma indexed_prefix (a b : list SSEEvent) :
  forall i, indexed i (a ++ b) -> exists j, indexed j a.
Proof.
  induction b as [|x b IH] using rev_ind; intros i H.
  - rewrite app_nil_r in H. eauto.
  - rewrite app_assoc in H.
    remember ((a ++ b) ++ [x]) as l eqn:E.
    destruct H as [|j ev e H1 _ _|j ev e H1 _ _ _ _ _|j ev e H1 _ _ _ _];
      try (apply app_inj_tail in E as [-> _]; eauto).
    destruct (a ++ b); discriminate E.
Qed.

Lemma envelope_is_not_start (e : SSEEvent) :
  is_message_start e || is_ping e = true -> is_content_block_start e = false.
Proof.
  unfold is_message_start, is_ping, is_content_block_start.
  destruct (String.eqb_spec (Event e) "message_start") as [->|_]; [reflexivity|].
  destruct (String.eqb_spec (Event e) "ping") as [->|_]; [reflexivity|].
  intros; discriminate.
Qed.

Lemma block_event_kind (e : SSEEvent) :
  is_block_event e = true ->
  is_content_block_start e = false /\ is_message_start e = false /\ is_ping e = false
  /\ is_message_delta e = false /\ is_message_stop e = false.
Proof.
  unfold is_block_event, is_content_block_stop, is_message_start, is_ping,
    is_content_block_start, is_message_delta, is_message_stop.
  destruct (String.eqb_spec (Event e) "content_block_delta") as [->|_];
    [repeat split; reflexivity|].
  destruct (String.eqb_spec (Event e) "content_block_stop") as [->|_];
    [repeat split; reflexivity|].
  intros; discriminate.
Qed.

(** The starts behind index [i] are those of the blocks [0 .. i]. *)
Lemma indexed_start_indices (i : Z) (ev : list SSEEvent) :
  indexed i ev -> -1 <= i /\ start_indices ev = count_up 0 (Z.to_nat (i + 1)).
Proof.
  induction 1 as [|i ev e _ [Hi Hs] E _|i ev e _ [Hi Hs] _ B _ _ _|i ev e _ [Hi Hs] St _ I _].
  - split; [lia|reflexivity].
  - split; [exact Hi|].
    rewrite start_indices_app, (start_indices_other e (envelope_is_not_start e E)),
      app_nil_r. exact Hs.
  - split; [exact Hi|]. apply block_event_kind in B as (B & _).
    rewrite start_indices_app, (start_indices_other e B), app_nil_r. exact Hs.
  - split; [lia|].
    rewrite start_indices_app, (start_indices_start e _ St I), Hs.
    replace (Z.to_nat (i + 1 + 1)) with (S (Z.to_nat (i + 1))) by lia.
    rewrite count_up_S. do 2 f_equal. lia.
Qed.

(** Nothing behind [indexed] is a [message_delta] or a [message_stop]. *)
Lemma indexed_not_closing (i : Z) (ev : list SSEEvent) :
  indexed i ev ->
  count_events is_message_delta ev = 0%nat /\ count_events is_message_stop ev = 0%nat.
Proof.
  assert (forall e, is_content_block_start e = true ->
                    is_message_delta e = false /\ is_message_stop e = false) as St.
  { intros e. unfold is_content_block_start, is_message_delta, is_message_stop.
    intros H. apply String.eqb_eq in H. rewrite H. split; reflexivity. }
  assert (forall e, is_message_start e || is_ping e = true ->
                    is_message_delta e = false /\ is_message_stop e = false) as En.
  { intros e. unfold is_message_start, is_ping, is_message_delta, is_message_stop.
    destruct (String.eqb_spec (Event e) "message_start") as [->|_];
      [split; reflexivity|].
    destruct (String.eqb_spec (Event e) "ping") as [->|_]; [split; reflexivity|].
    intros; discriminate. }
  induction 1 as [|i ev e _ [H1 H2] E _|i ev e _ [H1 H2] _ B _ _ _|i ev e _ [H1 H2] S _ _ _];
    rewrite ?count_events_app, ?count_events_cons, ?count_events_nil.
  - split; reflexivity.
  - apply En in E as [-> ->]. rewrite H1, H2. split; reflexivity.
  - apply block_event_kind in B as (_ & _ & _ & -> & ->). rewrite H1, H2.
    split; reflexivity.
  - apply St in S as [-> ->]. rewrite H1, H2. split; reflexivity.
Qed.

(** One while the ping is armed, zero otherwise. *)
Definition armed (c : Core) : nat := if snd (fst c) then 1 else 0.

(** The ping is armed by [message_start] and by nothing else, and fires
    once. *)
Lemma trace_ping_budget (i0 : Z) (c : Core) (ev : list SSEEvent) :
  trace (false, false, i0) [] c ev ->
  (count_events is_ping ev + armed c = count_events is_message_start ev)%nat
  /\ (fst (fst c) = false -> snd (fst c) = false).
Proof.
  assert (forall e, is_message_start e = true -> is_ping e = false) as Mp.
  { intros e. unfold is_message_start, is_ping. intros H.
    apply String.eqb_eq in H. rewrite H. reflexivity. }
  induction 1 as [|c ev e _ [IH Hf] N|ms i ev e _ [IH Hf] S I|ms i ev e _ [IH Hf] S I
                 |pp i ev e _ [IH Hf] M];
    rewrite ?count_events_app, ?count_events_cons, ?count_events_nil;
    cbn [fst snd] in *.
  - split; [reflexivity|auto].
  - apply neutral_inv in N as (-> & _ & ->). split; [|exact Hf].
    rewrite <- IH. cbv iota. lia.
  - rewrite (start_is_not_message_start e S), (start_is_not_ping e S).
    change (is_message_start BuildPing) with false.
    change (is_ping BuildPing) with true.
    change (armed (ms, true, i)) with 1%nat in IH.
    change (armed (ms, false, i + 1)) with 0%nat.
    split; [|reflexivity]. rewrite <- IH. cbv iota. lia.
  - rewrite (start_is_not_message_start e S), (start_is_not_ping e S).
    change (armed (ms, false, i + 1)) with (armed (ms, false, i)).
    split; [|reflexivity]. rewrite <- IH. cbv iota. lia.
  - rewrite M, (Mp e M). specialize (Hf eq_refl). subst pp.
    change (armed (false, false, i)) with 0%nat in IH.
    change (armed (true, true, i)) with 1%nat.
    split; [|intros; discriminate]. rewrite <- IH. cbv iota. lia.
Qed.

Section RunInvariants.

Variable GenerateMessageID : string.
Variable json_Marshal : JSON -> string.

#[local] Abbreviation HandleEvent := (HandleEvent GenerateMessageID json_Marshal).
#[local] Abbreviation feed := (feed GenerateMessageID json_Marshal).
#[local] Abbreviation run := (run GenerateMessageID json_Marshal).

Lemma on_initial_response_indexed (payloadMap : gmap string JSON) :
  keeps_indexed (on_initial_response GenerateMessageID payloadMap).
Proof.
  intros pre h ev H S. unfold on_initial_response in *.
  pose proof (BuildMessageStart_is_message_start
                GenerateMessageID (Model h) (InputTokens h)) as M.
  assert (typed (fst (BuildMessageStart GenerateMessageID (Model h) (InputTokens h)))
          = true) as T by reflexivity.
  destruct h; cbn in H, M, T. open_sound. cbn.
  destruct (BuildMessageStart _ _ _) as [e mid]. cbn in M, T.
  split_ifs; rewrite ?app_assoc;
    (split; [|unfold sound; cbn; repeat split; side]); try assumption.
  all: eapply indexed_envelope; [eassumption| |exact T]; rewrite M; reflexivity.
Qed.

Lemma on_assistantResponseEvent_indexed (payloadMap : gmap string JSON) :
  keeps_indexed (on_assistantResponseEvent payloadMap).
Proof.
  intros pre h ev H S. unfold on_assistantResponseEvent.
  set (content := get_string payloadMap "content"). clearbody content.
  match goal with
  | |- context [let '(h, events) := ?X in _] =>
      assert (indexed (ContentBlockIndex (fst X)) (pre ++ snd X) /\ sound (fst X)) as H1;
      [|destruct X as [h1 ev1]]
  end.
  { destruct h; cbn in H. open_sound. cbn. by_index. }
  cbn [fst snd] in H1. destruct H1 as [H1 S1].
  destruct (String.eqb content ""); cbn [negb fst snd]; [split; assumption|].
  destruct (set_ThinkBuffer_indexed (String.append (ThinkBuffer h1) content) h1) as [Ei Es].
  rewrite <- Ei in H1. apply Es in S1.
  destruct (scan_loop _ 0 _ ev1) as [[[pos h2] ev2]|] eqn:E; cbn [fst snd];
    [|split; assumption].
  eapply scan_loop_indexed in E as [H2 S2]; [|exact H1|exact S1].
  destruct (pos <? len (ThinkBuffer h2));
    match goal with
    | |- context [set_ThinkBuffer ?v h2] =>
        destruct (set_ThinkBuffer_indexed v h2) as [-> Es2]
    end; split; auto.
Qed.

Lemma on_toolUseEvent_indexed (payloadMap : gmap string JSON) :
  keeps_indexed (on_toolUseEvent json_Marshal payloadMap).
Proof.
  intros pre h ev H S. unfold on_toolUseEvent, fire_pending_ping in *.
  destruct h; cbn in H. open_sound. cbn. by_index.
Qed.

Lemma on_assistantResponseEnd_indexed : keeps_indexed on_assistantResponseEnd.
Proof.
  intros pre h ev H S. unfold on_assistantResponseEnd in *.
  destruct h; cbn in H. open_sound. cbn. by_index.
Qed.

Lemma HandleEvent_indexed (pre : list SSEEvent) (h : ClaudeStreamHandler)
    (eventType : string) (payload : JSON) :
  indexed (ContentBlockIndex h) pre -> sound h ->
  indexed (ContentBlockIndex (fst (HandleEvent h eventType payload)))
    (pre ++ snd (HandleEvent h eventType payload))
  /\ sound (fst (HandleEvent h eventType payload)).
Proof.
  intros H S. unfold Streaming.HandleEvent.
  destruct payload as [| | | | |payloadMap]; cbn [fst snd]; rewrite ?app_nil_r;
    try (split; assumption).
  pose proof (keeps_indexed_compose _ _
    (keeps_indexed_compose _ _
      (keeps_indexed_compose _ _
        (keeps_indexed_if (String.eqb eventType "initial-response") _
           (on_initial_response_indexed payloadMap))
        (keeps_indexed_if (String.eqb eventType "assistantResponseEvent") _
           (on_assistantResponseEvent_indexed payloadMap)))
      (keeps_indexed_if (String.eqb eventType "toolUseEvent") _
         (on_toolUseEvent_indexed payloadMap)))
    (keeps_indexed_if (String.eqb eventType "assistantResponseEnd") _
       on_assistantResponseEnd_indexed)) as T.
  apply (T pre h []); [rewrite app_nil_r; exact H|exact S].
Qed.

Lemma feed_indexed (evs : list Classified) :
  forall pre h,
    indexed (ContentBlockIndex h) pre -> sound h ->
    indexed (ContentBlockIndex (fst (feed h evs))) (pre ++ snd (feed h evs))
    /\ sound (fst (feed h evs)).
Proof.
  induction evs as [|[eventType payload] evs IH]; intros pre h H S; cbn [Streaming.feed].
  - cbn. rewrite app_nil_r. split; assumption.
  - destruct (HandleEvent_indexed pre h eventType payload H S) as [H1 S1].
    destruct (HandleEvent h eventType payload) as [h1 out1]. cbn [fst snd] in H1, S1.
    specialize (IH _ _ H1 S1).
    destruct (feed h1 evs) as [h2 out2]. cbn [fst snd] in *.
    rewrite app_assoc. exact IH.
Qed.

(** [InputTokens] is set by [NewClaudeStreamHandler] and never assigned
    again. *)
Lemma scan_loop_keeps_InputTokens (fuel : nat) :
  forall pos h ev pos' h' ev',
    scan_loop fuel pos h ev = Some (pos', h', ev') -> InputTokens h' = InputTokens h.
Proof.
  induction fuel as [|fuel IH]; intros pos h ev pos' h' ev'; cbn [scan_loop];
    destruct (negb (pos <? len (ThinkBuffer h)));
    try (intros [= <- <- <-]; reflexivity); try (intros; discriminate).
  assert (match scan_body pos h ev with
          | Continue _ h1 _ | Break _ h1 _ => InputTokens h1 = InputTokens h
          end) as B.
  { unfold scan_body, open_text_block, fire_pending_ping.
    destruct h; cbn. split_ifs; reflexivity. }
  destruct (scan_body pos h ev) as [p1 h1 ev1|p1 h1 ev1].
  - intros E. apply IH in E. congruence.
  - intros [= <- <- <-]. exact B.
Qed.

Lemma HandleEvent_keeps_InputTokens (h : ClaudeStreamHandler) (eventType : string)
    (payload : JSON) :
  InputTokens (fst (HandleEvent h eventType payload)) = InputTokens h.
Proof.
  unfold Streaming.HandleEvent.
  destruct payload as [| | | | |payloadMap]; try reflexivity.
  assert (forall r : Run,
            InputTokens (fst (on_initial_response GenerateMessageID payloadMap r))
            = InputTokens (fst r)) as H1.
  { intros [h0 ev0]. unfold on_initial_response. destruct h0; cbn.
    destruct (BuildMessageStart _ _ _). split_ifs; reflexivity. }
  assert (forall r : Run,
            InputTokens (fst (on_assistantResponseEvent payloadMap r))
            = InputTokens (fst r)) as H2.
  { intros [h0 ev0]. unfold on_assistantResponseEvent.
    match goal with
    | |- context [let '(h, events) := ?X in _] =>
        assert (InputTokens (fst X) = InputTokens h0) as Hx
          by (destruct h0; cbn; split_ifs; reflexivity);
        destruct X as [h1 ev1]
    end.
    cbn [fst] in *.
    destruct (String.eqb (get_string payloadMap "content") ""); cbn [negb fst];
      [exact Hx|].
    destruct (scan_loop _ 0 _ ev1) as [[[pos h2] ev2]|] eqn:E;
      [|rewrite <- Hx; destruct h1; reflexivity].
    apply scan_loop_keeps_InputTokens in E.
    rewrite <- Hx. destruct (pos <? len (ThinkBuffer h2)); destruct h2, h1; exact E. }
  assert (forall r : Run,
            InputTokens (fst (on_toolUseEvent json_Marshal payloadMap r))
            = InputTokens (fst r)) as H3.
  { intros [h0 ev0]. unfold on_toolUseEvent, fire_pending_ping. destruct h0; cbn.
    split_ifs; reflexivity. }
  assert (forall r : Run,
            InputTokens (fst (on_assistantResponseEnd r)) = InputTokens (fst r)) as H4.
  { intros [h0 ev0]. unfold on_assistantResponseEnd. destruct h0; cbn.
    split_ifs; reflexivity. }
  cbv zeta.
  destruct (String.eqb eventType "initial-response");
    destruct (String.eqb eventType "assistantResponseEvent");
    destruct (String.eqb eventType "toolUseEvent");
    destruct (String.eqb eventType "assistantResponseEnd");
    rewrite ?H4, ?H3, ?H2, ?H1; reflexivity.
Qed.

Lemma feed_keeps_InputTokens (evs : list Classified) :
  forall h, InputTokens (fst (feed h evs)) = InputTokens h.
Proof.
  induction evs as [|[eventType payload] evs IH]; intros h; cbn [Streaming.feed].
  - reflexivity.
  - pose proof (HandleEvent_keeps_InputTokens h eventType payload) as H1.
    destruct (HandleEvent h eventType payload) as [h1 out1]. cbn [fst] in H1.
    specialize (IH h1). destruct (feed h1 evs) as [h2 out2]. cbn [fst] in *.
    congruence.
Qed.

Lemma sound_New (model : string) (inputTokens : Z) :
  sound (NewClaudeStreamHandler model inputTokens).
Proof. unfold sound. cbn. repeat split; side. Qed.

(** What [Finish] appends: the stop of the block still open, if any, and
    then the two closing events. *)
Lemma Finish_indexed (pre : list SSEEvent) (h : ClaudeStreamHandler) :
  indexed (ContentBlockIndex h) pre -> sound h ->
  exists body,
    indexed (ContentBlockIndex h) body
    /\ pre ++ snd (Finish h)
       = body ++ BuildMessageStop (InputTokens h) (outputTokens h) None.
Proof.
  intros H S. unfold Finish.
  destruct (ContentBlockStarted h && negb (ContentBlockStopSent h)) eqn:E.
  - exists (pre ++ [BuildContentBlockStop (ContentBlockIndex h)]). split.
    + apply indexed_block; [exact H| |reflexivity..].
      apply andb_prop in E as [E _]. destruct S as (_ & _ & S & _). apply S, E.
    + destruct h; cbn. rewrite <- app_assoc. reflexivity.
  - exists pre. split; [exact H|]. destruct h; reflexivity.
Qed.

Lemma run_indexed (model : string) (inputTokens : Z) (evs : list Classified) :
  exists i body,
    indexed i body
    /\ run model inputTokens evs
       = body ++ BuildMessageStop inputTokens
                   (outputTokens (fst (feed (NewClaudeStreamHandler model inputTokens) evs)))
                   None.
Proof.
  rewrite run_unfold.
  destruct (feed_indexed evs [] (NewClaudeStreamHandler model inputTokens)
              indexed_nil (sound_New model inputTokens)) as [H S].
  cbn [app] in H.
  destruct (Finish_indexed _ _ H S) as (body & Hb & E).
  exists (ContentBlockIndex (fst (feed (NewClaudeStreamHandler model inputTokens) evs))),
    body.
  split; [exact Hb|]. rewrite E, feed_keeps_InputTokens. reflexivity.
Qed.

(** X1.  In the output of every run, each [content_block_delta] and each
    [content_block_stop] carries the index of a block that a
    [content_block_start] earlier in the output has opened. *)
Theorem block_events_refer_to_opened_blocks
    (model : string) (inputTokens : Z) (evs : list Classified)
    (pre : list SSEEvent) (e : SSEEvent) (post : list SSEEvent) :
  run model inputTokens evs = pre ++ e :: post ->
  is_block_event e = true ->
  exists i, index_of e = Some i /\ In i (start_indices pre).
Proof.
  intros E B.
  destruct (run_indexed model inputTokens evs) as (i & body & Hb & Hr).
  assert (exists j, indexed j (pre ++ [e])) as [j Hj].
  { assert (exists a b, BuildMessageStop inputTokens
              (outputTokens (fst (feed (NewClaudeStreamHandler model inputTokens) evs)))
              None = [a; b]
            /\ is_block_event a = false /\ is_block_event b = false)
      as (a & b & Et & Ha & Hb').
    { eexists. eexists. split; [reflexivity|]. split; reflexivity. }
    rewrite Hr, Et in E.
    apply before_last_two in E as [rest ->]; [| congruence | congruence].
    change (pre ++ e :: rest) with (pre ++ [e] ++ rest) in Hb.
    rewrite app_assoc in Hb. apply indexed_prefix in Hb. exact Hb. }
  remember (pre ++ [e]) as l eqn:El.
  destruct Hj as [|k ev e1 H1 En _|k ev e1 H1 Hk _ _ I _|k ev e1 H1 St _ _ _].
  - destruct pre; discriminate El.
  - apply app_inj_tail in El as [-> ->].
    apply block_event_kind in B as (_ & Bm & Bp & _). rewrite Bm, Bp in En. discriminate En.
  - apply app_inj_tail in El as [-> ->]. exists k. split; [exact I|].
    apply indexed_start_indices in H1 as [_ ->].
    unfold count_up. apply in_map_iff. exists (Z.to_nat k). split; [lia|].
    apply in_seq. lia.
  - apply app_inj_tail in El as [-> ->].
    apply block_event_kind in B as (Bs & _). rewrite Bs in St. discriminate St.
Qed.

(** X2.  Every run ends with one [message_delta] followed by one
    [message_stop], and sends neither before: the [message_delta] echoes the
    input-token count, reports at least one output token, and always gives
    [end_turn] as the stop reason, also when the response ends in a tool
    call. *)
Theorem run_closes_with_message_stop
    (model : string) (inputTokens : Z) (evs : list Classified) :
  exists body n,
    run model inputTokens evs = body ++ BuildMessageStop inputTokens n (Some "end_turn"%string)
    /\ 1 <= n
    /\ count_events is_message_delta body = 0%nat
    /\ count_events is_message_stop body = 0%nat.
Proof.
  destruct (run_indexed model inputTokens evs) as (i & body & Hb & Hr).
  exists body, (outputTokens (fst (feed (NewClaudeStreamHandler model inputTokens) evs))).
  split; [exact Hr|]. split.
  - unfold outputTokens.
    match goal with |- context [if ?c <? 1 then _ else _] =>
      destruct (Z.ltb_spec c 1); lia end.
  - apply indexed_not_closing in Hb. exact Hb.
Qed.

(** X3.  The handler carries no unscanned text from one event to the next:
    after any sequence of events fed to a fresh handler the scan buffer is
    empty, so a tag is only ever recognised within a single event. *)
Theorem feed_leaves_ThinkBuffer_empty
    (model : string) (inputTokens : Z) (evs : list Classified) :
  ThinkBuffer (fst (feed (NewClaudeStreamHandler model inputTokens) evs)) = EmptyString.
Proof.
  assert (forall h, ThinkBuffer h = EmptyString ->
                    ThinkBuffer (fst (feed h evs)) = EmptyString) as G.
  { induction evs as [|[eventType payload] evs IH]; intros h Hb; cbn [Streaming.feed].
    - exact Hb.
    - pose proof (HandleEvent_leaves_ThinkBuffer_empty GenerateMessageID json_Marshal
                    h eventType payload Hb) as H1.
      destruct (HandleEvent h eventType payload) as [h1 out1]. cbn [fst] in H1.
      specialize (IH h1 H1). destruct (feed h1 evs) as [h2 out2]. exact IH. }
  apply G. reflexivity.
Qed.

(** X4.  A run sends at most one [ping], and none unless it has sent
    [message_start]. *)
Theorem at_most_one_ping (model : string) (inputTokens : Z) (evs : list Classified) :
  (count_events is_ping (run model inputTokens evs)
   <= count_events is_message_start (run model inputTokens evs) <= 1)%nat.
Proof.
  destruct (run_trace GenerateMessageID json_Marshal model inputTokens evs) as [c T].
  pose proof (trace_ping_budget _ _ _ T) as [P _].
  apply trace_message_start_budget in T.
  rewrite count_events_nil in T. change (unsent (false, false, -1)) with 1%nat in T.
  lia.
Qed.

(** X5.  An event whose type is none of the four the handler knows is
    ignored: nothing is sent and the handler is left as it was. *)
Theorem unknown_event_type_is_ignored (h : ClaudeStreamHandler) (eventType : string)
    (payload : JSON) :
  eventType <> "initial-response"%string ->
  eventType <> "assistantResponseEvent"%string ->
  eventType <> "toolUseEvent"%string ->
  eventType <> "assistantResponseEnd"%string ->
  HandleEvent h eventType payload = (h, []).
Proof.
  intros H1 H2 H3 H4. unfold Streaming.HandleEvent.
  destruct payload; try reflexivity.
  apply String.eqb_neq in H1, H2, H3, H4. rewrite H1, H2, H3, H4. reflexivity.
Qed.

(** X6.  While no tool call is open, a [toolUseEvent] that lacks the tool
    use id or the tool name is dropped whole: its input fragment and its
    stop flag are ignored, nothing is sent and the handler is left as it
    was. *)
Theorem tool_fragment_without_open_tool_is_dropped (h : ClaudeStreamHandler)
    (payloadMap : gmap string JSON) :
  CurrentToolUse h = None ->
  get_string payloadMap "toolUseId" = EmptyString
  \/ get_string payloadMap "name" = EmptyString ->
  HandleEvent h "toolUseEvent" (JObj payloadMap) = (h, []).
Proof.
  intros Ht Hk.
  change (HandleEvent h "toolUseEvent" (JObj payloadMap))
    with (on_toolUseEvent json_Marshal payloadMap (h, [])).
  destruct h; cbn in Ht; subst. unfold on_toolUseEvent. cbn.
  destruct Hk as [-> | ->]; change (String.eqb "" "") with true; cbn;
    rewrite ?andb_false_r; cbn; rewrite ?andb_false_r; reflexivity.
Qed.

End RunInvariants.
Lemma substring_all (s : string) : String.substring 0 (String.length s) s = s.
Proof. induction s as [|a s IH]; cbn; [reflexivity|]. rewrite IH. reflexivity. Qed.

Lemma slice_from_0 (s : string) : slice_from s 0 = s.
Proof.
  unfold slice_from, slice, len. rewrite Z.sub_0_r, Nat2Z.id. apply substring_all.
Qed.

Section Fragments.

Variable GenerateMessageID : string.
Variable json_Marshal : JSON -> string.

#[local] Abbreviation HandleEvent := (HandleEvent GenerateMessageID json_Marshal).
#[local] Abbreviation run := (run GenerateMessageID json_Marshal).

(** X7.  The tag scan of [HandleEvent] always ends, within the passes the
    length of the buffer allows, and it ends with nothing of the buffer left
    to scan. *)
Theorem tag_scan_terminates (h : ClaudeStreamHandler) (events : list SSEEvent) :
  exists pos h' events',
    scan_loop (S (String.length (ThinkBuffer h))) 0 h events = Some (pos, h', events')
    /\ len (ThinkBuffer h') <= pos.
Proof.
  destruct (scan_loop_total (S (String.length (ThinkBuffer h))) 0 h events)
    as [[[pos h'] events'] E]; [lia|unfold len; lia|].
  exists pos, h', events'. split; [exact E|].
  apply scan_loop_leaves_nothing in E; [exact E|lia].
Qed.

(** X8.  A text fragment that does not contain the tag the handler is
    looking for, the start tag outside a thinking block and the end tag
    inside one, is forwarded whole as one [text_delta]; it is recorded in
    [ResponseBuffer], which feeds the token count, only outside a thinking
    block. *)
Theorem untagged_fragment_is_forwarded_verbatim (h : ClaudeStreamHandler)
    (payloadMap : gmap string JSON) (s : string) :
  get_string payloadMap "content" = s ->
  s <> EmptyString ->
  ThinkBuffer h = EmptyString ->
  strings_Index s (if InThinkBlock h then ThinkingEndTag else ThinkingStartTag) = -1 ->
  omap text_delta_of (snd (HandleEvent h "assistantResponseEvent" (JObj payloadMap))) = [s]
  /\ ResponseBuffer (fst (HandleEvent h "assistantResponseEvent" (JObj payloadMap)))
     = (if InThinkBlock h then ResponseBuffer h else ResponseBuffer h ++ [s])
  /\ InThinkBlock (fst (HandleEvent h "assistantResponseEvent" (JObj payloadMap)))
     = InThinkBlock h.
Proof.
  intros Hc Hs Hb Hi.
  change (HandleEvent h "assistantResponseEvent" (JObj payloadMap))
    with (on_assistantResponseEvent payloadMap (h, [])).
  assert ((0 <? len s) = true) as L.
  { apply Z.ltb_lt. unfold len. destruct s; [congruence|cbn; lia]. }
  pose proof (slice_from_0 s) as F.
  unfold on_assistantResponseEvent. rewrite Hc.
  apply String.eqb_neq in Hs.
  destruct h; cbn in Hb, Hi; subst ThinkBuffer0. cbn.
  destruct (is_some CurrentToolUse0 && negb ContentBlockStopSent0); cbn;
    change (String.append "" s) with s; rewrite Hs, L; cbn;
    unfold scan_body, open_text_block, fire_pending_ping; cbn;
    destruct InThinkBlock0; cbn; rewrite F, Hi; cbn;
    split_ifs; repeat split; reflexivity.
Qed.

(** The run for a response that is one plain text fragment. *)
Lemma plain_text_run (model : string) (inputTokens : Z) (p q r : gmap string JSON)
    (s : string) :
  get_string q "content" = s ->
  s <> EmptyString ->
  strings_Index s ThinkingStartTag = -1 ->
  run model inputTokens
    [ ("initial-response"%string, JObj p);
      ("assistantResponseEvent"%string, JObj q);
      ("assistantResponseEnd"%string, JObj r) ]
  = [ fst (BuildMessageStart GenerateMessageID model inputTokens);
      BuildContentBlockStart 0 "text";
      BuildPing;
      BuildContentBlockDelta 0 s;
      BuildContentBlockStop 0 ]
    ++ BuildMessageStop inputTokens (floor_quarter_tokens (len s)) None.
Proof.
  intros Hc Hs Hi.
  assert ((0 <? len s) = true) as L.
  { apply Z.ltb_lt. unfold len. destruct s; [congruence|cbn; lia]. }
  pose proof (slice_from_0 s) as F.
  apply String.eqb_neq in Hs.
  unfold Streaming.run. cbn [Streaming.feed].
  change (HandleEvent (NewClaudeStreamHandler model inputTokens) "initial-response" (JObj p))
    with (on_initial_response GenerateMessageID p
            (NewClaudeStreamHandler model inputTokens, [])).
  unfold on_initial_response, NewClaudeStreamHandler.
  remember (fst (BuildMessageStart GenerateMessageID model inputTokens)) as start eqn:Es.
  assert (BuildMessageStart GenerateMessageID model inputTokens = (start, GenerateMessageID))
    as E by (subst start; reflexivity).
  cbn -[Streaming.HandleEvent Streaming.Finish]. rewrite E.
  cbn -[Streaming.HandleEvent Streaming.Finish].
  match goal with
  | |- context [HandleEvent ?h "assistantResponseEvent" (JObj q)] =>
      change (HandleEvent h "assistantResponseEvent" (JObj q))
        with (on_assistantResponseEvent q (h, []))
  end.
  unfold on_assistantResponseEvent. rewrite Hc.
  cbn -[Streaming.HandleEvent Streaming.Finish].
  change (String.append "" s) with s. rewrite Hs, L.
  cbn -[Streaming.HandleEvent Streaming.Finish].
  unfold scan_body, open_text_block, fire_pending_ping.
  cbn -[Streaming.HandleEvent Streaming.Finish].
  rewrite F, Hi. cbn -[Streaming.HandleEvent Streaming.Finish].
  change (len "") with 0. cbn -[Streaming.HandleEvent Streaming.Finish].
  match goal with
  | |- context [HandleEvent ?h "assistantResponseEnd" (JObj r)] =>
      change (HandleEvent h "assistantResponseEnd" (JObj r))
        with (on_assistantResponseEnd (h, []))
  end.
  unfold on_assistantResponseEnd. cbn -[Streaming.Finish].
  unfold Finish. cbn -[outputTokens].
  match goal with
  | |- context [outputTokens ?h] => rewrite (outputTokens_is_floor h)
  end.
  cbn. change (strings_Join [s] "") with s. change (strings_Join [] "") with EmptyString.
  change (len "") with 0. rewrite Z.add_0_r. reflexivity.
Qed.

End Fragments.

(** *** What the output-token figure counts

    [Finish] divides by four the length of what [HandleEvent] recorded in
    [ResponseBuffer] and in [AllToolInputs].  What is recorded is tied here
    to what was sent: text is recorded when it is sent outside a thinking
    block, and the input of a tool use is recorded when an event with the
    stop flag ends the tool use. *)

Lemma len_nonneg (s : string) : 0 <= len s.
Proof. unfold len. lia. Qed.

Lemma len_of_append (a b : string) : len (String.append a b) = len a + len b.
Proof.
  assert (String.length (String.append a b)
          = (String.length a + String.length b)%nat) as E.
  { induction a as [|x a IH]; [reflexivity|].
    change (S (String.length (String.append a b))
            = S (String.length a + String.length b)).
    f_equal. exact IH. }
  unfold len. rewrite E. lia.
Qed.

(** [len(strings.Join(l, ""))] *)
Definition joined_length (l : list string) : Z := len (strings_Join l "").

Lemma joined_length_cons (p : string) (l : list string) :
  joined_length (p :: l) = len p + joined_length l.
Proof.
  unfold joined_length. destruct l as [|q l].
  - change (len p = len p + len ""). change (len "") with 0. lia.
  - change (strings_Join (p :: q :: l) "")
      with (String.append p (String.append "" (strings_Join (q :: l) ""))).
    rewrite !len_of_append. change (len "") with 0. lia.
Qed.

Lemma joined_length_snoc (l : list string) (s : string) :
  joined_length (l ++ [s]) = joined_length l + len s.
Proof.
  induction l as [|p l IH].
  - change (joined_length [s] = joined_length [] + len s).
    rewrite joined_length_cons. lia.
  - change ((p :: l) ++ [s]) with (p :: (l ++ [s])).
    rewrite !joined_length_cons, IH. lia.
Qed.

Lemma joined_length_one (s : string) : joined_length [s] = len s.
Proof. reflexivity. Qed.

Lemma joined_length_nonneg (l : list string) : 0 <= joined_length l.
Proof. apply len_nonneg. Qed.

(** What one event adds to the two totals. *)
Definition text_weight (e : SSEEvent) : Z :=
  match text_delta_of e with Some s => len s | None => 0 end.

Definition tool_input_weight (e : SSEEvent) : Z :=
  match input_json_delta_of e with Some s => len s | None => 0 end.

Lemma emitted_text_length_app (a b : list SSEEvent) :
  emitted_text_length (a ++ b) = emitted_text_length a + emitted_text_length b.
Proof.
  unfold emitted_text_length. rewrite omap_app, List.map_app.
  induction (map len (omap text_delta_of a)) as [|x l IH]; cbn; lia.
Qed.

Lemma emitted_tool_input_length_app (a b : list SSEEvent) :
  emitted_tool_input_length (a ++ b)
  = emitted_tool_input_length a + emitted_tool_input_length b.
Proof.
  unfold emitted_tool_input_length. rewrite omap_app, List.map_app.
  induction (map len (omap input_json_delta_of a)) as [|x l IH]; cbn; lia.
Qed.

Lemma emitted_text_length_one (e : SSEEvent) : emitted_text_length [e] = text_weight e.
Proof.
  unfold emitted_text_length, text_weight. cbn. destruct (text_delta_of e); cbn; lia.
Qed.

Lemma emitted_tool_input_length_one (e : SSEEvent) :
  emitted_tool_input_length [e] = tool_input_weight e.
Proof.
  unfold emitted_tool_input_length, tool_input_weight. cbn.
  destruct (input_json_delta_of e); cbn; lia.
Qed.

(** The number of thinking blocks opened. *)
Definition thinking_blocks (out : list SSEEvent) : nat :=
  count_events (is_block_start_of "thinking") out.

Lemma thinking_blocks_app (a b : list SSEEvent) :
  thinking_blocks (a ++ b) = (thinking_blocks a + thinking_blocks b)%nat.
Proof. apply count_events_app. Qed.

(** The input sent for the tool use that is open, which is not recorded
    yet. *)
Definition pending_tool_input (h : ClaudeStreamHandler) : Z :=
  if is_some (CurrentToolUse h) then joined_length (ToolInputBuffer h) else 0.

(** [metered h out]: with [out] sent so far, what [h] has recorded never
    exceeds what was sent; and as long as no thinking block was opened, the
    handler is outside a thinking block and the text recorded is all the
    text sent. *)
Definition metered (h : ClaudeStreamHandler) (out : list SSEEvent) : Prop :=
  joined_length (ResponseBuffer h) <= emitted_text_length out
  /\ (thinking_blocks out = 0%nat ->
      InThinkBlock h = false
      /\ joined_length (ResponseBuffer h) = emitted_text_length out)
  /\ joined_length (AllToolInputs h) + pending_tool_input h
     <= emitted_tool_input_length out.

(** [tool_input_kept h out]: every input fragment sent is recorded, or
    belongs to the tool use that is open. *)
Definition tool_input_kept (h : ClaudeStreamHandler) (out : list SSEEvent) : Prop :=
  joined_length (AllToolInputs h) + pending_tool_input h = emitted_tool_input_length out.

Definition keeps_metered (F : Run -> Run) : Prop :=
  forall pre h ev,
    metered h (pre ++ ev) -> metered (fst (F (h, ev))) (pre ++ snd (F (h, ev))).

(** What each event the handler builds adds to the three totals. *)
Lemma weights_of_events :
  (forall i s, text_weight (BuildContentBlockDelta i s) = len s)
  /\ (forall i s, tool_input_weight (BuildToolUseInputDelta i s) = len s)
  /\ (forall i, thinking_blocks [BuildContentBlockStart i "thinking"] = 1%nat)
  /\ (forall i s, tool_input_weight (BuildContentBlockDelta i s) = 0)
  /\ (forall i s, thinking_blocks [BuildContentBlockDelta i s] = 0%nat)
  /\ (forall i s, text_weight (BuildToolUseInputDelta i s) = 0)
  /\ (forall i s, thinking_blocks [BuildToolUseInputDelta i s] = 0%nat)
  /\ (forall i, text_weight (BuildContentBlockStop i) = 0)
  /\ (forall i, tool_input_weight (BuildContentBlockStop i) = 0)
  /\ (forall i, thinking_blocks [BuildContentBlockStop i] = 0%nat)
  /\ text_weight BuildPing = 0
  /\ tool_input_weight BuildPing = 0
  /\ thinking_blocks [BuildPing] = 0%nat
  /\ (forall i ty, text_weight (BuildContentBlockStart i ty) = 0)
  /\ (forall i ty, tool_input_weight (BuildContentBlockStart i ty) = 0)
  /\ (forall i, thinking_blocks [BuildContentBlockStart i "text"] = 0%nat)
  /\ (forall i id name, text_weight (BuildToolUseStart i id name) = 0)
  /\ (forall i id name, tool_input_weight (BuildToolUseStart i id name) = 0)
  /\ (forall i id name, thinking_blocks [BuildToolUseStart i id name] = 0%nat)
  /\ (forall id model n, text_weight (fst (BuildMessageStart id model n)) = 0)
  /\ (forall id model n, tool_input_weight (fst (BuildMessageStart id model n)) = 0)
  /\ (forall id model n, thinking_blocks [fst (BuildMessageStart id model n)] = 0%nat).
Proof. repeat split; reflexivity. Qed.

(** The totals of a list of events built by the handler, as sums. *)
Ltac weigh :=
  rewrite ?app_assoc in *;
  rewrite ?emitted_text_length_app, ?emitted_tool_input_length_app, ?thinking_blocks_app,
    ?emitted_text_length_one, ?emitted_tool_input_length_one, ?joined_length_snoc in *;
  let W := fresh "W" in
  pose proof weights_of_events as W;
  repeat match type of W with
         | _ /\ _ => let E := fresh "E" in destruct W as [E W]; rewrite ?E in *; clear E
         end;
  rewrite ?W in *; clear W;
  repeat match goal with
         | |- context [len (strings_Join ?l "")] =>
             change (len (strings_Join l "")) with (joined_length l)
         end;
  rewrite ?joined_length_snoc, ?joined_length_one;
  change (joined_length []) with 0.

Ltac len_facts :=
  repeat match goal with
         | |- context [len ?s] =>
             lazymatch goal with
             | _ : 0 <= len s |- _ => fail
             | _ => pose proof (len_nonneg s)
             end
         | |- context [joined_length ?l] =>
             lazymatch goal with
             | _ : 0 <= joined_length l |- _ => fail
             | _ => pose proof (joined_length_nonneg l)
             end
         | _ : context [joined_length ?l] |- _ =>
             lazymatch goal with
             | _ : 0 <= joined_length l |- _ => fail
             | _ => pose proof (joined_length_nonneg l)
             end
         end.

(** Closes a goal [metered h' out'] from the three parts of [metered h out]
    once both are written as sums. *)
Ltac by_metering H1 H2 H3 :=
  len_facts;
  split; [lia|split; [|lia]];
  let Hc := fresh "Hc" in
  intros Hc;
  first [ lia
        | destruct H2 as [? ?]; [lia|];
          first [discriminate | split; [first [reflexivity|assumption]|lia]] ].

Lemma keeps_metered_id : keeps_metered (fun r => r).
Proof. intros pre h ev H. exact H. Qed.

Lemma keeps_metered_compose (F G : Run -> Run) :
  keeps_metered F -> keeps_metered G -> keeps_metered (fun r => G (F r)).
Proof.
  intros HF HG pre h ev H. cbn beta.
  specialize (HF pre h ev H). destruct (F (h, ev)) as [h1 ev1]. cbn [fst snd] in *.
  apply HG, HF.
Qed.

Lemma keeps_metered_if (b : bool) (F : Run -> Run) :
  keeps_metered F -> keeps_metered (fun r => if b then F r else r).
Proof. intros HF. destruct b; [exact HF|apply keeps_metered_id]. Qed.

Lemma scan_body_metered (pre : list SSEEvent) (pos : Z) (h : ClaudeStreamHandler)
    (ev : list SSEEvent) :
  metered h (pre ++ ev) ->
  match scan_body pos h ev with
  | Continue _ h' ev' | Break _ h' ev' => metered h' (pre ++ ev')
  end.
Proof.
  unfold metered, pending_tool_input, scan_body, open_text_block, fire_pending_ping.
  destruct h as [mo it rb ix st ss sp ms cv mi tu tb ti tn pr ai th bf pp]; cbn.
  intros (H1 & H2 & H3).
  split_ifs; weigh; by_metering H1 H2 H3.
Qed.

Lemma scan_loop_metered (pre : list SSEEvent) (fuel : nat) :
  forall pos h ev pos' h' ev',
    metered h (pre ++ ev) ->
    scan_loop fuel pos h ev = Some (pos', h', ev') ->
    metered h' (pre ++ ev').
Proof.
  induction fuel as [|fuel IH]; intros pos h ev pos' h' ev' H; cbn [scan_loop];
    destruct (negb (pos <? len (ThinkBuffer h)));
    try (intros [= <- <- <-]; exact H);
    try (intros; discriminate).
  pose proof (scan_body_metered pre pos h ev H) as B.
  destruct (scan_body pos h ev) as [p1 h1 ev1|p1 h1 ev1].
  - apply IH, B.
  - intros [= <- <- <-]. exact B.
Qed.

Lemma metered_set_ThinkBuffer (v : string) (h : ClaudeStreamHandler) (out : list SSEEvent) :
  metered (set_ThinkBuffer v h) out <-> metered h out.
Proof. destruct h; reflexivity. Qed.

Section Metering.

Variable GenerateMessageID : string.
Variable json_Marshal : JSON -> string.

#[local] Abbreviation HandleEvent := (HandleEvent GenerateMessageID json_Marshal).
#[local] Abbreviation feed := (feed GenerateMessageID json_Marshal).
#[local] Abbreviation run := (run GenerateMessageID json_Marshal).

Lemma on_initial_response_metered (payloadMap : gmap string JSON) :
  keeps_metered (on_initial_response GenerateMessageID payloadMap).
Proof.
  intros pre h ev. unfold metered, pending_tool_input, on_initial_response.
  destruct h as [mo it rb ix st ss sp ms cv mi tu tb ti tn pr ai th bf pp]; cbn.
  change (BuildMessageStart GenerateMessageID mo it)
    with (fst (BuildMessageStart GenerateMessageID mo it), GenerateMessageID).
  intros (H1 & H2 & H3).
  split_ifs; weigh; by_metering H1 H2 H3.
Qed.

Lemma on_assistantResponseEvent_metered (payloadMap : gmap string JSON) :
  keeps_metered (on_assistantResponseEvent payloadMap).
Proof.
  intros pre h ev H. unfold on_assistantResponseEvent.
  set (content := get_string payloadMap "content"). clearbody content.
  match goal with
  | |- context [let '(h, events) := ?X in _] =>
      assert (metered (fst X) (pre ++ snd X)) as H1; [|destruct X as [h1 ev1]]
  end.
  { revert H. unfold metered, pending_tool_input.
    destruct h as [mo it rb ix st ss sp ms cv mi tu tb ti tn pr ai th bf pp].
    destruct tu as [tool|]; cbn; intros (H1 & H2 & H3);
      split_ifs; weigh; by_metering H1 H2 H3. }
  cbn [fst snd] in H1.
  destruct (String.eqb content ""); cbn [negb fst snd]; [exact H1|].
  pose proof (proj2 (metered_set_ThinkBuffer (String.append (ThinkBuffer h1) content)
                       h1 (pre ++ ev1)) H1) as H2.
  destruct (scan_loop _ 0 _ ev1) as [[[pos h2] ev2]|] eqn:E; cbn [fst snd];
    [|exact H2].
  eapply scan_loop_metered in E; [|exact H2].
  destruct (pos <? len (ThinkBuffer h2)); apply metered_set_ThinkBuffer; exact E.
Qed.

Lemma on_toolUseEvent_metered (payloadMap : gmap string JSON) :
  keeps_metered (on_toolUseEvent json_Marshal payloadMap).
Proof.
  intros pre h ev. unfold metered, pending_tool_input, on_toolUseEvent, fire_pending_ping.
  destruct h as [mo it rb ix st ss sp ms cv mi tu tb ti tn pr ai th bf pp].
  destruct tu as [tool|]; cbn; intros (H1 & H2 & H3);
    split_ifs; weigh; by_metering H1 H2 H3.
Qed.

Lemma on_assistantResponseEnd_metered : keeps_metered on_assistantResponseEnd.
Proof.
  intros pre h ev. unfold metered, pending_tool_input, on_assistantResponseEnd.
  destruct h as [mo it rb ix st ss sp ms cv mi tu tb ti tn pr ai th bf pp]; cbn.
  intros (H1 & H2 & H3).
  split_ifs; weigh; by_metering H1 H2 H3.
Qed.

Lemma HandleEvent_metered (pre : list SSEEvent) (h : ClaudeStreamHandler)
    (eventType : string) (payload : JSON) :
  metered h pre ->
  metered (fst (HandleEvent h eventType payload))
    (pre ++ snd (HandleEvent h eventType payload)).
Proof.
  intros H. unfold Streaming.HandleEvent.
  destruct payload as [| | | | |payloadMap]; cbn [fst snd]; rewrite ?app_nil_r;
    try exact H.
  pose proof (keeps_metered_compose _ _
    (keeps_metered_compose _ _
      (keeps_metered_compose _ _
        (keeps_metered_if (String.eqb eventType "initial-response") _
           (on_initial_response_metered payloadMap))
        (keeps_metered_if (String.eqb eventType "assistantResponseEvent") _
           (on_assistantResponseEvent_metered payloadMap)))
      (keeps_metered_if (String.eqb eventType "toolUseEvent") _
         (on_toolUseEvent_metered payloadMap)))
    (keeps_metered_if (String.eqb eventType "assistantResponseEnd") _
       on_assistantResponseEnd_metered)) as T.
  apply (T pre h []). rewrite app_nil_r. exact H.
Qed.

Lemma feed_metered (evs : list Classified) :
  forall pre h,
    metered h pre -> metered (fst (feed h evs)) (pre ++ snd (feed h evs)).
Proof.
  induction evs as [|[eventType payload] evs IH]; intros pre h H; cbn [Streaming.feed].
  - cbn. rewrite app_nil_r. exact H.
  - pose proof (HandleEvent_metered pre h eventType payload H) as H1.
    destruct (HandleEvent h eventType payload) as [h1 out1]. cbn [fst snd] in H1.
    specialize (IH _ _ H1).
    destruct (feed h1 evs) as [h2 out2]. cbn [fst snd] in *.
    rewrite app_assoc. exact IH.
Qed.

End Metering.

(** **** Tool inputs that are recorded

    The input of a tool use is recorded when an event with the stop flag
    ends the tool use.  It is lost when a text fragment closes the tool use
    first, or when the run ends with the tool use open. *)

(** The handler takes [ev] for an event of type [eventType]: it has this
    type and its payload is an object. *)
Definition handled_as (eventType : string) (ev : Classified) : bool :=
  String.eqb (fst ev) eventType && is_object (snd ev).

(** The stop flag of the payload. *)
Definition is_stop (ev : Classified) : bool :=
  match snd ev with
  | JObj payloadMap => get_bool payloadMap "stop"
  | _ => false
  end.

(** Every tool use is ended by a stop event: each [toolUseEvent] is
    followed by a [toolUseEvent] carrying the stop flag before the next text
    fragment and before the end of the run.  [pending] tells that the last
    [toolUseEvent] came without the flag. *)
Fixpoint tool_uses_are_stopped (pending : bool) (evs : list Classified) : bool :=
  match evs with
  | [] => negb pending
  | ev :: rest =>
      if handled_as "toolUseEvent" ev
      then tool_uses_are_stopped (negb (is_stop ev)) rest
      else if handled_as "assistantResponseEvent" ev
      then negb pending && tool_uses_are_stopped false rest
      else tool_uses_are_stopped pending rest
  end.

(** A piece of handler code that sends and records no tool input and
    leaves the open tool use alone. *)
Definition keeps_tool_input (F : Run -> Run) : Prop :=
  forall pre h ev,
    tool_input_kept h (pre ++ ev) ->
    tool_input_kept (fst (F (h, ev))) (pre ++ snd (F (h, ev)))
    /\ CurrentToolUse (fst (F (h, ev))) = CurrentToolUse h.

Ltac by_tool_input :=
  split_ifs; weigh; len_facts; (split; [lia|reflexivity]).

Lemma keeps_tool_input_id : keeps_tool_input (fun r => r).
Proof. intros pre h ev H. split; [exact H|reflexivity]. Qed.

Lemma keeps_tool_input_compose (F G : Run -> Run) :
  keeps_tool_input F -> keeps_tool_input G -> keeps_tool_input (fun r => G (F r)).
Proof.
  intros HF HG pre h ev H. cbn beta.
  destruct (HF pre h ev H) as [H1 E1]. destruct (F (h, ev)) as [h1 ev1].
  cbn [fst snd] in *. destruct (HG pre h1 ev1 H1) as [H2 E2].
  split; [exact H2|congruence].
Qed.

Lemma keeps_tool_input_if (b : bool) (F : Run -> Run) :
  keeps_tool_input F -> keeps_tool_input (fun r => if b then F r else r).
Proof. intros HF. destruct b; [exact HF|apply keeps_tool_input_id]. Qed.

Lemma scan_body_tool_input (pre : list SSEEvent) (pos : Z) (h : ClaudeStreamHandler)
    (ev : list SSEEvent) :
  tool_input_kept h (pre ++ ev) ->
  match scan_body pos h ev with
  | Continue _ h' ev' | Break _ h' ev' =>
      tool_input_kept h' (pre ++ ev') /\ CurrentToolUse h' = CurrentToolUse h
  end.
Proof.
  unfold tool_input_kept, pending_tool_input, scan_body, open_text_block,
    fire_pending_ping.
  destruct h as [mo it rb ix st ss sp ms cv mi tu tb ti tn pr ai th bf pp].
  destruct tu as [tool|]; cbn; intros H; by_tool_input.
Qed.

Lemma scan_loop_tool_input (pre : list SSEEvent) (fuel : nat) :
  forall pos h ev pos' h' ev',
    tool_input_kept h (pre ++ ev) ->
    scan_loop fuel pos h ev = Some (pos', h', ev') ->
    tool_input_kept h' (pre ++ ev') /\ CurrentToolUse h' = CurrentToolUse h.
Proof.
  induction fuel as [|fuel IH]; intros pos h ev pos' h' ev' H; cbn [scan_loop];
    destruct (negb (pos <? len (ThinkBuffer h)));
    try (intros [= <- <- <-]; split; [exact H|reflexivity]);
    try (intros; discriminate).
  pose proof (scan_body_tool_input pre pos h ev H) as B.
  destruct (scan_body pos h ev) as [p1 h1 ev1|p1 h1 ev1]; destruct B as [B1 B2].
  - intros E. destruct (IH _ _ _ _ _ _ B1 E) as [I1 I2]. split; [exact I1|congruence].
  - intros [= <- <- <-]. split; assumption.
Qed.

Lemma tool_input_kept_set_ThinkBuffer (v : string) (h : ClaudeStreamHandler)
    (out : list SSEEvent) :
  (tool_input_kept (set_ThinkBuffer v h) out <-> tool_input_kept h out)
  /\ CurrentToolUse (set_ThinkBuffer v h) = CurrentToolUse h.
Proof. destruct h; split; reflexivity. Qed.

Section ToolInputs.

Variable GenerateMessageID : string.
Variable json_Marshal : JSON -> string.

#[local] Abbreviation HandleEvent := (HandleEvent GenerateMessageID json_Marshal).
#[local] Abbreviation feed := (feed GenerateMessageID json_Marshal).
#[local] Abbreviation run := (run GenerateMessageID json_Marshal).

Lemma on_initial_response_tool_input (payloadMap : gmap string JSON) :
  keeps_tool_input (on_initial_response GenerateMessageID payloadMap).
Proof.
  intros pre h ev. unfold tool_input_kept, pending_tool_input, on_initial_response.
  destruct h as [mo it rb ix st ss sp ms cv mi tu tb ti tn pr ai th bf pp].
  destruct tu as [tool|]; cbn;
    change (BuildMessageStart GenerateMessageID mo it)
      with (fst (BuildMessageStart GenerateMessageID mo it), GenerateMessageID);
    intros H; by_tool_input.
Qed.

Lemma on_assistantResponseEnd_tool_input : keeps_tool_input on_assistantResponseEnd.
Proof.
  intros pre h ev. unfold tool_input_kept, pending_tool_input, on_assistantResponseEnd.
  destruct h as [mo it rb ix st ss sp ms cv mi tu tb ti tn pr ai th bf pp].
  destruct tu as [tool|]; cbn; intros H; by_tool_input.
Qed.

(** A text fragment that finds no tool use open loses no tool input. *)
Lemma on_assistantResponseEvent_tool_input (payloadMap : gmap string JSON)
    (pre : list SSEEvent) (h : ClaudeStreamHandler) (ev : list SSEEvent) :
  CurrentToolUse h = None ->
  tool_input_kept h (pre ++ ev) ->
  tool_input_kept (fst (on_assistantResponseEvent payloadMap (h, ev)))
    (pre ++ snd (on_assistantResponseEvent payloadMap (h, ev)))
  /\ CurrentToolUse (fst (on_assistantResponseEvent payloadMap (h, ev))) = None.
Proof.
  intros Hn H. unfold on_assistantResponseEvent.
  set (content := get_string payloadMap "content"). clearbody content.
  rewrite Hn. cbn [is_some andb].
  destruct (String.eqb content ""); cbn [negb fst snd]; [split; assumption|].
  destruct (tool_input_kept_set_ThinkBuffer (String.append (ThinkBuffer h) content) h
              (pre ++ ev)) as [K1 K2].
  apply K1 in H. rewrite <- K2 in Hn.
  destruct (scan_loop _ 0 _ ev) as [[[pos h2] ev2]|] eqn:E; cbn [fst snd];
    [|split; assumption].
  eapply scan_loop_tool_input in E as [E1 E2]; [|exact H].
  rewrite Hn in E2.
  destruct (pos <? len (ThinkBuffer h2));
    match goal with
    | |- context [set_ThinkBuffer ?v h2] =>
        destruct (tool_input_kept_set_ThinkBuffer v h2 (pre ++ ev2)) as [L1 L2]
    end; (split; [apply L1, E1|congruence]).
Qed.

(** A tool event loses no tool input, and one that carries the stop flag
    leaves no tool use open. *)
Lemma on_toolUseEvent_tool_input (payloadMap : gmap string JSON)
    (pre : list SSEEvent) (h : ClaudeStreamHandler) (ev : list SSEEvent) :
  tool_input_kept h (pre ++ ev) ->
  tool_input_kept (fst (on_toolUseEvent json_Marshal payloadMap (h, ev)))
    (pre ++ snd (on_toolUseEvent json_Marshal payloadMap (h, ev)))
  /\ (get_bool payloadMap "stop" = true ->
      CurrentToolUse (fst (on_toolUseEvent json_Marshal payloadMap (h, ev))) = None).
Proof.
  unfold tool_input_kept, pending_tool_input, on_toolUseEvent, fire_pending_ping.
  destruct h as [mo it rb ix st ss sp ms cv mi tu tb ti tn pr ai th bf pp].
  destruct (get_bool payloadMap "stop"); destruct tu as [tool|]; cbn; intros H;
    split_ifs; weigh; len_facts; (split; [lia|intros; first [reflexivity|discriminate]]).
Qed.

(** One event of a run in which every tool use is ended by a stop event. *)
Lemma HandleEvent_tool_input (pending : bool) (pre : list SSEEvent)
    (h : ClaudeStreamHandler) (ev : Classified) :
  tool_input_kept h pre ->
  (is_some (CurrentToolUse h) = true -> pending = true) ->
  (handled_as "assistantResponseEvent" ev = true -> pending = false) ->
  let pending' :=
    if handled_as "toolUseEvent" ev then negb (is_stop ev)
    else if handled_as "assistantResponseEvent" ev then false
    else pending in
  tool_input_kept (fst (HandleEvent h (fst ev) (snd ev)))
    (pre ++ snd (HandleEvent h (fst ev) (snd ev)))
  /\ (is_some (CurrentToolUse (fst (HandleEvent h (fst ev) (snd ev)))) = true ->
      pending' = true).
Proof.
  destruct ev as [eventType payload]. unfold handled_as, is_stop. cbn [fst snd].
  intros H Hp Ha.
  destruct payload as [| | | | |payloadMap];
    try (cbn; rewrite !andb_false_r, app_nil_r; split; assumption).
  cbn [is_object]. rewrite !andb_true_r in *.
  destruct (String.eqb_spec eventType "toolUseEvent") as [->|N1].
  { change (HandleEvent h "toolUseEvent" (JObj payloadMap))
      with (on_toolUseEvent json_Marshal payloadMap (h, [])).
    destruct (on_toolUseEvent_tool_input payloadMap pre h []) as [K1 K2];
      [rewrite app_nil_r; exact H|].
    split; [exact K1|]. cbv zeta.
    destruct (get_bool payloadMap "stop"); [|reflexivity].
    rewrite (K2 eq_refl). intros; discriminate. }
  destruct (String.eqb_spec eventType "assistantResponseEvent") as [->|N2].
  { change (HandleEvent h "assistantResponseEvent" (JObj payloadMap))
      with (on_assistantResponseEvent payloadMap (h, [])).
    assert (CurrentToolUse h = None) as Hn.
    { specialize (Ha eq_refl). subst pending.
      destruct (CurrentToolUse h); [discriminate (Hp eq_refl)|reflexivity]. }
    destruct (on_assistantResponseEvent_tool_input payloadMap pre h [] Hn) as [K1 K2];
      [rewrite app_nil_r; exact H|].
    split; [exact K1|]. rewrite K2. intros; discriminate. }
  cbv zeta.
  apply String.eqb_neq in N1, N2.
  pose proof (keeps_tool_input_compose _ _
    (keeps_tool_input_if (String.eqb eventType "initial-response") _
       (on_initial_response_tool_input payloadMap))
    (keeps_tool_input_if (String.eqb eventType "assistantResponseEnd") _
       on_assistantResponseEnd_tool_input)) as T.
  specialize (T pre h []). rewrite app_nil_r in T. destruct (T H) as [T1 T2].
  unfold Streaming.HandleEvent. rewrite N1, N2. cbn beta in T1, T2.
  split; [exact T1|]. rewrite T2. exact Hp.
Qed.

Lemma feed_tool_input (evs : list Classified) :
  forall pending pre h,
    tool_input_kept h pre ->
    (is_some (CurrentToolUse h) = true -> pending = true) ->
    tool_uses_are_stopped pending evs = true ->
    tool_input_kept (fst (feed h evs)) (pre ++ snd (feed h evs))
    /\ CurrentToolUse (fst (feed h evs)) = None.
Proof.
  induction evs as [|ev evs IH]; intros pending pre h H Hp Hs.
  - cbn [tool_uses_are_stopped] in Hs. apply negb_true_iff in Hs. subst pending.
    cbn [Streaming.feed fst snd]. rewrite app_nil_r. split; [exact H|].
    destruct (CurrentToolUse h); [discriminate (Hp eq_refl)|reflexivity].
  - cbn [tool_uses_are_stopped] in Hs.
    assert (handled_as "assistantResponseEvent" ev = true -> pending = false) as Ha.
    { intros E. rewrite E in Hs.
      destruct (handled_as "toolUseEvent" ev) eqn:Et.
      - unfold handled_as in E, Et.
        apply andb_prop in E as [E _]. apply andb_prop in Et as [Et _].
        apply String.eqb_eq in E, Et. rewrite E in Et. discriminate Et.
      - apply andb_prop in Hs as [Hs _]. apply negb_true_iff in Hs. exact Hs. }
    destruct (HandleEvent_tool_input pending pre h ev H Hp Ha) as [K1 K2].
    destruct ev as [eventType payload]. cbn [fst snd] in K1, K2. cbn [Streaming.feed].
    destruct (HandleEvent h eventType payload) as [h1 out1]. cbn [fst snd] in K1, K2.
    assert (tool_uses_are_stopped
              (if handled_as "toolUseEvent" (eventType, payload)
               then negb (is_stop (eventType, payload))
               else if handled_as "assistantResponseEvent" (eventType, payload)
                    then false else pending) evs = true) as Hs'.
    { destruct (handled_as "toolUseEvent" (eventType, payload)); [exact Hs|].
      destruct (handled_as "assistantResponseEvent" (eventType, payload)); [|exact Hs].
      apply andb_prop in Hs as [_ Hs]. exact Hs. }
    destruct (IH _ (pre ++ out1) h1 K1 K2 Hs') as [I1 I2].
    destruct (feed h1 evs) as [h2 out2]. cbn [fst snd] in *.
    rewrite app_assoc. split; assumption.
Qed.

End ToolInputs.

Lemma emitted_lengths_nonneg (out : list SSEEvent) :
  0 <= emitted_text_length out /\ 0 <= emitted_tool_input_length out.
Proof.
  unfold emitted_text_length, emitted_tool_input_length. split.
  - induction (omap text_delta_of out) as [|s l IH]; cbn; [lia|].
    pose proof (len_nonneg s). lia.
  - induction (omap input_json_delta_of out) as [|s l IH]; cbn; [lia|].
    pose proof (len_nonneg s). lia.
Qed.

(** What [Finish] sends adds nothing to the three totals. *)
Lemma Finish_weightless (h : ClaudeStreamHandler) :
  emitted_text_length (snd (Finish h)) = 0
  /\ emitted_tool_input_length (snd (Finish h)) = 0
  /\ thinking_blocks (snd (Finish h)) = 0%nat.
Proof.
  unfold Finish.
  destruct (ContentBlockStarted h && negb (ContentBlockStopSent h));
    repeat split; reflexivity.
Qed.

Section TokenCount.

Variable GenerateMessageID : string.
Variable json_Marshal : JSON -> string.

#[local] Abbreviation feed := (feed GenerateMessageID json_Marshal).
#[local] Abbreviation run := (run GenerateMessageID json_Marshal).

(** The figure [Finish] reports, in terms of what the handler recorded. *)
Lemma run_reports_recorded_lengths (model : string) (inputTokens : Z)
    (evs : list Classified) :
  let h := fst (feed (NewClaudeStreamHandler model inputTokens) evs) in
  reported_output_tokens (run model inputTokens evs)
  = Some (floor_quarter_tokens
            (joined_length (ResponseBuffer h) + joined_length (AllToolInputs h))).
Proof.
  cbv zeta. rewrite run_unfold. unfold reported_output_tokens.
  rewrite omap_app, Finish_reports_outputTokens, outputTokens_is_floor.
  apply last_snoc.
Qed.

(** C5, as amended.  The output-token figure of the final [message_delta]
    is at least 1 and never more than the floor of a quarter of the length
    of the text and the tool input sent, floored at 1; it is exactly 1 when
    nothing was sent; and it is exactly that floor when the run opens no
    thinking block and every tool use is ended by a stop event. *)
Theorem output_tokens_are_a_quarter_of_what_was_sent
    (model : string) (inputTokens : Z) (evs : list Classified) :
  let out := run model inputTokens evs in
  let sent := emitted_text_length out + emitted_tool_input_length out in
  (exists n, reported_output_tokens out = Some n
             /\ 1 <= n <= floor_quarter_tokens sent)
  /\ (sent = 0 -> reported_output_tokens out = Some 1)
  /\ (thinking_blocks out = 0%nat -> tool_uses_are_stopped false evs = true ->
      reported_output_tokens out = Some (floor_quarter_tokens sent)).
Proof.
  cbv zeta. rewrite run_reports_recorded_lengths. rewrite run_unfold.
  pose proof (feed_metered GenerateMessageID json_Marshal evs []
                (NewClaudeStreamHandler model inputTokens)) as M.
  pose proof (feed_tool_input GenerateMessageID json_Marshal evs false []
                (NewClaudeStreamHandler model inputTokens)) as K.
  cbn [app] in M, K.
  destruct (feed (NewClaudeStreamHandler model inputTokens) evs) as [h out].
  cbn [fst snd] in *.
  destruct M as (M1 & M2 & M3).
  { repeat split; cbn; try reflexivity; lia. }
  destruct (Finish_weightless h) as (F1 & F2 & F3).
  rewrite emitted_text_length_app, emitted_tool_input_length_app, thinking_blocks_app,
    F1, F2, F3, !Z.add_0_r, Nat.add_0_r.
  destruct (emitted_lengths_nonneg out) as [N1 N2].
  pose proof (joined_length_nonneg (ResponseBuffer h)) as N3.
  pose proof (joined_length_nonneg (AllToolInputs h)) as N4.
  assert (0 <= pending_tool_input h) as N5.
  { unfold pending_tool_input. destruct (is_some (CurrentToolUse h)); [|lia].
    apply joined_length_nonneg. }
  unfold floor_quarter_tokens.
  split; [|split].
  - eexists. split; [reflexivity|].
    assert ((joined_length (ResponseBuffer h) + joined_length (AllToolInputs h)) / 4
            <= (emitted_text_length out + emitted_tool_input_length out) / 4)
      by (apply Z.div_le_mono; lia).
    lia.
  - intros H0.
    replace (joined_length (ResponseBuffer h) + joined_length (AllToolInputs h))
      with 0 by lia.
    reflexivity.
  - intros Ht Hs. destruct (M2 Ht) as [_ E1].
    destruct K as [K1 K2]; [reflexivity|intros; discriminate|exact Hs|].
    unfold tool_input_kept, pending_tool_input in K1. rewrite K2 in K1. cbn in K1.
    do 3 f_equal. lia.
Qed.

End TokenCount.

(** *** Instances *)

(** An instance of [output_tokens_are_a_quarter_of_what_was_sent]: five
    characters of text and a tool input sent in two fragments, of four and
    three characters, the second with the stop flag. *)
Lemma output_tokens_witness :
  let evs := [ initial_response; text_event "Hello";
               tool_event "t1" "search" "[1,2" false;
               tool_event "t1" "search" ",3]" true ] in
  let out := run sample_id sample_Marshal "m" 0 evs in
  thinking_blocks out = 0%nat
  /\ tool_uses_are_stopped false evs = true
  /\ emitted_text_length out + emitted_tool_input_length out = 12
  /\ reported_output_tokens out = Some 3.
Proof.
  cbv zeta.
  assert (thinking_blocks
            (run sample_id sample_Marshal "m" 0
               [ initial_response; text_event "Hello";
                 tool_event "t1" "search" "[1,2" false;
                 tool_event "t1" "search" ",3]" true ]) = 0%nat) as Ht
    by (vm_compute; reflexivity).
  assert (tool_uses_are_stopped false
            [ initial_response; text_event "Hello";
              tool_event "t1" "search" "[1,2" false;
              tool_event "t1" "search" ",3]" true ] = true) as Hs
    by (vm_compute; reflexivity).
  split; [exact Ht|]. split; [exact Hs|]. split; [vm_compute; reflexivity|].
  destruct (output_tokens_are_a_quarter_of_what_was_sent sample_id sample_Marshal "m" 0
              [ initial_response; text_event "Hello";
                tool_event "t1" "search" "[1,2" false;
                tool_event "t1" "search" ",3]" true ]) as (_ & _ & H).
  rewrite (H Ht Hs). vm_compute. reflexivity.
Defined.

(** An instance of [block_events_refer_to_opened_blocks]: the [text_delta]
    of a one-fragment response refers to block 0, opened two events
    earlier. *)
Lemma block_events_witness :
  let pre := [ fst (BuildMessageStart sample_id "m" 0);
               BuildContentBlockStart 0 "text"; BuildPing ] in
  let e := BuildContentBlockDelta 0 "Hello" in
  let post := BuildContentBlockStop 0 :: BuildMessageStop 0 1 None in
  run sample_id sample_Marshal "m" 0 [initial_response; text_event "Hello"]
  = pre ++ e :: post
  /\ is_block_event e = true
  /\ exists i, index_of e = Some i /\ In i (start_indices pre).
Proof.
  cbv zeta.
  assert (run sample_id sample_Marshal "m" 0 [initial_response; text_event "Hello"]
          = [ fst (BuildMessageStart sample_id "m" 0);
              BuildContentBlockStart 0 "text"; BuildPing ]
            ++ BuildContentBlockDelta 0 "Hello"
               :: BuildContentBlockStop 0 :: BuildMessageStop 0 1 None) as E
    by (vm_compute; reflexivity).
  split; [exact E|]. split; [reflexivity|].
  exact (block_events_refer_to_opened_blocks sample_id sample_Marshal "m" 0
           [initial_response; text_event "Hello"] _ _ _ E eq_refl).
Defined.

(** An instance of [unknown_event_type_is_ignored]: a [messageMetadataEvent]. *)
Lemma unknown_event_type_witness :
  HandleEvent sample_id sample_Marshal (NewClaudeStreamHandler "m" 0)
    "messageMetadataEvent" (JObj ∅)
  = (NewClaudeStreamHandler "m" 0, []).
Proof.
  apply unknown_event_type_is_ignored; intros H; discriminate H.
Defined.

(** An instance of [tool_fragment_without_open_tool_is_dropped]: an input
    fragment with a stop flag and no tool name, on a fresh handler. *)
Lemma tool_fragment_witness :
  HandleEvent sample_id sample_Marshal (NewClaudeStreamHandler "m" 0) "toolUseEvent"
    (obj [ ("toolUseId", JStr "t1"); ("input", JStr "{}"); ("stop", JBool true) ])
  = (NewClaudeStreamHandler "m" 0, []).
Proof.
  apply tool_fragment_without_open_tool_is_dropped; [reflexivity|].
  right. reflexivity.
Defined.

(** An instance of [untagged_fragment_is_forwarded_verbatim]: a fragment
    with an end tag and no start tag, outside a thinking block. *)
Lemma untagged_fragment_witness :
  let r := HandleEvent sample_id sample_Marshal (NewClaudeStreamHandler "m" 0)
             "assistantResponseEvent" (obj [ ("content", JStr "a</thinking>b") ]) in
  omap text_delta_of (snd r) = ["a</thinking>b"%string]
  /\ ResponseBuffer (fst r) = ["a</thinking>b"%string]
  /\ InThinkBlock (fst r) = false.
Proof.
  cbv zeta.
  apply (untagged_fragment_is_forwarded_verbatim sample_id sample_Marshal
           (NewClaudeStreamHandler "m" 0)
           (list_to_map [ ("content", JStr "a</thinking>b") ]) "a</thinking>b");
    try reflexivity.
  intros H; discriminate H.
Defined.

End Streaming.

(** ** The event-stream decoder (parser.go) *)

Module Decoder.

(** *** Go byte slices

    A slice is a window on an array: the bytes up to its length, and the
    bytes of the array beyond them up to its capacity.  A slice expression
    may reach into the second part, and panics only past the capacity. *)

Record Slice : Type := mkSlice { visible : list byte; slack : list byte }.

Definition slice_len (s : Slice) : Z := Z.of_nat (List.length (visible s)).

Definition slice_cap (s : Slice) : Z :=
  Z.of_nat (List.length (visible s) + List.length (slack s)).

(** [s[lo:hi]]; [None] is the run-time panic "slice bounds out of range". *)
Definition reslice (s : Slice) (lo hi : Z) : option Slice :=
  if (0 <=? lo) && (lo <=? hi) && (hi <=? slice_cap s) then
    let array := visible s ++ slack s in
    Some {| visible := take (Z.to_nat (hi - lo)) (drop (Z.to_nat lo) array);
            slack := drop (Z.to_nat hi) array |}
  else None.

(** [s[i]] for [0 <= i < len(s)]; the uses below are all in range. *)
Definition byte_at (data : list byte) (i : Z) : Z :=
  match data !! Z.to_nat i with
  | Some b => Z.of_N (Byte.to_N b)
  | None => 0
  end.

(** [binary.BigEndian.Uint32] of the first four bytes. *)
Definition Uint32 (b : list byte) : Z :=
  byte_at b 0 * 16777216 + byte_at b 1 * 65536 + byte_at b 2 * 256 + byte_at b 3.

(** [binary.BigEndian.Uint16] of the two bytes at [offset]. *)
Definition Uint16_at (b : list byte) (offset : Z) : Z :=
  byte_at b offset * 256 + byte_at b (offset + 1).

(** [uint32] arithmetic wraps. *)
Definition wrap32 (z : Z) : Z := z mod 4294967296.

(** [string(data[lo:hi])] for an in-range window. *)
Definition string_of_bytes (data : list byte) (lo hi : Z) : string :=
  string_of_list_byte (take (Z.to_nat (hi - lo)) (drop (Z.to_nat lo) data)).

Record EventStreamMessage : Type := mkMessage {
  Headers : gmap string string;
  Payload : JSON;
  TotalLength : Z
}.

Record EventInfo : Type := mkEventInfo {
  EventType : string;
  ContentType : string;
  MessageType : string;
  InfoPayload : JSON
}.

(** The loop of [ParseHeaders].  Every exit is a [break] or the loop
    condition; [None] means the fuel ran out, which [ParseHeaders_loop_total]
    rules out for fuel above the length of the data. *)
Fixpoint ParseHeaders_loop (fuel : nat) (headersData : list byte) (offset : Z)
    (headers : gmap string string) : option (gmap string string) :=
  let n := Z.of_nat (List.length headersData) in
  if negb (offset <? n) then Some headers else
  match fuel with
  | O => None
  | S fuel =>
      let nameLength := byte_at headersData offset in
      let offset := offset + 1 in
      if offset + nameLength >? n then Some headers else
      let name := string_of_bytes headersData offset (offset + nameLength) in
      let offset := offset + nameLength in
      if offset >=? n then Some headers else
      let offset := offset + 1 in
      if offset + 2 >? n then Some headers else
      let valueLength := Uint16_at headersData offset in
      let offset := offset + 2 in
      if offset + valueLength >? n then Some headers else
      let value := string_of_bytes headersData offset (offset + valueLength) in
      let offset := offset + valueLength in
      ParseHeaders_loop fuel headersData offset (<[name := value]> headers)
  end.

Definition ParseHeaders (headersData : list byte) : gmap string string :=
  match ParseHeaders_loop (S (List.length headersData)) headersData 0 ∅ with
  | Some headers => headers
  | None => ∅
  end.

(** What a call may do: return a value, return an error, or panic. *)
Inductive Outcome (A : Type) : Type :=
| Returned (a : A)
| Failed (err : string)
| Panicked.
Arguments Returned {A} a.
Arguments Failed {A} err.
Arguments Panicked {A}.

Section WithJSON.

(** [json.Unmarshal] into an [interface{}]: [None] is a decoding error. *)
Variable json_Unmarshal : list byte -> option JSON.

Definition ParseMessage (data : Slice) : Outcome EventStreamMessage :=
  if slice_len data <? 16 then Failed "incomplete message: data too short" else
  let totalLength := Uint32 (visible data) in
  let headersLength := Uint32 (drop 4 (visible data)) in
  if slice_len data <? totalLength then Failed "incomplete message" else
  match reslice data 12 (wrap32 (12 + headersLength)) with
  | None => Panicked
  | Some headersData =>
      let headers := ParseHeaders (visible headersData) in
      let payloadStart := wrap32 (12 + headersLength) in
      let payloadEnd := wrap32 (totalLength - 4) in
      match reslice data payloadStart payloadEnd with
      | None => Panicked
      | Some payloadData =>
          let payload :=
            if 0 <? slice_len payloadData then
              match json_Unmarshal (visible payloadData) with
              | Some v => v
              | None => JStr (string_of_list_byte (visible payloadData))
              end
            else JNull in
          Returned {| Headers := headers; Payload := payload; TotalLength := totalLength |}
      end
  end.

(** How the inner loop of [ParseStream] ends. *)
Inductive Drain : Type :=
| Drained (buffer : Slice) (sent : list EventStreamMessage)
| DrainPanicked (sent : list EventStreamMessage)
| DrainOutOfFuel.

(** [for len(buffer) >= 12 { ... }] of [ParseStream], lines 143-163; [sent]
    are the messages written to the channel so far. *)
Fixpoint drain (fuel : nat) (buffer : Slice) (sent : list EventStreamMessage) : Drain :=
  if negb (12 <=? slice_len buffer) then Drained buffer sent else
  match fuel with
  | O => DrainOutOfFuel
  | S fuel =>
      if slice_len buffer <? 4 then Drained buffer sent else
      let totalLength := Uint32 (visible buffer) in
      if slice_len buffer <? totalLength then Drained buffer sent else
      match reslice buffer 0 totalLength, reslice buffer totalLength (slice_len buffer) with
      | Some messageData, Some buffer =>
          match ParseMessage messageData with
          | Returned message => drain fuel buffer (sent ++ [message])
          | Failed _ => drain fuel buffer sent
          | Panicked => DrainPanicked sent
          end
      | _, _ => DrainPanicked sent
      end
  end.

(** The capacity left after [append] had to move the slice to a new array
    of at least the given length; the run time picks it. *)
Variable spare_capacity : nat -> nat.

(** [append(buffer, chunk...)] *)
Definition append (buffer : Slice) (chunk : list byte) : Slice :=
  if (List.length chunk <=? List.length (slack buffer))%nat then
    {| visible := visible buffer ++ chunk;
       slack := drop (List.length chunk) (slack buffer) |}
  else
    {| visible := visible buffer ++ chunk;
       slack := replicate (spare_capacity (List.length (visible buffer ++ chunk))) x00 |}.

(** How a [Read] ends besides the bytes it delivers. *)
Inductive ReadError : Type := NoError | EOF | OtherError (msg : string).

(** How [ParseStream] ends, with the messages it wrote to the channel. *)
Inductive StreamEnd : Type :=
| StreamDone (sent : list EventStreamMessage)
| StreamFailed (err : string) (sent : list EventStreamMessage)
| StreamPanicked (sent : list EventStreamMessage)
| StreamStuck (sent : list EventStreamMessage).

(** The outer loop of [ParseStream] over the successive results of
    [reader.Read]; a reader that has nothing more to say is at EOF.
    [fuel] bounds the passes of each inner loop. *)
Fixpoint ParseStream_loop (fuel : nat) (reads : list (list byte * ReadError))
    (buffer : Slice) (sent : list EventStreamMessage) : StreamEnd :=
  match reads with
  | [] => StreamDone sent
  | (chunk, err) :: reads =>
      let after_chunk :=
        if (0 <? List.length chunk)%nat
        then drain fuel (append buffer chunk) sent
        else Drained buffer sent in
      match after_chunk with
      | DrainPanicked sent => StreamPanicked sent
      | DrainOutOfFuel => StreamStuck sent
      | Drained buffer sent =>
          match err with
          | EOF => StreamDone sent
          | OtherError msg => StreamFailed msg sent
          | NoError => ParseStream_loop fuel reads buffer sent
          end
      end
  end.

Definition ParseStream (fuel : nat) (reads : list (list byte * ReadError)) : StreamEnd :=
  ParseStream_loop fuel reads {| visible := []; slack := [] |} [].

End WithJSON.

(** [headers[k]]: the empty string for a missing key. *)
Definition header (headers : gmap string string) (k : string) : string :=
  match headers !! k with
  | Some v => v
  | None => EmptyString
  end.

Definition ExtractEventInfo (message : EventStreamMessage) : EventInfo :=
  let headers := Headers message in
  let eventType := header headers ":event-type" in
  let eventType := if String.eqb eventType "" then header headers "event-type" else eventType in
  let contentType := header headers ":content-type" in
  let contentType :=
    if String.eqb contentType "" then header headers "content-type" else contentType in
  let messageType := header headers ":message-type" in
  let messageType :=
    if String.eqb messageType "" then header headers "message-type" else messageType in
  {| EventType := eventType;
     ContentType := contentType;
     MessageType := messageType;
     InfoPayload := Payload message |}.

(** *** Properties of the decoder *)

Lemma byte_at_nonneg (data : list byte) (i : Z) : 0 <= byte_at data i.
Proof. unfold byte_at. destruct (data !! Z.to_nat i); lia. Qed.

(** The header loop leaves within [len(headersData) - offset + 1] passes:
    each pass moves [offset] forward by at least four bytes. *)
Lemma ParseHeaders_loop_total (headersData : list byte) (fuel : nat) :
  forall offset headers,
    0 <= offset ->
    (Z.to_nat (Z.of_nat (List.length headersData) - offset) < fuel)%nat ->
    exists r, ParseHeaders_loop fuel headersData offset headers = Some r.
Proof.
  induction fuel as [|fuel IH]; intros offset headers Ho Hf; [lia|].
  cbn [ParseHeaders_loop]. cbv zeta.
  pose proof (byte_at_nonneg headersData offset) as N1.
  pose proof (byte_at_nonneg headersData
                (offset + 1 + byte_at headersData offset + 1)) as N2.
  pose proof (byte_at_nonneg headersData
                (offset + 1 + byte_at headersData offset + 1 + 1)) as N3.
  repeat match goal with
         | |- context [if ?b then _ else _] => destruct b eqn:?; [solve [eauto]|]
         | |- context [if ?b then _ else _] => destruct b eqn:?; [|solve [eauto]]
         end.
  apply IH.
  - unfold Uint16_at. lia.
  - unfold Uint16_at. apply negb_false_iff, Z.ltb_lt in Heqb. lia.
Qed.

(** The fuel [ParseHeaders] gives its loop is enough. *)
Lemma ParseHeaders_fuel_enough (headersData : list byte) :
  exists r, ParseHeaders_loop (S (List.length headersData)) headersData 0 ∅ = Some r.
Proof. apply ParseHeaders_loop_total; lia. Qed.

(** A frame of sixteen bytes that declares a total length of 16 and a
    headers length of 8: its headers would end at byte 20, past the frame. *)
Definition inconsistent_frame : list byte :=
  [ x00; x00; x00; x10;   x00; x00; x00; x08;
    x00; x00; x00; x00;   x00; x00; x00; x00 ].

(** A frame header that declares a total length of 0. *)
Definition zero_length_header : list byte :=
  [ x00; x00; x00; x00;   x00; x00; x00; x00;
    x00; x00; x00; x00 ].

Section DecoderProperties.

Variable json_Unmarshal : list byte -> option JSON.
Variable spare_capacity : nat -> nat.

(** Whatever the capacity behind it, the inconsistent frame makes
    [ParseMessage] panic: the payload slice has its start after its end. *)
Lemma ParseMessage_inconsistent_frame_panics (behind : list byte) :
  ParseMessage json_Unmarshal {| visible := inconsistent_frame; slack := behind |}
  = Panicked.
Proof.
  unfold ParseMessage.
  change (slice_len {| visible := inconsistent_frame; slack := behind |}) with 16.
  change (Uint32 (visible {| visible := inconsistent_frame; slack := behind |})) with 16.
  change (Uint32 (drop 4 (visible {| visible := inconsistent_frame; slack := behind |})))
    with 8.
  change (wrap32 (12 + 8)) with 20. change (wrap32 (16 - 4)) with 12.
  change (16 <? 16) with false. cbv iota.
  change (reslice {| visible := inconsistent_frame; slack := behind |} 20 12)
    with (@None Slice).
  destruct (reslice _ 12 20); reflexivity.
Qed.

Lemma reslice_nothing (s : Slice) :
  reslice s 0 0 = Some {| visible := []; slack := visible s ++ slack s |}.
Proof.
  unfold reslice, slice_cap.
  destruct (Z.leb_spec 0 (Z.of_nat (List.length (visible s) + List.length (slack s))));
    [|lia].
  cbn. rewrite drop_0. reflexivity.
Qed.

Lemma reslice_rest (s : Slice) :
  reslice s 0 (slice_len s) = Some s.
Proof.
  unfold reslice, slice_cap, slice_len.
  destruct (Z.leb_spec 0 (Z.of_nat (List.length (visible s)))); [|lia].
  destruct (Z.leb_spec (Z.of_nat (List.length (visible s)))
              (Z.of_nat (List.length (visible s) + List.length (slack s)))); [|lia].
  cbn [andb]. rewrite Z.sub_0_r, Nat2Z.id. cbn [Z.to_nat]. rewrite drop_0.
  rewrite take_app_length, drop_app_length. destruct s; reflexivity.
Qed.

Lemma reslice_prefix (a r b : list byte) :
  reslice {| visible := a ++ r; slack := b |} 0 (Z.of_nat (List.length a))
  = Some {| visible := a; slack := r ++ b |}.
Proof.
  unfold reslice, slice_cap. cbn [visible slack].
  rewrite List.length_app.
  destruct (Z.leb_spec 0 (Z.of_nat (List.length a))); [|lia].
  destruct (Z.leb_spec (Z.of_nat (List.length a))
              (Z.of_nat (List.length a + List.length r + List.length b))); [|lia].
  cbn [andb]. rewrite Z.sub_0_r, Nat2Z.id. cbn [Z.to_nat]. rewrite drop_0.
  rewrite <- app_assoc, take_app_length, drop_app_length. reflexivity.
Qed.

Lemma reslice_suffix (a r b : list byte) :
  reslice {| visible := a ++ r; slack := b |} (Z.of_nat (List.length a))
    (slice_len {| visible := a ++ r; slack := b |})
  = Some {| visible := r; slack := b |}.
Proof.
  unfold reslice, slice_cap, slice_len. cbn [visible slack].
  rewrite List.length_app.
  destruct (Z.leb_spec 0 (Z.of_nat (List.length a))); [|lia].
  destruct (Z.leb_spec (Z.of_nat (List.length a))
              (Z.of_nat (List.length a + List.length r))); [|lia].
  destruct (Z.leb_spec (Z.of_nat (List.length a + List.length r))
              (Z.of_nat (List.length a + List.length r + List.length b))); [|lia].
  cbn [andb]. rewrite !Nat2Z.id.
  replace (Z.to_nat (Z.of_nat (List.length a + List.length r) - Z.of_nat (List.length a)))
    with (List.length r) by lia.
  rewrite <- app_assoc, drop_app_length, take_app_length.
  rewrite app_assoc, <- List.length_app, drop_app_length. reflexivity.
Qed.

(** The inner loop of [ParseStream] panics on the inconsistent frame,
    whatever bytes follow it in the buffer. *)
Lemma drain_inconsistent_frame_panics (fuel : nat) (rest behind : list byte)
    (sent : list EventStreamMessage) :
  drain json_Unmarshal (S fuel)
    {| visible := inconsistent_frame ++ rest; slack := behind |} sent
  = DrainPanicked sent.
Proof.
  cbn [drain].
  assert (slice_len {| visible := inconsistent_frame ++ rest; slack := behind |}
          = 16 + Z.of_nat (List.length rest)) as L.
  { unfold slice_len. cbn [visible]. rewrite List.length_app. cbn. lia. }
  change (Uint32 (visible {| visible := inconsistent_frame ++ rest; slack := behind |}))
    with 16.
  pose proof (reslice_suffix inconsistent_frame rest behind) as R2.
  rewrite L in *.
  destruct (Z.leb_spec 12 (16 + Z.of_nat (List.length rest))); [|lia].
  destruct (Z.ltb_spec (16 + Z.of_nat (List.length rest)) 4); [lia|].
  destruct (Z.ltb_spec (16 + Z.of_nat (List.length rest)) 16); [lia|].
  cbn [negb].
  rewrite (reslice_prefix inconsistent_frame rest behind : reslice _ 0 16 = _).
  rewrite (R2 : reslice _ 16 _ = _).
  rewrite ParseMessage_inconsistent_frame_panics. reflexivity.
Qed.

(** C3.  A read that delivers the inconsistent frame makes [ParseStream]
    panic before anything is written to the channel: the frame is not
    skipped, and whatever follows it, in the same read or in later ones,
    is never decoded. *)
Theorem ParseStream_panics_on_inconsistent_frame (fuel : nat) (rest : list byte)
    (err : ReadError) (reads : list (list byte * ReadError)) :
  ParseStream json_Unmarshal spare_capacity (S fuel)
    ((inconsistent_frame ++ rest, err) :: reads)
  = StreamPanicked [].
Proof.
  unfold ParseStream. cbn [ParseStream_loop].
  change (0 <? List.length (inconsistent_frame ++ rest))%nat with true.
  unfold append. cbn [visible slack List.length app].
  change (List.length (inconsistent_frame ++ rest) <=? 0)%nat with false.
  cbv iota.
  change ([] ++ inconsistent_frame ++ rest) with (inconsistent_frame ++ rest).
  rewrite drain_inconsistent_frame_panics. reflexivity.
Qed.

(** A frame header that declares a total length of zero stalls the inner
    loop for good: each pass cuts a message of no bytes off the buffer, sees
    it rejected, and starts over on the same buffer. *)
Lemma drain_never_ends_on_zero_length (fuel : nat) (rest behind : list byte)
    (sent : list EventStreamMessage) :
  drain json_Unmarshal fuel
    {| visible := zero_length_header ++ rest; slack := behind |} sent
  = DrainOutOfFuel.
Proof.
  assert (slice_len {| visible := zero_length_header ++ rest; slack := behind |}
          = 12 + Z.of_nat (List.length rest)) as L
    by (unfold slice_len; cbn [visible]; rewrite List.length_app; cbn; lia).
  pose proof (reslice_rest {| visible := zero_length_header ++ rest;
                              slack := behind |}) as R2.
  induction fuel as [|fuel IH]; cbn [drain]; rewrite L in *;
    destruct (Z.leb_spec 12 (12 + Z.of_nat (List.length rest))); try lia;
    cbn [negb]; [reflexivity|].
  change (Uint32 (visible {| visible := zero_length_header ++ rest; slack := behind |}))
    with 0.
  destruct (Z.ltb_spec (12 + Z.of_nat (List.length rest)) 4); [lia|].
  destruct (Z.ltb_spec (12 + Z.of_nat (List.length rest)) 0); [lia|].
  rewrite reslice_nothing, R2.
  exact IH.
Qed.

End DecoderProperties.

(** *** Well-formed input

    The layout the decoder reads, written out as an encoder, to state what
    the decoder makes of well-formed input: a header is a name length byte,
    the name, a value type byte, a two-byte value length and the value; a
    frame is the total length, the headers length, four bytes of prelude
    checksum, the headers, the payload and four bytes of message checksum. *)

Definition byte_of (z : Z) : byte :=
  match Byte.of_N (Z.to_N z) with
  | Some b => b
  | None => x00
  end.

Definition be16 (n : Z) : list byte := [byte_of (n / 256); byte_of (n mod 256)].

Definition be32 (n : Z) : list byte :=
  [ byte_of (n / 16777216); byte_of (n / 65536 mod 256);
    byte_of (n / 256 mod 256); byte_of (n mod 256) ].

Definition encode_header (h : string * byte * string) : list byte :=
  let '(name, valueType, value) := h in
  byte_of (len name) :: list_byte_of_string name
  ++ valueType :: be16 (len value) ++ list_byte_of_string value.

Definition encode_headers (hs : list (string * byte * string)) : list byte :=
  concat (map encode_header hs).

Definition well_sized (h : string * byte * string) : Prop :=
  len (fst (fst h)) < 256 /\ len (snd h) < 65536.

(** The map the headers stand for: a later header overrides an earlier one
    of the same name. *)
Definition headers_of (hs : list (string * byte * string)) (m : gmap string string)
  : gmap string string :=
  fold_left (fun m h => <[fst (fst h) := snd h]> m) hs m.

Definition frame (headers payload preludeCRC messageCRC : list byte) : list byte :=
  be32 (16 + Z.of_nat (List.length headers) + Z.of_nat (List.length payload))
  ++ be32 (Z.of_nat (List.length headers))
  ++ preludeCRC ++ headers ++ payload ++ messageCRC.

Lemma byte_of_value (z : Z) : 0 <= z < 256 -> Z.of_N (Byte.to_N (byte_of z)) = z.
Proof.
  intros Hz. unfold byte_of.
  destruct (Byte.of_N (Z.to_N z)) as [b|] eqn:E.
  - apply Byte.to_of_N in E. rewrite E. lia.
  - apply Byte.of_N_None_iff in E. lia.
Qed.

Lemma byte_at_bound (data : list byte) (i : Z) : 0 <= byte_at data i < 256.
Proof.
  unfold byte_at. destruct (data !! Z.to_nat i) as [b|]; [|lia].
  pose proof (Byte.to_N_bounded b). lia.
Qed.

Lemma byte_at_middle (a : list byte) (x : byte) (b : list byte) (i : Z) :
  i = Z.of_nat (List.length a) ->
  byte_at (a ++ x :: b) i = Z.of_N (Byte.to_N x).
Proof.
  intros ->. unfold byte_at. rewrite Nat2Z.id, list_lookup_middle by reflexivity.
  reflexivity.
Qed.

Lemma byte_at_app_l (a b : list byte) (i : Z) :
  0 <= i < Z.of_nat (List.length a) -> byte_at (a ++ b) i = byte_at a i.
Proof.
  intros Hi. unfold byte_at. rewrite lookup_app_l by lia. reflexivity.
Qed.

Lemma length_list_byte_of_string (s : string) :
  List.length (list_byte_of_string s) = String.length s.
Proof.
  induction s as [|c s IH]; [reflexivity|].
  change (list_byte_of_string (String c s))
    with (byte_of_ascii c :: list_byte_of_string s).
  cbn [List.length]. rewrite IH. reflexivity.
Qed.

Lemma string_of_bytes_middle (a : list byte) (s : string) (b : list byte) (lo hi : Z) :
  lo = Z.of_nat (List.length a) -> hi = lo + len s ->
  string_of_bytes (a ++ list_byte_of_string s ++ b) lo hi = s.
Proof.
  intros -> ->. unfold string_of_bytes, len.
  rewrite Nat2Z.id, drop_app_length.
  replace (Z.to_nat (Z.of_nat (List.length a) + Z.of_nat (String.length s)
                     - Z.of_nat (List.length a)))
    with (List.length (list_byte_of_string s))
    by (rewrite length_list_byte_of_string; lia).
  rewrite take_app_length. apply string_of_list_byte_of_string.
Qed.

Lemma Uint16_at_be16 (a : list byte) (n : Z) (b : list byte) (offset : Z) :
  offset = Z.of_nat (List.length a) -> 0 <= n < 65536 ->
  Uint16_at (a ++ be16 n ++ b) offset = n.
Proof.
  intros -> Hn. unfold Uint16_at, be16. cbn [app].
  rewrite (byte_at_middle a _ _ _ eq_refl).
  change (a ++ byte_of (n / 256) :: byte_of (n mod 256) :: b)
    with (a ++ [byte_of (n / 256)] ++ byte_of (n mod 256) :: b).
  rewrite app_assoc, (byte_at_middle (a ++ [byte_of (n / 256)]))
    by (rewrite length_app; cbn; lia).
  rewrite !byte_of_value; [pose proof (Z.div_mod n 256 ltac:(lia)); lia| |].
  - apply Z.mod_pos_bound. lia.
  - split; [apply Z.div_pos; lia|apply Z.div_lt_upper_bound; lia].
Qed.

Lemma Uint32_be32 (n : Z) (b : list byte) :
  0 <= n < 4294967296 -> Uint32 (be32 n ++ b) = n.
Proof.
  intros Hn.
  assert (forall x0 x1 x2 x3 r,
            Uint32 (x0 :: x1 :: x2 :: x3 :: r)
            = Z.of_N (Byte.to_N x0) * 16777216 + Z.of_N (Byte.to_N x1) * 65536
              + Z.of_N (Byte.to_N x2) * 256 + Z.of_N (Byte.to_N x3)) as U
    by reflexivity.
  unfold be32. cbn [app]. rewrite U.
  replace (n / 65536) with (n / 256 / 256) by (rewrite Z.div_div by lia; reflexivity).
  replace (n / 16777216) with (n / 256 / 256 / 256)
    by (rewrite !Z.div_div by lia; reflexivity).
  pose proof (Z.div_mod n 256 ltac:(lia)).
  pose proof (Z.div_mod (n / 256) 256 ltac:(lia)).
  pose proof (Z.div_mod (n / 256 / 256) 256 ltac:(lia)).
  pose proof (Z.mod_pos_bound n 256 ltac:(lia)).
  pose proof (Z.mod_pos_bound (n / 256) 256 ltac:(lia)).
  pose proof (Z.mod_pos_bound (n / 256 / 256) 256 ltac:(lia)).
  rewrite !byte_of_value by lia. lia.
Qed.

Lemma length_encode_header (name : string) (valueType : byte) (value : string) :
  Z.of_nat (List.length (encode_header (name, valueType, value)))
  = 1 + len name + 1 + 2 + len value.
Proof.
  unfold encode_header, be16, len. cbn [List.length app].
  rewrite length_app. cbn [List.length].
  rewrite !length_list_byte_of_string. lia.
Qed.

(** One pass of the header loop over one encoded header. *)
Lemma ParseHeaders_loop_step (fuel : nat) (pre : list byte) (name : string)
    (valueType : byte) (value : string) (rest : list byte) (m : gmap string string) :
  len name < 256 -> len value < 65536 ->
  ParseHeaders_loop (S fuel) (pre ++ encode_header (name, valueType, value) ++ rest)
    (Z.of_nat (List.length pre)) m
  = ParseHeaders_loop fuel (pre ++ encode_header (name, valueType, value) ++ rest)
      (Z.of_nat (List.length (pre ++ encode_header (name, valueType, value))))
      (<[name := value]> m).
Proof.
  intros Hn Hv.
  pose proof (length_encode_header name valueType value) as Le.
  assert (0 <= len name /\ 0 <= len value) as [Pn Pv] by (unfold len; lia).
  set (data := pre ++ encode_header (name, valueType, value) ++ rest).
  set (P := Z.of_nat (List.length pre)).
  assert (Z.of_nat (List.length data)
          = P + 1 + len name + 1 + 2 + len value + Z.of_nat (List.length rest)) as Ld.
  { unfold data, P. rewrite !length_app. lia. }
  assert (byte_at data P = len name) as F1.
  { unfold data, encode_header. cbn [app].
    rewrite (byte_at_middle pre _ _ P eq_refl). apply byte_of_value. lia. }
  assert (string_of_bytes data (P + 1) (P + 1 + len name) = name) as F2.
  { unfold data, encode_header.
    change (pre ++ (byte_of (len name) :: list_byte_of_string name
                    ++ valueType :: be16 (len value) ++ list_byte_of_string value) ++ rest)
      with (pre ++ [byte_of (len name)]
            ++ (list_byte_of_string name
                ++ valueType :: be16 (len value) ++ list_byte_of_string value) ++ rest).
    rewrite app_assoc, <- (app_assoc (list_byte_of_string name)).
    apply string_of_bytes_middle; [|reflexivity].
    unfold P. rewrite length_app. cbn. lia. }
  assert (data = (pre ++ byte_of (len name) :: list_byte_of_string name ++ [valueType])
                 ++ be16 (len value) ++ list_byte_of_string value ++ rest) as Dv.
  { unfold data, encode_header. cbn [app].
    rewrite <- !app_assoc. cbn [app]. rewrite <- !app_assoc. reflexivity. }
  assert (Z.of_nat (List.length (pre ++ byte_of (len name) :: list_byte_of_string name
                                 ++ [valueType]))
          = P + 1 + len name + 1) as Lv.
  { rewrite length_app. cbn [List.length]. rewrite length_app. cbn [List.length].
    rewrite length_list_byte_of_string. unfold P, len. lia. }
  assert (Uint16_at data (P + 1 + len name + 1) = len value) as F3.
  { rewrite Dv. apply Uint16_at_be16; [symmetry; exact Lv|lia]. }
  assert (string_of_bytes data (P + 1 + len name + 1 + 2)
            (P + 1 + len name + 1 + 2 + len value) = value) as F4.
  { rewrite Dv, app_assoc.
    apply string_of_bytes_middle; [|reflexivity].
    rewrite length_app. unfold be16. cbn [List.length]. lia. }
  assert (Z.of_nat (List.length (pre ++ encode_header (name, valueType, value)))
          = P + 1 + len name + 1 + 2 + len value) as Lp.
  { rewrite length_app. unfold P. lia. }
  rewrite Lp. clearbody data P.
  cbn [ParseHeaders_loop]. cbv zeta. rewrite F1, F3, F2, F4, Ld.
  destruct (Z.ltb_spec P (P + 1 + len name + 1 + 2 + len value
                          + Z.of_nat (List.length rest))); [|lia].
  cbn [negb].
  repeat match goal with
         | |- context [?a >? ?b] => destruct (Z.gtb_spec a b); [lia|]
         | |- context [?a >=? ?b] => destruct (Z.geb_spec a b); [lia|]
         end.
  reflexivity.
Qed.

Lemma ParseHeaders_loop_encoded (hs : list (string * byte * string)) :
  forall fuel pre m,
    Forall well_sized hs -> (List.length hs < fuel)%nat ->
    ParseHeaders_loop fuel (pre ++ encode_headers hs) (Z.of_nat (List.length pre)) m
    = Some (headers_of hs m).
Proof.
  induction hs as [|[[name valueType] value] hs IH]; intros fuel pre m Hw Hf.
  - unfold encode_headers. cbn [map concat]. rewrite app_nil_r.
    destruct fuel; cbn [ParseHeaders_loop]; cbv zeta;
      rewrite Z.ltb_irrefl; reflexivity.
  - destruct fuel as [|fuel]; [cbn in Hf; lia|].
    apply Forall_cons in Hw as [[Hn Hv] Hw]. cbn [fst snd] in Hn, Hv.
    unfold encode_headers. cbn [map concat]. fold (encode_headers hs).
    rewrite ParseHeaders_loop_step by assumption.
    rewrite app_assoc. apply IH; [assumption|cbn in Hf; lia].
Qed.

(** X13.  [ParseHeaders] decodes every well-sized header block back into
    the headers it was made of, whatever the value-type bytes are: the type
    byte is read and never looked at.  Of two headers with the same name the
    later one wins. *)
Theorem ParseHeaders_decodes_encoded_headers (hs : list (string * byte * string)) :
  Forall well_sized hs ->
  ParseHeaders (encode_headers hs) = headers_of hs ∅.
Proof.
  intros Hw. unfold ParseHeaders.
  pose proof (ParseHeaders_loop_encoded hs
                (S (List.length (encode_headers hs))) [] ∅ Hw) as H.
  cbn [app List.length] in H. change (Z.of_nat 0) with 0 in H.
  rewrite H; [reflexivity|].
  assert (List.length hs <= List.length (encode_headers hs))%nat; [|lia].
  clear. induction hs as [|[[name valueType] value] hs IH]; [cbn; lia|].
  unfold encode_headers in *. cbn [map concat]. rewrite length_app. cbn. lia.
Qed.

Lemma Uint32_bound (b : list byte) : 0 <= Uint32 b < 4294967296.
Proof.
  unfold Uint32.
  pose proof (byte_at_bound b 0). pose proof (byte_at_bound b 1).
  pose proof (byte_at_bound b 2). pose proof (byte_at_bound b 3). lia.
Qed.

Lemma take_drop_app_l {A : Type} (v s : list A) (k n : nat) :
  (k + n <= List.length v)%nat -> take n (drop k (v ++ s)) = take n (drop k v).
Proof.
  intros H. rewrite drop_app_le by lia. apply take_app_le.
  rewrite length_drop. lia.
Qed.

Section FrameProperties.

Variable json_Unmarshal : list byte -> option JSON.
Variable spare_capacity : nat -> nat.

#[local] Abbreviation ParseMessage := (ParseMessage json_Unmarshal).
#[local] Abbreviation drain := (drain json_Unmarshal).

(** The payload [ParseMessage] makes of the payload bytes. *)
Definition payload_of (payloadData : list byte) : JSON :=
  if 0 <? Z.of_nat (List.length payloadData) then
    match json_Unmarshal payloadData with
    | Some v => v
    | None => JStr (string_of_list_byte payloadData)
    end
  else JNull.

(** Where the headers end, as [ParseMessage] computes it. *)
Definition headers_end (data : list byte) : Z := wrap32 (12 + Uint32 (drop 4 data)).

(** [ParseMessage] on a slice that is exactly one frame, as [ParseStream]
    cuts it: the result is decided by the bytes of the frame alone. *)
Lemma ParseMessage_whole_frame (data : Slice) :
  16 <= slice_len data ->
  Uint32 (visible data) = slice_len data ->
  ParseMessage data
  = if (12 <=? headers_end (visible data))
       && (headers_end (visible data) <=? slice_len data - 4)
    then Returned
           {| Headers :=
                ParseHeaders (take (Z.to_nat (headers_end (visible data) - 12))
                                   (drop 12 (visible data)));
              Payload :=
                payload_of (take (Z.to_nat (slice_len data - 4 - headers_end (visible data)))
                                 (drop (Z.to_nat (headers_end (visible data)))
                                       (visible data)));
              TotalLength := slice_len data |}
    else Panicked.
Proof.
  intros H16 Ht. unfold Decoder.ParseMessage, headers_end. rewrite Ht.
  pose proof (Uint32_bound (visible data)) as Bt. rewrite Ht in Bt.
  set (H := wrap32 (12 + Uint32 (drop 4 (visible data)))).
  assert (wrap32 (slice_len data - 4) = slice_len data - 4) as Wp
    by (unfold wrap32; apply Z.mod_small; lia).
  rewrite Wp.
  destruct (Z.ltb_spec (slice_len data) 16); [lia|].
  destruct (Z.ltb_spec (slice_len data) (slice_len data)); [lia|].
  unfold reslice.
  assert (slice_len data <= slice_cap data) as Hc by (unfold slice_len, slice_cap; lia).
  destruct (Z.leb_spec 12 H) as [H12|H12]; cbn [andb Z.leb];
    [|reflexivity].
  destruct (Z.leb_spec H (slice_len data - 4)) as [Hp|Hp].
  - destruct (Z.leb_spec H (slice_cap data)); [|lia].
    destruct (Z.leb_spec 0 H); [|lia].
    destruct (Z.leb_spec (slice_len data - 4) (slice_cap data)); [|lia].
    cbn [andb visible slack]. unfold payload_of, slice_len in *. cbn [visible].
    rewrite !take_drop_app_l by lia. reflexivity.
  - destruct (Z.leb_spec H (slice_cap data)); cbn [andb]; [|reflexivity].
    destruct (Z.leb_spec 0 H); [|lia]. cbn [andb]. reflexivity.
Qed.

(** X14.  On a slice that is exactly one frame of at least 16 bytes,
    [ParseMessage] never returns an error: it panics when the headers
    length runs the headers over the end of the payload, and returns a
    message otherwise. *)
Theorem ParseMessage_panics_iff_headers_overrun (data : Slice) :
  16 <= slice_len data ->
  Uint32 (visible data) = slice_len data ->
  (12 <= headers_end (visible data) <= slice_len data - 4 ->
   exists message, ParseMessage data = Returned message
                   /\ TotalLength message = slice_len data)
  /\ (~ 12 <= headers_end (visible data) <= slice_len data - 4 ->
      ParseMessage data = Panicked).
Proof.
  intros H16 Ht. rewrite (ParseMessage_whole_frame data H16 Ht). split.
  - intros [H1 H2].
    destruct (Z.leb_spec 12 (headers_end (visible data))); [|lia].
    destruct (Z.leb_spec (headers_end (visible data)) (slice_len data - 4)); [|lia].
    eexists. split; reflexivity.
  - intros Hn.
    destruct (Z.leb_spec 12 (headers_end (visible data))); [|reflexivity].
    destruct (Z.leb_spec (headers_end (visible data)) (slice_len data - 4));
      [lia|reflexivity].
Qed.

Lemma length_be32 (n : Z) : List.length (be32 n) = 4%nat.
Proof. reflexivity. Qed.

Lemma length_frame (headers payload preludeCRC messageCRC : list byte) :
  List.length preludeCRC = 4%nat -> List.length messageCRC = 4%nat ->
  Z.of_nat (List.length (frame headers payload preludeCRC messageCRC))
  = 16 + Z.of_nat (List.length headers) + Z.of_nat (List.length payload).
Proof.
  intros H1 H2. unfold frame. rewrite !length_app, !length_be32, H1, H2. lia.
Qed.

(** What [ParseMessage] makes of a well-formed frame. *)
Definition message_of (headers payload : list byte) : EventStreamMessage :=
  {| Headers := ParseHeaders headers;
     Payload := payload_of payload;
     TotalLength := 16 + Z.of_nat (List.length headers) + Z.of_nat (List.length payload) |}.

(** Where the parts of a well-formed frame lie. *)
Lemma frame_layout (headers payload preludeCRC messageCRC : list byte) :
  List.length preludeCRC = 4%nat -> List.length messageCRC = 4%nat ->
  16 + Z.of_nat (List.length headers) + Z.of_nat (List.length payload) < 4294967296 ->
  let data := frame headers payload preludeCRC messageCRC in
  let total := 16 + Z.of_nat (List.length headers) + Z.of_nat (List.length payload) in
  Z.of_nat (List.length data) = total
  /\ Uint32 data = total
  /\ headers_end data = 12 + Z.of_nat (List.length headers)
  /\ (12 <=? headers_end data) && (headers_end data <=? total - 4) = true
  /\ take (Z.to_nat (headers_end data - 12)) (drop 12 data) = headers
  /\ take (Z.to_nat (total - 4 - headers_end data)) (drop (Z.to_nat (headers_end data)) data)
     = payload.
Proof.
  intros H1 H2 Hs data total.
  pose proof (length_frame headers payload preludeCRC messageCRC H1 H2) as Lf.
  fold data total in Lf.
  assert (headers_end data = 12 + Z.of_nat (List.length headers)) as He.
  { unfold headers_end, data, frame.
    rewrite (drop_app_length' (be32 _)) by reflexivity.
    rewrite Uint32_be32 by lia. unfold wrap32. apply Z.mod_small. lia. }
  set (prelude := be32 total ++ be32 (Z.of_nat (List.length headers)) ++ preludeCRC).
  assert (List.length prelude = 12%nat) as Lp
    by (unfold prelude; rewrite !length_app, !length_be32, H1; reflexivity).
  assert (data = prelude ++ headers ++ payload ++ messageCRC) as F1
    by (unfold data, frame, prelude; fold total; rewrite <- !app_assoc; reflexivity).
  assert (data = (prelude ++ headers) ++ payload ++ messageCRC) as F2
    by (rewrite F1, <- !app_assoc; reflexivity).
  rewrite He. repeat split.
  - exact Lf.
  - unfold data, frame. apply Uint32_be32. lia.
  - apply andb_true_intro. split; apply Z.leb_le; lia.
  - rewrite F1, drop_app_length' by (symmetry; exact Lp).
    replace (Z.to_nat (12 + Z.of_nat (List.length headers) - 12))
      with (List.length headers) by lia.
    apply take_app_length.
  - rewrite F2, drop_app_length' by (rewrite length_app, Lp; lia).
    replace (Z.to_nat (total - 4 - (12 + Z.of_nat (List.length headers))))
      with (List.length payload) by lia.
    apply take_app_length.
Qed.

(** [ParseMessage] on a well-formed frame, by [ParseMessage_whole_frame]
    and [frame_layout]. *)
Ltac decode_frame H1 H2 Hs :=
  match goal with
  | |- context [Decoder.ParseMessage _ {| visible := frame ?h ?p ?c1 ?c2; slack := ?b |}] =>
      let Ll := fresh in let Lu := fresh in let Le := fresh in
      let Lb := fresh in let Lh := fresh in let Lp := fresh in
      destruct (frame_layout h p c1 c2 H1 H2 Hs) as (Ll & Lu & Le & Lb & Lh & Lp);
      rewrite (ParseMessage_whole_frame {| visible := frame h p c1 c2; slack := b |})
        by (unfold slice_len; cbn [visible]; lia);
      unfold slice_len; cbn [visible];
      rewrite Ll, Lb, Lh, Lp
  end.

(** X15.  [ParseMessage] decodes a well-formed frame into its headers, its
    payload and its total length: the payload is the decoded JSON, the raw
    text when it does not decode, and nil when it is empty.  Neither
    checksum is looked at, and what lies behind the frame in the array does
    not matter. *)
Theorem ParseMessage_decodes_a_frame
    (headers payload preludeCRC messageCRC behind : list byte) :
  List.length preludeCRC = 4%nat -> List.length messageCRC = 4%nat ->
  16 + Z.of_nat (List.length headers) + Z.of_nat (List.length payload) < 4294967296 ->
  ParseMessage {| visible := frame headers payload preludeCRC messageCRC;
                  slack := behind |}
  = Returned {| Headers := ParseHeaders headers;
                Payload := payload_of payload;
                TotalLength :=
                  16 + Z.of_nat (List.length headers) + Z.of_nat (List.length payload) |}.
Proof.
  intros H1 H2 Hs. decode_frame H1 H2 Hs. reflexivity.
Qed.

(** *** Frames across reads *)

(** The buffer holds no whole frame: the inner loop of [ParseStream] leaves
    it as it is. *)
Definition incomplete (v : list byte) : bool :=
  (Z.of_nat (List.length v) <? 12) || (Z.of_nat (List.length v) <? Uint32 v).

(** The inner loop ends, and [ParseStream] would end as [R] if the reader
    were at EOF. *)
Definition ends (d : Drain) (R : StreamEnd) : Prop :=
  match d with
  | Drained _ sent => R = StreamDone sent
  | DrainPanicked sent => R = StreamPanicked sent
  | DrainOutOfFuel => False
  end.

Lemma drain_incomplete (fuel : nat) (v s : list byte) (sent : list EventStreamMessage) :
  incomplete v = true ->
  drain (S fuel) {| visible := v; slack := s |} sent
  = Drained {| visible := v; slack := s |} sent.
Proof.
  unfold incomplete. intros H. cbn [Decoder.drain]. unfold slice_len. cbn [visible].
  destruct (Z.leb_spec 12 (Z.of_nat (List.length v))); cbn [negb]; [|reflexivity].
  destruct (Z.ltb_spec (Z.of_nat (List.length v)) 4); [reflexivity|].
  destruct (Z.ltb_spec (Z.of_nat (List.length v)) 12); [lia|]. cbn [orb] in H.
  rewrite H. reflexivity.
Qed.

Lemma drain_complete (fuel : nat) (v s : list byte) (sent : list EventStreamMessage) :
  incomplete v = false ->
  drain (S fuel) {| visible := v; slack := s |} sent
  = match ParseMessage {| visible := take (Z.to_nat (Uint32 v)) v;
                          slack := drop (Z.to_nat (Uint32 v)) v ++ s |} with
    | Returned message =>
        drain fuel {| visible := drop (Z.to_nat (Uint32 v)) v; slack := s |}
          (sent ++ [message])
    | Failed _ => drain fuel {| visible := drop (Z.to_nat (Uint32 v)) v; slack := s |} sent
    | Panicked => DrainPanicked sent
    end.
Proof.
  unfold incomplete. intros H. apply orb_false_iff in H as [H1 H2].
  apply Z.ltb_ge in H1, H2.
  pose proof (Uint32_bound v) as B.
  cbn [Decoder.drain]. unfold slice_len. cbn [visible].
  destruct (Z.leb_spec 12 (Z.of_nat (List.length v))); [|lia]. cbn [negb].
  destruct (Z.ltb_spec (Z.of_nat (List.length v)) 4); [lia|].
  destruct (Z.ltb_spec (Z.of_nat (List.length v)) (Uint32 v)); [lia|].
  set (T := Z.to_nat (Uint32 v)).
  assert (List.length (take T v) = T) as Lt by (rewrite length_take; lia).
  pose proof (reslice_prefix (take T v) (drop T v) s) as R1.
  pose proof (reslice_suffix (take T v) (drop T v) s) as R2.
  rewrite take_drop, Lt in R1, R2. unfold slice_len in R2. cbn [visible] in R2.
  replace (Z.of_nat T) with (Uint32 v) in R1, R2 by lia.
  rewrite R1, R2. reflexivity.
Qed.

Lemma Uint32_app (v w : list byte) :
  4 <= Z.of_nat (List.length v) -> Uint32 (v ++ w) = Uint32 v.
Proof. intros H. unfold Uint32. rewrite !byte_at_app_l by lia. reflexivity. Qed.

Lemma Uint32_take (n : nat) (v : list byte) :
  (4 <= n)%nat -> Uint32 (take n v) = Uint32 v.
Proof.
  intros H. unfold Uint32, byte_at. rewrite !lookup_take_lt by lia. reflexivity.
Qed.

(** What lies behind a slice that holds one frame, or too little for one,
    does not matter to [ParseMessage]. *)
Lemma ParseMessage_slack (a s1 s2 : list byte) :
  Z.of_nat (List.length a) < 16 \/ Uint32 a = Z.of_nat (List.length a) ->
  ParseMessage {| visible := a; slack := s1 |}
  = ParseMessage {| visible := a; slack := s2 |}.
Proof.
  intros H. destruct (Z.lt_ge_cases (Z.of_nat (List.length a)) 16) as [Hs|Hl].
  - unfold Decoder.ParseMessage, slice_len. cbn [visible].
    destruct (Z.ltb_spec (Z.of_nat (List.length a)) 16); [reflexivity|lia].
  - destruct H as [H|H]; [lia|].
    rewrite !ParseMessage_whole_frame by (unfold slice_len; cbn [visible]; lia).
    reflexivity.
Qed.

(** The frame the inner loop cuts off a buffer that holds one. *)
Lemma cut_frame_slack (v s1 s2 : list byte) :
  incomplete v = false ->
  ParseMessage {| visible := take (Z.to_nat (Uint32 v)) v; slack := s1 |}
  = ParseMessage {| visible := take (Z.to_nat (Uint32 v)) v; slack := s2 |}.
Proof.
  unfold incomplete. intros H. apply orb_false_iff in H as [H1 H2].
  apply Z.ltb_ge in H1, H2. pose proof (Uint32_bound v) as B.
  apply ParseMessage_slack. rewrite length_take.
  destruct (Z.lt_ge_cases (Uint32 v) 16) as [Hs|Hl]; [left; lia|right].
  rewrite Uint32_take by lia. lia.
Qed.

Lemma drain_slack (fuel : nat) :
  forall v s1 s2 sent R,
    ends (drain fuel {| visible := v; slack := s1 |} sent) R ->
    ends (drain fuel {| visible := v; slack := s2 |} sent) R.
Proof.
  induction fuel as [|fuel IH]; intros v s1 s2 sent R.
  - cbn [Decoder.drain]. unfold slice_len. cbn [visible].
    destruct (negb (12 <=? Z.of_nat (List.length v))); exact (fun H => H).
  - destruct (incomplete v) eqn:E.
    + rewrite !drain_incomplete by exact E. exact (fun H => H).
    + rewrite !drain_complete by exact E.
      rewrite (cut_frame_slack v _ (drop (Z.to_nat (Uint32 v)) v ++ s2) E).
      destruct (ParseMessage _); [apply IH|apply IH|exact (fun H => H)].
Qed.

Lemma drain_mono (fuel : nat) :
  forall v s sent R,
    ends (drain fuel {| visible := v; slack := s |} sent) R ->
    ends (drain (S fuel) {| visible := v; slack := s |} sent) R.
Proof.
  induction fuel as [|fuel IH]; intros v s sent R.
  - cbn [Decoder.drain]. unfold slice_len. cbn [visible].
    destruct (Z.leb_spec 12 (Z.of_nat (List.length v))); cbn [negb];
      [intros []|exact (fun H => H)].
  - destruct (incomplete v) eqn:E.
    + rewrite !drain_incomplete by exact E. exact (fun H => H).
    + rewrite (drain_complete (S fuel)), (drain_complete fuel) by exact E.
      destruct (ParseMessage _); [apply IH|apply IH|exact (fun H => H)].
Qed.

(** Bytes that arrive later do not change what the inner loop makes of the
    bytes it has: it either stops on the same incomplete rest, from which
    the later bytes are decoded as they would have been, or panics on the
    same frame. *)
Lemma drain_split (fuel : nat) :
  forall v w s s' sent R,
    ends (drain fuel {| visible := v ++ w; slack := s |} sent) R ->
    (exists r s'' sent',
       drain fuel {| visible := v; slack := s' |} sent
       = Drained {| visible := r; slack := s'' |} sent'
       /\ incomplete r = true
       /\ forall s3, ends (drain fuel {| visible := r ++ w; slack := s3 |} sent') R)
    \/ (exists sent',
          drain fuel {| visible := v; slack := s' |} sent = DrainPanicked sent'
          /\ R = StreamPanicked sent').
Proof.
  induction fuel as [|fuel IH]; intros v w s s' sent R H.
  - left. exists v, s', sent.
    cbn [Decoder.drain] in *. unfold slice_len in *. cbn [visible] in *.
    rewrite length_app in H.
    destruct (Z.leb_spec 12 (Z.of_nat (List.length v + List.length w)));
      cbn [negb] in H; [destruct H|].
    destruct (Z.leb_spec 12 (Z.of_nat (List.length v))); [lia|]. cbn [negb].
    split; [reflexivity|]. split.
    + unfold incomplete. apply orb_true_iff. left. apply Z.ltb_lt. lia.
    + intros s3. rewrite length_app.
      destruct (Z.leb_spec 12 (Z.of_nat (List.length v + List.length w))); [lia|].
      exact H.
  - destruct (incomplete v) eqn:E.
    { left. exists v, s', sent.
      split; [apply drain_incomplete, E|]. split; [exact E|].
      intros s3. exact (drain_slack _ _ _ _ _ _ H). }
    pose proof E as E'. unfold incomplete in E'. apply orb_false_iff in E' as [H1 H2].
    apply Z.ltb_ge in H1, H2. pose proof (Uint32_bound v) as B.
    assert (incomplete (v ++ w) = false) as Ew.
    { unfold incomplete. rewrite Uint32_app, length_app by lia.
      apply orb_false_iff. split; apply Z.ltb_ge; lia. }
    rewrite drain_complete in H by exact Ew.
    rewrite Uint32_app in H by lia.
    rewrite take_app_le, drop_app_le in H by lia.
    rewrite (cut_frame_slack v _ (drop (Z.to_nat (Uint32 v)) v ++ s') E) in H.
    rewrite (drain_complete fuel) by exact E.
    destruct (ParseMessage _) as [m|err|].
    + destruct (IH _ _ _ s' _ _ H) as [(r & s'' & sent' & Hd & Hi & Hr)|(sent' & Hd & Hr)].
      * left. exists r, s'', sent'. split; [exact Hd|]. split; [exact Hi|].
        intros s3. apply drain_mono, Hr.
      * right. exists sent'. split; assumption.
    + destruct (IH _ _ _ s' _ _ H) as [(r & s'' & sent' & Hd & Hi & Hr)|(sent' & Hd & Hr)].
      * left. exists r, s'', sent'. split; [exact Hd|]. split; [exact Hi|].
        intros s3. apply drain_mono, Hr.
      * right. exists sent'. split; assumption.
    + right. eexists. split; [reflexivity|exact H].
Qed.

(** The reads of a reader that delivers the chunks one by one, the last of
    them together with EOF. *)
Definition reads_of (chunks : list (list byte)) (last : list byte)
  : list (list byte * ReadError) :=
  map (fun chunk => (chunk, NoError)) chunks ++ [(last, EOF)].

Definition stuck (R : StreamEnd) : bool :=
  match R with StreamStuck _ => true | _ => false end.

Lemma append_visible (buffer : Slice) (chunk : list byte) :
  exists s, append spare_capacity buffer chunk
            = {| visible := visible buffer ++ chunk; slack := s |}.
Proof.
  unfold append. destruct (List.length chunk <=? List.length (slack buffer))%nat; eauto.
Qed.

Lemma ParseStream_loop_chunks (fuel : nat) (last : list byte) :
  forall chunks r s sent R,
    incomplete r = true ->
    (forall s0, ends (drain (S fuel)
                        {| visible := r ++ concat chunks ++ last; slack := s0 |} sent) R) ->
    ParseStream_loop json_Unmarshal spare_capacity (S fuel) (reads_of chunks last)
      {| visible := r; slack := s |} sent
    = R.
Proof.
  induction chunks as [|c chunks IH]; intros r s sent R Hr H.
  - unfold reads_of. cbn [map app concat Decoder.ParseStream_loop] in *.
    destruct (0 <? List.length last)%nat eqn:El.
    + destruct (append_visible {| visible := r; slack := s |} last) as [s1 ->].
      cbn [visible]. specialize (H s1).
      destruct (drain _ _ _); cbn [ends] in H; [symmetry; exact H..|destruct H].
    + destruct last; [|discriminate El]. specialize (H s).
      rewrite app_nil_r, drain_incomplete in H by exact Hr.
      symmetry. exact H.
  - unfold reads_of. cbn [map app Decoder.ParseStream_loop]. fold (reads_of chunks last).
    cbn [concat] in H.
    destruct (0 <? List.length c)%nat eqn:Ec.
    + destruct (append_visible {| visible := r; slack := s |} c) as [s1 ->].
      cbn [visible].
      assert (ends (drain (S fuel)
                      {| visible := (r ++ c) ++ concat chunks ++ last; slack := s1 |} sent) R)
        as H1 by (rewrite <- !app_assoc; rewrite <- app_assoc in H; apply H).
      destruct (drain_split _ _ _ _ s1 _ _ H1)
        as [(r' & s'' & sent' & -> & Hi & Hn)|(sent' & -> & ->)]; [|reflexivity].
      apply IH; assumption.
    + destruct c; [|discriminate Ec]. cbn [app] in H. apply IH; assumption.
Qed.

(** X16.  How the upstream bytes are split across reads does not matter:
    when [ParseStream] gets through the bytes delivered in one read, it
    ends in the same way, with the same messages sent in the same order,
    when the reader delivers them in any number of chunks. *)
Theorem ParseStream_is_independent_of_chunking (fuel : nat) (chunks : list (list byte))
    (last : list byte) (R : StreamEnd) :
  ParseStream json_Unmarshal spare_capacity (S fuel) [(concat chunks ++ last, EOF)] = R ->
  stuck R = false ->
  ParseStream json_Unmarshal spare_capacity (S fuel) (reads_of chunks last) = R.
Proof.
  intros H Hs. unfold Decoder.ParseStream in *.
  apply ParseStream_loop_chunks; [reflexivity|]. cbn [app].
  cbn [Decoder.ParseStream_loop] in H.
  destruct (0 <? List.length (concat chunks ++ last))%nat eqn:El.
  - destruct (append_visible {| visible := []; slack := [] |} (concat chunks ++ last))
      as [s1 E]. rewrite E in H. cbn [visible app] in H.
    intros s0. apply (drain_slack _ _ s1).
    destruct (drain _ _ _); cbn [ends]; try (symmetry; exact H).
    subst R. discriminate Hs.
  - destruct (concat chunks ++ last); [|discriminate El].
    intros s0. rewrite drain_incomplete by reflexivity. symmetry. exact H.
Qed.

(** A well-formed frame: what it is made of, and that its total length fits
    the length field. *)
Record Frame : Type := mkFrame {
  frame_headers : list byte;
  frame_payload : list byte;
  frame_preludeCRC : list byte;
  frame_messageCRC : list byte
}.

Definition frame_bytes (f : Frame) : list byte :=
  frame (frame_headers f) (frame_payload f) (frame_preludeCRC f) (frame_messageCRC f).

Definition well_formed (f : Frame) : Prop :=
  List.length (frame_preludeCRC f) = 4%nat
  /\ List.length (frame_messageCRC f) = 4%nat
  /\ 16 + Z.of_nat (List.length (frame_headers f))
     + Z.of_nat (List.length (frame_payload f)) < 4294967296.

Lemma drain_frames (frames : list Frame) :
  forall fuel s sent,
    Forall well_formed frames -> (List.length frames <= fuel)%nat ->
    drain (S fuel) {| visible := concat (map frame_bytes frames); slack := s |} sent
    = Drained {| visible := []; slack := s |}
        (sent ++ map (fun f => message_of (frame_headers f) (frame_payload f)) frames).
Proof.
  induction frames as [|f frames IH]; intros fuel s sent Hw Hf.
  - cbn [map concat]. rewrite app_nil_r. apply drain_incomplete. reflexivity.
  - destruct fuel as [|fuel]; [cbn in Hf; lia|].
    apply Forall_cons in Hw as [(H1 & H2 & H3) Hw].
    cbn [map concat].
    pose proof (length_frame (frame_headers f) (frame_payload f) _ _ H1 H2) as Lf.
    fold (frame_bytes f) in Lf.
    assert (Uint32 (frame_bytes f) = Z.of_nat (List.length (frame_bytes f))) as Ut.
    { rewrite Lf. unfold frame_bytes, frame. apply Uint32_be32. lia. }
    assert (Uint32 (frame_bytes f ++ concat (map frame_bytes frames))
            = Z.of_nat (List.length (frame_bytes f))) as Ua
      by (rewrite Uint32_app by lia; exact Ut).
    rewrite drain_complete.
    + rewrite Ua, Nat2Z.id, take_app_length, drop_app_length.
      unfold frame_bytes at 1. decode_frame H1 H2 H3.
      fold (message_of (frame_headers f) (frame_payload f)).
      rewrite IH by (try assumption; cbn in Hf; lia).
      rewrite <- app_assoc. reflexivity.
    + unfold incomplete. rewrite Ua, length_app.
      apply orb_false_iff. split; apply Z.ltb_ge; lia.
Qed.

(** X17.  A stream of well-formed frames is decoded into their messages,
    in order and with nothing added or left out, however the reader splits
    the bytes across reads. *)
Theorem ParseStream_decodes_every_frame (fuel : nat) (frames : list Frame)
    (chunks : list (list byte)) (last : list byte) :
  Forall well_formed frames ->
  (List.length frames <= fuel)%nat ->
  concat chunks ++ last = concat (map frame_bytes frames) ->
  ParseStream json_Unmarshal spare_capacity (S fuel) (reads_of chunks last)
  = StreamDone (map (fun f => message_of (frame_headers f) (frame_payload f)) frames).
Proof.
  intros Hw Hf Hb. unfold Decoder.ParseStream.
  apply ParseStream_loop_chunks; [reflexivity|]. cbn [app]. intros s0.
  rewrite Hb, drain_frames by assumption. reflexivity.
Qed.

(** X18.  A frame that declares a total length between 4 and 15 is dropped
    without a word: the inner loop of [ParseStream] takes its bytes off the
    buffer, [ParseMessage] rejects them as too short, and the loop goes on
    with what follows. *)
Theorem drain_skips_a_short_frame (fuel : nat) (short rest s : list byte)
    (sent : list EventStreamMessage) :
  4 <= Z.of_nat (List.length short) < 16 ->
  Uint32 short = Z.of_nat (List.length short) ->
  12 <= Z.of_nat (List.length (short ++ rest)) ->
  drain (S fuel) {| visible := short ++ rest; slack := s |} sent
  = drain fuel {| visible := rest; slack := s |} sent.
Proof.
  intros Hl Hu Hb.
  assert (Uint32 (short ++ rest) = Z.of_nat (List.length short)) as Ua
    by (rewrite Uint32_app by lia; exact Hu).
  rewrite drain_complete.
  - rewrite Ua, Nat2Z.id, take_app_length, drop_app_length.
    unfold Decoder.ParseMessage, slice_len. cbn [visible].
    destruct (Z.ltb_spec (Z.of_nat (List.length short)) 16); [reflexivity|lia].
  - unfold incomplete. rewrite Ua.
    apply orb_false_iff. split; apply Z.ltb_ge; [lia|rewrite length_app; lia].
Qed.

End FrameProperties.

(** *** Instances

    A decoder that rejects every payload, so that payloads come out as raw
    text, and a run time that gives [append] no spare capacity. *)
Definition no_Unmarshal (payloadData : list byte) : option JSON := None.
Definition no_spare (n : nat) : nat := O.

Definition sample_headers : list (string * byte * string) :=
  [ (":event-type"%string, x07, "assistantResponseEvent"%string);
    (":content-type"%string, x07, "application/json"%string) ].

Definition sample_frame : Frame :=
  {| frame_headers := encode_headers sample_headers;
     frame_payload := list_byte_of_string "{}";
     frame_preludeCRC := [x00; x00; x00; x00];
     frame_messageCRC := [x00; x00; x00; x00] |}.

Definition empty_frame : Frame :=
  {| frame_headers := [];
     frame_payload := [];
     frame_preludeCRC := [x01; x02; x03; x04];
     frame_messageCRC := [x05; x06; x07; x08] |}.

(** An instance of [ParseHeaders_decodes_encoded_headers]. *)
Lemma ParseHeaders_witness :
  ParseHeaders (encode_headers sample_headers)
  = <[":content-type"%string := "application/json"%string]>
      (<[":event-type"%string := "assistantResponseEvent"%string]> ∅).
Proof.
  apply (ParseHeaders_decodes_encoded_headers sample_headers).
  repeat constructor.
Defined.

(** An instance of [ParseMessage_panics_iff_headers_overrun]: the empty
    frame, whose headers end at byte 12. *)
Lemma ParseMessage_panics_witness :
  (12 <= headers_end (frame_bytes empty_frame) <= 16 - 4 ->
   exists message,
     ParseMessage no_Unmarshal {| visible := frame_bytes empty_frame; slack := [] |}
     = Returned message
     /\ TotalLength message = 16)
  /\ (~ 12 <= headers_end (frame_bytes empty_frame) <= 16 - 4 ->
      ParseMessage no_Unmarshal {| visible := frame_bytes empty_frame; slack := [] |}
      = Panicked).
Proof.
  apply (ParseMessage_panics_iff_headers_overrun no_Unmarshal
           {| visible := frame_bytes empty_frame; slack := [] |}).
  - vm_compute. intros H; discriminate H.
  - reflexivity.
Defined.

(** An instance of [ParseMessage_decodes_a_frame]: the payload does not
    decode and comes out as raw text. *)
Lemma ParseMessage_frame_witness :
  ParseMessage no_Unmarshal {| visible := frame_bytes sample_frame; slack := [x00] |}
  = Returned {| Headers := ParseHeaders (encode_headers sample_headers);
                Payload := JStr "{}";
                TotalLength := 88 |}.
Proof.
  exact (ParseMessage_decodes_a_frame no_Unmarshal (encode_headers sample_headers)
           (list_byte_of_string "{}") [x00; x00; x00; x00] [x00; x00; x00; x00] [x00]
           eq_refl eq_refl eq_refl).
Defined.

(** An instance of [ParseStream_is_independent_of_chunking]: the sample
    frame cut after five bytes. *)
Lemma ParseStream_chunking_witness :
  ParseStream no_Unmarshal no_spare 2
    (reads_of [take 5 (frame_bytes sample_frame)] (drop 5 (frame_bytes sample_frame)))
  = StreamDone [message_of no_Unmarshal (encode_headers sample_headers)
                  (list_byte_of_string "{}")].
Proof.
  apply (ParseStream_is_independent_of_chunking no_Unmarshal no_spare 1
           [take 5 (frame_bytes sample_frame)] (drop 5 (frame_bytes sample_frame))).
  - vm_compute. reflexivity.
  - reflexivity.
Defined.

(** An instance of [ParseStream_decodes_every_frame]: two frames in three
    reads, the cuts falling inside the frames. *)
Lemma ParseStream_frames_witness :
  ParseStream no_Unmarshal no_spare 3
    (reads_of [ take 5 (frame_bytes sample_frame);
                drop 5 (frame_bytes sample_frame) ++ take 9 (frame_bytes empty_frame) ]
              (drop 9 (frame_bytes empty_frame)))
  = StreamDone [ message_of no_Unmarshal (encode_headers sample_headers)
                   (list_byte_of_string "{}");
                 message_of no_Unmarshal [] [] ].
Proof.
  apply (ParseStream_decodes_every_frame no_Unmarshal no_spare 2
           [sample_frame; empty_frame]).
  - repeat constructor.
  - cbn. lia.
  - vm_compute. reflexivity.
Defined.

(** An instance of [drain_skips_a_short_frame]: five bytes that declare a
    total length of 5, in front of the sample frame. *)
Lemma drain_short_frame_witness :
  drain no_Unmarshal 2
    {| visible := [x00; x00; x00; x05; xff] ++ frame_bytes sample_frame; slack := [] |} []
  = drain no_Unmarshal 1 {| visible := frame_bytes sample_frame; slack := [] |} [].
Proof.
  apply (drain_skips_a_short_frame no_Unmarshal 1 [x00; x00; x00; x05; xff]).
  - cbn. lia.
  - reflexivity.
  - vm_compute. intros H; discriminate H.
Defined.

End Decoder.

(** ** The pipeline from decoded messages to outgoing events
       ([ProcessEventStream]) *)

Module Client.

Import Decoder Streaming.

Section WithRuntime.

Variable GenerateMessageID : string.
Variable json_Marshal : JSON -> string.

(** The loop over the decoded messages: a message whose event type is
    empty is passed over, every other one goes to [HandleEvent]; [Finish]
    comes last. *)
Fixpoint handle_messages (handler : ClaudeStreamHandler) (messages : list EventStreamMessage)
  : Run :=
  match messages with
  | [] => (handler, [])
  | message :: rest =>
      let eventInfo := ExtractEventInfo message in
      let '(handler, sseEvents) :=
        if negb (String.eqb (EventType eventInfo) "")
        then HandleEvent GenerateMessageID json_Marshal handler
               (EventType eventInfo) (InfoPayload eventInfo)
        else (handler, []) in
      let '(handler, later) := handle_messages handler rest in
      (handler, sseEvents ++ later)
  end.

Definition ProcessEventStream (messages : list EventStreamMessage)
    (handler : ClaudeStreamHandler) : list SSEEvent :=
  let '(handler, sent) := handle_messages handler messages in
  sent ++ snd (Finish handler).

(** The classified events the handler gets to see. *)
Definition classified (messages : list EventStreamMessage) : list Classified :=
  map (fun m => (EventType (ExtractEventInfo m), InfoPayload (ExtractEventInfo m)))
      (List.filter (fun m => negb (String.eqb (EventType (ExtractEventInfo m)) ""))
                   messages).

Lemma handle_messages_is_feed (messages : list EventStreamMessage) :
  forall handler,
    handle_messages handler messages
    = feed GenerateMessageID json_Marshal handler (classified messages).
Proof.
  induction messages as [|m messages IH]; intros handler; [reflexivity|].
  cbn [handle_messages]. unfold classified. cbn [List.filter].
  destruct (negb (String.eqb (EventType (ExtractEventInfo m)) "")); cbn [map feed].
  - destruct (HandleEvent _ _ handler _ _) as [h1 out1].
    rewrite IH. reflexivity.
  - rewrite IH. fold (classified messages).
    destruct (feed _ _ handler (classified messages)); reflexivity.
Qed.

(** [ProcessEventStream] on a fresh handler is a run of the handler over
    the classified events. *)
Lemma ProcessEventStream_is_run (messages : list EventStreamMessage) (model : string)
    (inputTokens : Z) :
  ProcessEventStream messages (NewClaudeStreamHandler model inputTokens)
  = run GenerateMessageID json_Marshal model inputTokens (classified messages).
Proof.
  unfold ProcessEventStream, run. rewrite handle_messages_is_feed. reflexivity.
Qed.

(** X19.  A decoded message that carries neither an [:event-type] nor an
    [event-type] header never reaches the stream handler: the events sent
    to the client are those of the stream without it. *)
Theorem message_without_event_type_is_skipped
    (before : list EventStreamMessage) (message : EventStreamMessage)
    (after : list EventStreamMessage) (handler : ClaudeStreamHandler) :
  header (Headers message) ":event-type" = EmptyString ->
  header (Headers message) "event-type" = EmptyString ->
  ProcessEventStream (before ++ message :: after) handler
  = ProcessEventStream (before ++ after) handler.
Proof.
  intros H1 H2.
  assert (EventType (ExtractEventInfo message) = EmptyString) as E.
  { unfold ExtractEventInfo. cbn [EventType]. rewrite H1, H2. reflexivity. }
  unfold ProcessEventStream. rewrite !handle_messages_is_feed.
  unfold classified. rewrite !List.filter_app. cbn [List.filter].
  rewrite E. reflexivity.
Qed.

End WithRuntime.

(** An instance of [message_without_event_type_is_skipped]: a message with
    no headers at all, in front of nothing. *)
Lemma message_without_event_type_witness :
  ProcessEventStream Streaming.sample_id Streaming.sample_Marshal
    ([] ++ {| Headers := ∅; Payload := JObj ∅; TotalLength := 16 |} :: [])
    (NewClaudeStreamHandler "m" 0)
  = ProcessEventStream Streaming.sample_id Streaming.sample_Marshal
      ([] ++ []) (NewClaudeStreamHandler "m" 0).
Proof.
  apply message_without_event_type_is_skipped; reflexivity.
Defined.

(** *** Upstream request headers ([mergeHeaders]) *)

(** [mergeHeaders]; [invocationID] is the identifier [uuid.New().String()]
    draws. *)
Definition mergeHeaders (baseHeaders : gmap string string) (bearerToken : string)
    (invocationID : string) : gmap string string :=
  let headers := baseHeaders in
  let headers := delete "content-length" headers in
  let headers := delete "host" headers in
  let headers := delete "connection" headers in
  let headers := delete "transfer-encoding" headers in
  let headers := <["Authorization" := "Bearer " +:+ bearerToken]> headers in
  let headers := <["amz-sdk-invocation-id" := invocationID]> headers in
  headers.

Definition hop_by_hop : list string :=
  [ "content-length"; "host"; "connection"; "transfer-encoding" ]%string.

(** X30.  The headers sent upstream carry the bearer token and the
    invocation id, whatever the base headers hold under these names; the
    four names that must not be passed on are absent; every other base
    header is passed on unchanged, among them a [Host] or [Connection]
    spelled with a capital, since the names are compared as they are. *)
Theorem mergeHeaders_lookup (baseHeaders : gmap string string)
    (bearerToken invocationID : string) :
  let headers := mergeHeaders baseHeaders bearerToken invocationID in
  headers !! "Authorization" = Some ("Bearer " +:+ bearerToken)
  /\ headers !! "amz-sdk-invocation-id" = Some invocationID
  /\ (forall k, In k hop_by_hop -> headers !! k = None)
  /\ (forall k, ~ In k hop_by_hop -> k <> "Authorization"%string ->
                k <> "amz-sdk-invocation-id"%string ->
                headers !! k = baseHeaders !! k).
Proof.
  cbv zeta. unfold mergeHeaders, hop_by_hop. repeat split.
  - rewrite lookup_insert_ne by discriminate. apply lookup_insert_eq.
  - apply lookup_insert_eq.
  - intros k Hk. rewrite !lookup_insert_ne
      by (intros <-; cbn in Hk; intuition discriminate).
    cbn in Hk. destruct Hk as [<-|[<-|[<-|[<-|[]]]]];
      repeat first [apply lookup_delete_eq | rewrite lookup_delete_ne by discriminate].
  - intros k Hk Ha Hi. cbn in Hk.
    rewrite !lookup_insert_ne by congruence.
    rewrite !lookup_delete_ne by (intros <-; apply Hk; auto).
    reflexivity.
Qed.

End Client.

(** ** The non-streaming aggregator (handleClaudeMessages, [else] branch) *)

Module Aggregator.

(** The three variables of the aggregation loop.  [finalContent] is the
    sparse list of blocks, [JNull] standing for a nil slot. *)
Record Aggregate : Type := mkAggregate {
  finalContent : list JSON;
  usage : gmap string Z;
  stopReason : option string
}.

Definition set_finalContent (v : list JSON) (a : Aggregate) : Aggregate :=
  {| finalContent := v; usage := usage a; stopReason := stopReason a |}.

Definition initial : Aggregate :=
  {| finalContent := [];
     usage := <["input_tokens" := 0]> (<["output_tokens" := 0]> ∅);
     stopReason := None |}.

(** [for len(finalContent) <= idx { finalContent = append(finalContent, nil) }] *)
Definition pad (content : list JSON) (idx : Z) : list JSON :=
  content ++ replicate (Z.to_nat (idx + 1) - List.length content) JNull.

(** [finalContent[idx]]; [None] is the run-time panic "index out of range". *)
Definition at_index (content : list JSON) (idx : Z) : option JSON :=
  if idx <? 0 then None else content !! Z.to_nat idx.

(** [for k, v := range usageData { if val, ok := v.(float64); ok { usage[k] = int(val) } }] *)
Definition merge_usage (usageData : gmap string JSON) (usage : gmap string Z)
  : gmap string Z :=
  map_fold (fun k v acc => match v with JNum n => <[k := n]> acc | _ => acc end)
    usage usageData.

Section WithJSON.

(** [json.Unmarshal] of a text: [None] is a syntax error. *)
Variable json_Unmarshal : string -> option JSON.

(** [json.Unmarshal([]byte(text), &input)] for [var input
    map[string]interface{}]: [Some input] when [err == nil].  A JSON object
    is stored; JSON [null] is accepted and leaves [input] the nil map, which
    renders as [null]; any other value is a type error. *)
Definition Unmarshal_object (text : string) : option JSON :=
  match json_Unmarshal text with
  | Some (JObj fields) => Some (JObj fields)
  | Some JNull => Some JNull
  | _ => None
  end.

(** The body of [if dtype == "content_block_stop" { ... }], lines 402-415,
    on the block found at [idx]. *)
Definition close_block (block : gmap string JSON) : gmap string JSON :=
  if is_str (get_value block "type") "tool_use" then
    match block !! "partial_json" with
    | Some (JStr partialJSON) =>
        let block :=
          match Unmarshal_object partialJSON with
          | Some input => <["input" := input]> block
          | None => block
          end in
        delete "partial_json" block
    | _ => block
    end
  else block.

(** The body of the [content_block_delta] branch on the block found at
    [idx], lines 389-400. *)
Definition merge_delta (delta block : gmap string JSON) : gmap string JSON :=
  if is_str (get_value delta "type") "text_delta" then
    match delta !! "text" with
    | Some (JStr text) => <["text" := JStr (String.append (get_string block "text") text)]> block
    | _ => block
    end
  else if is_str (get_value delta "type") "input_json_delta" then
    match delta !! "partial_json" with
    | Some (JStr partialJSON) =>
        <["partial_json" := JStr (String.append (get_string block "partial_json") partialJSON)]>
          block
    | _ => block
    end
  else block.

(** One pass of the loop [for sseEvent := range sseChan], from the decoded
    [data] on, lines 378-429.  [None] is a run-time panic: a failed type
    assertion or an index out of range. *)
Definition step (a : Aggregate) (data : gmap string JSON) : option Aggregate :=
  let dtype := get_string data "type" in
  if String.eqb dtype "content_block_start" then
    match data !! "index" with
    | Some (JNum idx) =>
        let content := pad (finalContent a) idx in
        match at_index content idx with
        | Some _ =>
            Some (set_finalContent
                    (<[Z.to_nat idx := get_value data "content_block"]> content) a)
        | None => None
        end
    | _ => None
    end
  else if String.eqb dtype "content_block_delta" then
    match data !! "index", data !! "delta" with
    | Some (JNum idx), Some (JObj delta) =>
        match at_index (finalContent a) idx with
        | Some JNull => Some a
        | Some (JObj block) =>
            Some (set_finalContent
                    (<[Z.to_nat idx := JObj (merge_delta delta block)]> (finalContent a)) a)
        | _ => None
        end
    | _, _ => None
    end
  else if String.eqb dtype "content_block_stop" then
    match data !! "index" with
    | Some (JNum idx) =>
        match at_index (finalContent a) idx with
        | Some JNull => Some a
        | Some (JObj block) =>
            Some (set_finalContent
                    (<[Z.to_nat idx := JObj (close_block block)]> (finalContent a)) a)
        | _ => None
        end
    | _ => None
    end
  else if String.eqb dtype "message_delta" then
    let usage :=
      match data !! "usage" with
      | Some (JObj usageData) => merge_usage usageData (usage a)
      | _ => usage a
      end in
    let stopReason :=
      match data !! "delta" with
      | Some (JObj delta) =>
          match delta !! "stop_reason" with
          | Some (JStr sr) => Some sr
          | _ => stopReason a
          end
      | _ => stopReason a
      end in
    Some {| finalContent := finalContent a; usage := usage; stopReason := stopReason |}
  else Some a.

(** The loop over the outgoing events.  The text of an event is read back
    as the payload [FormatSSE] rendered; a payload that is not an object is
    passed over, as the failed [json.Unmarshal] into a map is. *)
Fixpoint aggregate (a : Aggregate) (events : list SSEEvent) : option Aggregate :=
  match events with
  | [] => Some a
  | sseEvent :: rest =>
      match Data sseEvent with
      | JObj data =>
          match step a data with
          | Some a => aggregate a rest
          | None => None
          end
      | _ => aggregate a rest
      end
  end.

(** [filteredContent]: the slots that are not nil, in order. *)
Definition filteredContent (a : Aggregate) : list JSON :=
  List.filter (fun item => negb (is_nil_value item)) (finalContent a).

(** The content of the consolidated response for a sequence of outgoing
    events; [None] when the handler panics. *)
Definition response_content (events : list SSEEvent) : option (list JSON) :=
  match aggregate initial events with
  | Some a => Some (filteredContent a)
  | None => None
  end.

End WithJSON.

(** *** Properties of the aggregator *)

Section AggregatorProperties.

Variable json_Unmarshal : string -> option JSON.

(** What [close_block] does to a tool block that has an input buffer: the
    buffer goes, parsed or not; [input] changes only when the buffer parses;
    every other key stays. *)
Lemma close_block_tool_use (block : gmap string JSON) (raw : string) :
  is_str (get_value block "type") "tool_use" = true ->
  block !! "partial_json" = Some (JStr raw) ->
  close_block json_Unmarshal block !! "partial_json" = None
  /\ close_block json_Unmarshal block !! "input"
     = match Unmarshal_object json_Unmarshal raw with
       | Some input => Some input
       | None => block !! "input"
       end
  /\ forall k, k <> "partial_json"%string -> k <> "input"%string ->
       close_block json_Unmarshal block !! k = block !! k.
Proof.
  intros Ht Hp. unfold close_block. rewrite Ht, Hp.
  destruct (Unmarshal_object json_Unmarshal raw) as [input|].
  - split; [apply lookup_delete_eq|]. split.
    + rewrite lookup_delete_ne by discriminate. apply lookup_insert_eq.
    + intros k K1 K2. rewrite lookup_delete_ne by congruence.
      apply lookup_insert_ne. congruence.
  - split; [apply lookup_delete_eq|]. split.
    + apply lookup_delete_ne. discriminate.
    + intros k K1 K2. apply lookup_delete_ne. congruence.
Qed.

(** C4, as amended.  When a [content_block_stop] arrives for a [tool_use]
    block that holds an input buffer, the response does not fail and the
    buffer is removed from the block whether or not it parses; the block's
    [input] is replaced by the parsed value when the buffer parses, and keeps
    the value it had when it does not; no other key of the block changes. *)
Theorem content_block_stop_drops_the_input_buffer
    (a : Aggregate) (data : gmap string JSON) (idx : Z)
    (block : gmap string JSON) (raw : string) :
  get_string data "type" = "content_block_stop"%string ->
  data !! "index" = Some (JNum idx) ->
  0 <= idx ->
  finalContent a !! Z.to_nat idx = Some (JObj block) ->
  is_str (get_value block "type") "tool_use" = true ->
  block !! "partial_json" = Some (JStr raw) ->
  exists block',
    step json_Unmarshal a data
    = Some (set_finalContent (<[Z.to_nat idx := JObj block']> (finalContent a)) a)
    /\ block' !! "partial_json" = None
    /\ block' !! "input"
       = match Unmarshal_object json_Unmarshal raw with
         | Some input => Some input
         | None => block !! "input"
         end
    /\ forall k, k <> "partial_json"%string -> k <> "input"%string ->
         block' !! k = block !! k.
Proof.
  intros Hty Hidx Hpos Hblock Htool Hraw.
  exists (close_block json_Unmarshal block). split.
  - unfold step. rewrite Hty, Hidx. cbn.
    unfold at_index. destruct (Z.ltb_spec idx 0); [lia|].
    rewrite Hblock. reflexivity.
  - apply close_block_tool_use; assumption.
Qed.

End AggregatorProperties.

(** *** A concrete response

    A text decoder for the closed examples: it knows the empty object and
    rejects every other text, among them the broken input used below, which
    [json.Unmarshal] rejects as well. *)
Definition sample_Unmarshal (text : string) : option JSON :=
  if String.eqb text "{}" then Some (JObj ∅) else None.

(** A tool call whose whole input, ["{oops"], arrives in one event that
    also carries the stop flag. *)
Definition broken_tool_call : Streaming.Classified :=
  ("toolUseEvent"%string,
   obj [ ("toolUseId", JStr "t1"); ("name", JStr "lookup");
         ("input", JStr "{oops"); ("stop", JBool true) ]).

(** Some block of the content holds [raw] as its input buffer. *)
Definition retains_raw_input (content : list JSON) (raw : string) : Prop :=
  exists block, In (JObj block) content /\ block !! "partial_json" = Some (JStr raw).

(** C4, as stated, fails: the response built for the broken tool call has
    one block, with the empty input it was opened with and no trace of the
    raw text. *)
Lemma failed_tool_input_is_discarded :
  let events := Streaming.run Streaming.sample_id Streaming.sample_Marshal "m" 0
                  [Streaming.initial_response; broken_tool_call] in
  response_content sample_Unmarshal events
  = Some [ obj [ ("type", JStr "tool_use"); ("id", JStr "t1");
                 ("name", JStr "lookup"); ("input", obj []) ] ]
  /\ ~ retains_raw_input
         [ obj [ ("type", JStr "tool_use"); ("id", JStr "t1");
                 ("name", JStr "lookup"); ("input", obj []) ] ]
         "{oops".
Proof.
  cbv zeta. split; [vm_compute; reflexivity|].
  intros (block & [E|[]] & H). injection E as <-. vm_compute in H. discriminate H.
Qed.

(** An instance of [content_block_stop_drops_the_input_buffer]: a tool
    block whose buffer holds the broken input. *)
Lemma content_block_stop_witness :
  let block : gmap string JSON :=
    list_to_map [ ("type", JStr "tool_use"); ("id", JStr "t1"); ("name", JStr "lookup");
                  ("input", obj []); ("partial_json", JStr "{oops") ] in
  let a := set_finalContent [JObj block] initial in
  let data : gmap string JSON :=
    list_to_map [ ("type", JStr "content_block_stop"); ("index", JNum 0) ] in
  exists block',
    step sample_Unmarshal a data
    = Some (set_finalContent (<[0%nat := JObj block']> (finalContent a)) a)
    /\ block' !! "partial_json" = None
    /\ block' !! "input" = Some (obj [])
    /\ block' !! "name" = Some (JStr "lookup").
Proof.
  cbv zeta.
  destruct (content_block_stop_drops_the_input_buffer sample_Unmarshal
              (set_finalContent
                 [JObj (list_to_map
                          [ ("type", JStr "tool_use"); ("id", JStr "t1");
                            ("name", JStr "lookup"); ("input", obj []);
                            ("partial_json", JStr "{oops") ])] initial)
              (list_to_map [ ("type", JStr "content_block_stop"); ("index", JNum 0) ])
              0
              (list_to_map
                 [ ("type", JStr "tool_use"); ("id", JStr "t1");
                   ("name", JStr "lookup"); ("input", obj []);
                   ("partial_json", JStr "{oops") ])
              "{oops")
    as (block' & Hstep & Hp & Hi & Hk);
    try (vm_compute; reflexivity); [lia|].
  exists block'. split; [exact Hstep|]. split; [exact Hp|]. split.
  - rewrite Hi. vm_compute. reflexivity.
  - rewrite Hk by discriminate. vm_compute. reflexivity.
Defined.

(** *** The aggregator on the handler's output *)

Lemma typed_inv (e : SSEEvent) :
  Streaming.typed e = true ->
  exists data, Data e = JObj data /\ get_string data "type" = Event e.
Proof.
  unfold Streaming.typed, data_field.
  destruct (Data e) as [| | | | |data]; cbn; try (intros; discriminate).
  intros H. exists data. split; [reflexivity|].
  unfold get_value, get_string, is_str in *.
  destruct (data !! "type") as [[| | |s| |]|]; cbn in *; try discriminate H.
  apply String.eqb_eq in H. exact H.
Qed.

Lemma index_of_inv (e : SSEEvent) (data : gmap string JSON) (i : Z) :
  Data e = JObj data -> index_of e = Some i -> data !! "index" = Some (JNum i).
Proof.
  unfold index_of, data_field, get_value. intros ->.
  destruct (data !! "index") as [[]|]; cbn; intros [= <-]. reflexivity.
Qed.

Lemma object_field_inv (e : SSEEvent) (data : gmap string JSON) (k : string) :
  Data e = JObj data -> Streaming.is_object (data_field e k) = true ->
  exists fields, data !! k = Some (JObj fields).
Proof.
  unfold data_field, get_value. intros ->.
  destruct (data !! k) as [[| | | | |fields]|]; cbn; try (intros; discriminate). eauto.
Qed.

(** The state of the loop while only blocks have been gathered: [n] slots,
    each holding an object, and nothing read off a [message_delta] yet. *)
Definition gathered (n : nat) (a : Aggregate) : Prop :=
  List.length (finalContent a) = n
  /\ Forall (fun v => Streaming.is_object v = true) (finalContent a)
  /\ usage a = usage initial
  /\ stopReason a = None.

Section AggregatorOnRuns.

Variable json_Unmarshal : string -> option JSON.
Variable GenerateMessageID : string.
Variable json_Marshal : JSON -> string.

#[local] Abbreviation aggregate := (aggregate json_Unmarshal).
#[local] Abbreviation step := (step json_Unmarshal).
#[local] Abbreviation run := (Streaming.run GenerateMessageID json_Marshal).

Lemma aggregate_app (ev1 ev2 : list SSEEvent) :
  forall a,
    aggregate a (ev1 ++ ev2)
    = match aggregate a ev1 with
      | Some a' => aggregate a' ev2
      | None => None
      end.
Proof.
  induction ev1 as [|e ev1 IH]; intros a; cbn [app Aggregator.aggregate]; [reflexivity|].
  destruct (Data e) as [| | | | |data]; try apply IH.
  destruct (step a data) as [a'|]; [apply IH|reflexivity].
Qed.

Lemma gathered_lookup (n : nat) (a : Aggregate) (i : Z) :
  gathered n a -> 0 <= i -> (Z.to_nat i < n)%nat ->
  exists block, at_index (finalContent a) i = Some (JObj block).
Proof.
  intros (Hl & Ho & _) Hi Hn. unfold at_index.
  destruct (Z.ltb_spec i 0); [lia|].
  destruct (lookup_lt_is_Some_2 (finalContent a) (Z.to_nat i)) as [v Hv]; [lia|].
  rewrite Hv. rewrite Forall_lookup in Ho. specialize (Ho _ _ Hv).
  destruct v; try discriminate Ho. eauto.
Qed.

Lemma gathered_insert (n : nat) (a : Aggregate) (k : nat) (block : gmap string JSON) :
  gathered n a -> gathered n (set_finalContent (<[k := JObj block]> (finalContent a)) a).
Proof.
  intros (Hl & Ho & Hu & Hs). unfold gathered. cbn.
  rewrite length_insert. repeat split; try assumption.
  apply Forall_insert; [assumption|reflexivity].
Qed.

(** On events that satisfy [indexed] the loop does not panic, and every
    slot it has made holds a block. *)
Lemma aggregate_indexed (i : Z) (ev : list SSEEvent) :
  Streaming.indexed i ev ->
  exists a, aggregate initial ev = Some a /\ gathered (Z.to_nat (i + 1)) a.
Proof.
  intros H.
  induction H as [|i ev e H IH E T|i ev e H IH Hi B T I D|i ev e H IH St T I C].
  - exists initial. split; [reflexivity|]. repeat split. constructor.
  - destruct IH as (a & Ha & G). exists a. split; [|exact G].
    rewrite aggregate_app, Ha. cbn [Aggregator.aggregate].
    apply typed_inv in T as (data & -> & Ht).
    unfold Aggregator.step. rewrite Ht.
    unfold is_message_start, is_ping in E.
    destruct (String.eqb_spec (Event e) "message_start") as [->|_]; [reflexivity|].
    destruct (String.eqb_spec (Event e) "ping") as [->|_]; [reflexivity|].
    discriminate E.
  - destruct IH as (a & Ha & G).
    apply Streaming.indexed_start_indices in H as [Hm _].
    apply typed_inv in T as (data & Hd & Ht).
    pose proof (index_of_inv e data i Hd I) as Hx.
    destruct (gathered_lookup _ a i G Hi ltac:(lia)) as [block Hk].
    rewrite aggregate_app, Ha. cbn [Aggregator.aggregate]. rewrite Hd.
    unfold Aggregator.step. rewrite Ht, Hx.
    unfold Streaming.is_block_event, is_content_block_stop in B, D.
    destruct (String.eqb_spec (Event e) "content_block_delta") as [E|_].
    + rewrite E in *. cbn in D.
      apply (object_field_inv e data "delta" Hd) in D as [delta Hdl].
      cbn. rewrite Hdl, Hk. eexists. split; [reflexivity|].
      apply gathered_insert, G.
    + destruct (String.eqb_spec (Event e) "content_block_stop") as [E|_];
        [|discriminate B].
      rewrite E. cbn. rewrite Hk. eexists. split; [reflexivity|].
      apply gathered_insert, G.
  - destruct IH as (a & Ha & G).
    apply Streaming.indexed_start_indices in H as [Hm _].
    apply typed_inv in T as (data & Hd & Ht).
    pose proof (index_of_inv e data (i + 1) Hd I) as Hx.
    apply (object_field_inv e data "content_block" Hd) in C as [block Hc].
    rewrite aggregate_app, Ha. cbn [Aggregator.aggregate]. rewrite Hd.
    unfold Aggregator.step. rewrite Ht, Hx.
    unfold is_content_block_start in St. apply String.eqb_eq in St. rewrite St. cbn.
    destruct G as (Hl & Ho & Hu & Hs).
    assert (pad (finalContent a) (i + 1) = finalContent a ++ [JNull]) as Hp.
    { unfold pad. rewrite Hl.
      replace (Z.to_nat (i + 1 + 1) - Z.to_nat (i + 1))%nat with 1%nat by lia.
      reflexivity. }
    rewrite Hp. unfold at_index.
    destruct (Z.ltb_spec (i + 1) 0); [lia|].
    assert (Z.to_nat (i + 1 + 1) = S (List.length (finalContent a))) as Hn by lia.
    rewrite Hn. rewrite <- Hl. rewrite list_lookup_middle by reflexivity.
    eexists. split; [reflexivity|].
    unfold gathered, get_value. cbn. rewrite Hc.
    rewrite insert_app_r_alt by lia.
    rewrite Nat.sub_diag. cbn.
    rewrite length_app. cbn. repeat split; try assumption; [lia|].
    apply Forall_app. split; [assumption|]. constructor; [reflexivity|constructor].
Qed.

(** X10.  Whatever events the upstream sent, the non-streaming path does
    not panic on what the stream handler made of them.  Every slot of the
    gathered content holds a block, so the nil filter drops nothing; the
    stop reason of the response is [end_turn] and its usage carries the
    handler's input-token count and an output-token count of at least 1. *)
Theorem aggregate_never_panics_on_a_run
    (model : string) (inputTokens : Z) (evs : list Streaming.Classified) :
  exists a n,
    aggregate initial (run model inputTokens evs) = Some a
    /\ filteredContent a = finalContent a
    /\ stopReason a = Some "end_turn"%string
    /\ usage a !! "input_tokens" = Some inputTokens
    /\ usage a !! "output_tokens" = Some n
    /\ 1 <= n.
Proof.
  destruct (Streaming.run_indexed GenerateMessageID json_Marshal model inputTokens evs)
    as (i & body & Hb & Hr).
  destruct (aggregate_indexed i body Hb) as (a & Ha & Hl & Ho & Hu & Hs).
  set (n := Streaming.outputTokens
              (fst (Streaming.feed GenerateMessageID json_Marshal
                      (Streaming.NewClaudeStreamHandler model inputTokens) evs))) in *.
  assert (1 <= n) as Hn.
  { unfold n, Streaming.outputTokens.
    match goal with |- context [if ?c <? 1 then _ else _] =>
      destruct (Z.ltb_spec c 1); lia end. }
  clearbody n.
  eexists. exists n. rewrite Hr, aggregate_app, Ha. split; [reflexivity|].
  cbn. rewrite Hu, Hs. repeat split; try assumption; try reflexivity.
  unfold filteredContent. cbn. clear - Ho.
  induction Ho as [|v l Hv _ IH]; [reflexivity|]. cbn.
  destruct v; try discriminate Hv. cbn. f_equal. exact IH.
Qed.

(** X11.  End to end: a response that is one plain text fragment, between
    [initial-response] and [assistantResponseEnd], is streamed as
    [message_start], the start of text block 0, [ping], one [text_delta]
    carrying the fragment, the stop of block 0, [message_delta] and
    [message_stop]; and it comes out of the non-streaming path as a single
    text block that carries exactly the fragment. *)
Theorem plain_text_response (model : string) (inputTokens : Z)
    (p q r : gmap string JSON) (s : string) :
  get_string q "content" = s ->
  s <> EmptyString ->
  strings_Index s Streaming.ThinkingStartTag = -1 ->
  let out := run model inputTokens
               [ ("initial-response"%string, JObj p);
                 ("assistantResponseEvent"%string, JObj q);
                 ("assistantResponseEnd"%string, JObj r) ] in
  out = [ fst (BuildMessageStart GenerateMessageID model inputTokens);
          BuildContentBlockStart 0 "text";
          BuildPing;
          BuildContentBlockDelta 0 s;
          BuildContentBlockStop 0 ]
        ++ BuildMessageStop inputTokens (Streaming.floor_quarter_tokens (len s)) None
  /\ response_content json_Unmarshal out
     = Some [ obj [ ("type", JStr "text"); ("text", JStr s) ] ].
Proof.
  intros Hc Hs Hi out.
  pose proof (Streaming.plain_text_run GenerateMessageID json_Marshal model inputTokens
                p q r s Hc Hs Hi) as R.
  fold out in R. split; [exact R|].
  rewrite R. reflexivity.
Qed.

(** X12.  A [content_block_delta] or [content_block_stop] whose index lies
    outside the content gathered so far makes the request handler panic. *)
Theorem block_event_outside_content_panics (a : Aggregate) (data : gmap string JSON)
    (idx : Z) :
  get_string data "type" = "content_block_delta"%string
  \/ get_string data "type" = "content_block_stop"%string ->
  data !! "index" = Some (JNum idx) ->
  idx < 0 \/ Z.of_nat (List.length (finalContent a)) <= idx ->
  step a data = None.
Proof.
  intros Ht Hx Ho.
  assert (at_index (finalContent a) idx = None) as Hn.
  { unfold at_index. destruct (Z.ltb_spec idx 0); [reflexivity|].
    apply lookup_ge_None_2. lia. }
  unfold Aggregator.step.
  destruct Ht as [-> | ->]; cbn; rewrite Hx, ?Hn; [|reflexivity].
  destruct (data !! "delta") as [[]|]; reflexivity.
Qed.

End AggregatorOnRuns.

(** An instance of [plain_text_response]. *)
Lemma plain_text_response_witness :
  let out := Streaming.run Streaming.sample_id Streaming.sample_Marshal "m" 0
               [ Streaming.initial_response; Streaming.text_event "Hello";
                 ("assistantResponseEnd"%string, JObj ∅) ] in
  out = [ fst (BuildMessageStart Streaming.sample_id "m" 0);
          BuildContentBlockStart 0 "text";
          BuildPing;
          BuildContentBlockDelta 0 "Hello";
          BuildContentBlockStop 0 ]
        ++ BuildMessageStop 0 1 None
  /\ response_content sample_Unmarshal out
     = Some [ obj [ ("type", JStr "text"); ("text", JStr "Hello") ] ].
Proof.
  apply (plain_text_response sample_Unmarshal Streaming.sample_id Streaming.sample_Marshal
           "m" 0 ∅ (list_to_map [ ("content", JStr "Hello") ]) ∅ "Hello");
    try reflexivity.
  intros H; discriminate H.
Defined.

(** An instance of [block_event_outside_content_panics]: a stop for block 0
    before any block was started. *)
Lemma block_event_outside_content_witness :
  step sample_Unmarshal initial
    (list_to_map [ ("type", JStr "content_block_stop"); ("index", JNum 0) ])
  = None.
Proof.
  apply (block_event_outside_content_panics sample_Unmarshal initial _ 0).
  - right. reflexivity.
  - reflexivity.
  - right. cbn. lia.
Defined.

End Aggregator.

(** ** The request converter (package core) *)

Module Converter.

(** The line feed and the carriage return, as one-byte strings. *)
Definition LF : string := String "010"%char EmptyString.
Definition CR : string := String "013"%char EmptyString.

(** *** The request and its translation (types)

    A field [F] of the Go struct [S] is the projection [S_F]. *)

Record ClaudeMessage : Type := mkClaudeMessage {
  ClaudeMessage_Role : string;
  ClaudeMessage_Content : JSON
}.

Record ClaudeTool : Type := mkClaudeTool {
  ClaudeTool_Name : string;
  ClaudeTool_Description : string;
  ClaudeTool_InputSchema : JSON
}.

Record ThinkingConfig : Type := mkThinkingConfig {
  ThinkingConfig_Type : string;
  ThinkingConfig_BudgetTokens : Z
}.

(** [Temperature], which the converter never reads, is left out. *)
Record ClaudeRequest : Type := mkClaudeRequest {
  ClaudeRequest_Model : string;
  ClaudeRequest_Messages : list ClaudeMessage;
  ClaudeRequest_MaxTokens : Z;
  ClaudeRequest_Tools : list ClaudeTool;
  ClaudeRequest_Stream : bool;
  ClaudeRequest_System : JSON;
  ClaudeRequest_Thinking : option ThinkingConfig
}.

Record EnvState : Type := mkEnvState {
  EnvState_OperatingSystem : string;
  EnvState_CurrentWorkingDirectory : string
}.

Record ToolSpecification : Type := mkToolSpecification {
  ToolSpecification_Name : string;
  ToolSpecification_Description : string;
  ToolSpecification_InputSchema : JSON
}.

Record AmazonQTool : Type := mkAmazonQTool {
  AmazonQTool_ToolSpecification : ToolSpecification
}.

Record ToolResultContent : Type := mkToolResultContent {
  ToolResultContent_Text : string
}.

Record ToolResult : Type := mkToolResult {
  ToolResult_ToolUseID : string;
  ToolResult_Content : list ToolResultContent;
  ToolResult_Status : string
}.

Record ImageBytes : Type := mkImageBytes { ImageBytes_Bytes : string }.

Record AmazonQImage : Type := mkAmazonQImage {
  AmazonQImage_Format : string;
  AmazonQImage_Source : ImageBytes
}.

Record UserInputMessageContext : Type := mkUserInputMessageContext {
  UserInputMessageContext_EnvState : EnvState;
  UserInputMessageContext_Tools : list AmazonQTool;
  UserInputMessageContext_ToolResults : list ToolResult
}.

Record UserInputMessage : Type := mkUserInputMessage {
  UserInputMessage_Content : string;
  UserInputMessage_UserInputMessageContext : UserInputMessageContext;
  UserInputMessage_Origin : string;
  UserInputMessage_ModelID : string;
  UserInputMessage_Images : list AmazonQImage
}.

Record ToolUse : Type := mkToolUse {
  ToolUse_ToolUseID : string;
  ToolUse_Name : string;
  ToolUse_Input : JSON
}.

Record AssistantResponseMessage : Type := mkAssistantResponseMessage {
  AssistantResponseMessage_MessageID : string;
  AssistantResponseMessage_Content : string;
  AssistantResponseMessage_ToolUses : list ToolUse
}.

(** Each of the two pointers may be nil. *)
Record HistoryEntry : Type := mkHistoryEntry {
  HistoryEntry_UserInputMessage : option UserInputMessage;
  HistoryEntry_AssistantResponseMessage : option AssistantResponseMessage
}.

Record CurrentMessage : Type := mkCurrentMessage {
  CurrentMessage_UserInputMessage : UserInputMessage
}.

Record ConversationState : Type := mkConversationState {
  ConversationState_ConversationID : string;
  ConversationState_History : list HistoryEntry;
  ConversationState_CurrentMessage : CurrentMessage;
  ConversationState_ChatTriggerType : string
}.

Record AmazonQRequest : Type := mkAmazonQRequest {
  AmazonQRequest_ConversationState : ConversationState
}.

(** The zero values [UserInputMessageContext{}] and [UserInputMessage{}]. *)
Definition zero_UserInputMessageContext : UserInputMessageContext :=
  {| UserInputMessageContext_EnvState :=
       {| EnvState_OperatingSystem := ""; EnvState_CurrentWorkingDirectory := "" |};
     UserInputMessageContext_Tools := [];
     UserInputMessageContext_ToolResults := [] |}.

Definition zero_UserInputMessage : UserInputMessage :=
  {| UserInputMessage_Content := "";
     UserInputMessage_UserInputMessageContext := zero_UserInputMessageContext;
     UserInputMessage_Origin := "";
     UserInputMessage_ModelID := "";
     UserInputMessage_Images := [] |}.

(** *** Thinking hints *)

Definition GetThinkingBudgetTokens (thinking : option ThinkingConfig) : Z :=
  match thinking with
  | None => 16000
  | Some t =>
      if ThinkingConfig_BudgetTokens t <=? 0 then 16000
      else ThinkingConfig_BudgetTokens t
  end.

Definition BuildThinkingHint (budgetTokens : Z) : string :=
  "<thinking_mode>interleaved</thinking_mode><max_thinking_length>"
  +:+ strconv_Itoa budgetTokens +:+ "</max_thinking_length>".

(** *** Reading message content *)

(** The elements of [content.([]interface{})], when the assertion holds. *)
Definition as_list (content : JSON) : option (list JSON) :=
  match content with
  | JArr items => Some items
  | _ => None
  end.

Definition ContainsToolContent (content : JSON) : bool :=
  match as_list content with
  | None => false
  | Some contentList =>
      existsb (fun block =>
                 match block with
                 | JObj blockMap =>
                     let btype := get_string blockMap "type" in
                     String.eqb btype "tool_result" || String.eqb btype "tool_use"
                 | _ => false
                 end) contentList
  end.

(** The texts of the blocks of type [text] that carry a string. *)
Definition text_parts (blocks : list JSON) : list string :=
  omap (fun block =>
          match block with
          | JObj blockMap =>
              if is_str (get_value blockMap "type") "text" then
                match blockMap !! "text" with
                | Some (JStr text) => Some text
                | _ => None
                end
              else None
          | _ => None
          end) blocks.

Definition ExtractTextFromContent (content : JSON) : string :=
  match content with
  | JStr v => v
  | JArr v => strings_Join (text_parts v) LF
  | _ => EmptyString
  end.

(** [ExtractSystemText] has the same body. *)
Definition ExtractSystemText (system : JSON) : string := ExtractTextFromContent system.

(** The image a block contributes, if it is a base64 image block. *)
Definition image_of_block (block : JSON) : option AmazonQImage :=
  match block with
  | JObj blockMap =>
      if is_str (get_value blockMap "type") "image" then
        match blockMap !! "source" with
        | Some (JObj source) =>
            if is_str (get_value source "type") "base64" then
              let mediaType :=
                match source !! "media_type" with
                | Some (JStr mt) => mt
                | _ => "image/png"%string
                end in
              let format :=
                if strings_Contains mediaType "/"
                then after_last "/"%char mediaType
                else "png"%string in
              let data := get_string source "data" in
              Some {| AmazonQImage_Format := format;
                      AmazonQImage_Source := {| ImageBytes_Bytes := data |} |}
            else None
        | _ => None
        end
      else None
  | _ => None
  end.

Definition ExtractImagesFromContent (content : JSON) : list AmazonQImage :=
  match as_list content with
  | None => []
  | Some contentList => omap image_of_block contentList
  end.

(** *** Tools *)

Definition ConvertTool (tool : ClaudeTool) : AmazonQTool :=
  let desc := ClaudeTool_Description tool in
  let desc :=
    if len desc >? 10240
    then slice_to desc 10100 +:+ LF +:+ LF
         +:+ "...(Full description provided in TOOL DOCUMENTATION section)"
    else desc in
  {| AmazonQTool_ToolSpecification :=
       {| ToolSpecification_Name := ClaudeTool_Name tool;
          ToolSpecification_Description := desc;
          ToolSpecification_InputSchema :=
            obj [ ("json", ClaudeTool_InputSchema tool) ] |} |}.

(** *** Merging consecutive user messages *)

(** [MergeUserMessages].  The loop gathers the contents that are not empty
    and the image lists that are not empty; the images kept are those of the
    last two gathered lists. *)
Definition MergeUserMessages (messages : list UserInputMessage) : UserInputMessage :=
  match messages with
  | [] => zero_UserInputMessage
  | first :: _ =>
      let baseContext := UserInputMessage_UserInputMessageContext first in
      let baseOrigin := UserInputMessage_Origin first in
      let baseModelID := UserInputMessage_ModelID first in
      let allContents :=
        fold_left (fun acc msg =>
                     if negb (String.eqb (UserInputMessage_Content msg) "")
                     then acc ++ [UserInputMessage_Content msg] else acc)
                  messages [] in
      let allImages :=
        fold_left (fun acc msg =>
                     if (0 <? List.length (UserInputMessage_Images msg))%nat
                     then acc ++ [UserInputMessage_Images msg] else acc)
                  messages [] in
      let keptImages :=
        if (0 <? List.length allImages)%nat then
          let startIdx := Z.of_nat (List.length allImages) - 2 in
          let startIdx := if startIdx <? 0 then 0 else startIdx in
          fold_left (fun kept images => kept ++ images)
                    (drop (Z.to_nat startIdx) allImages) []
        else [] in
      {| UserInputMessage_Content := strings_Join allContents (LF +:+ LF);
         UserInputMessage_UserInputMessageContext := baseContext;
         UserInputMessage_Origin := baseOrigin;
         UserInputMessage_ModelID := baseModelID;
         UserInputMessage_Images := keptImages |}
  end.

Section WithRuntime.

(** [strings.TrimSpace] and [strings.ToLower]. *)
Variable strings_TrimSpace : string -> string.
Variable strings_ToLower : string -> string.

(** The value [GetCurrentTimestamp()] reads off the clock. *)
Variable GetCurrentTimestamp : string.

(** [uuid_New n] is the [n]-th identifier [uuid.New().String()] draws
    during one conversion. *)
Variable uuid_New : nat -> string.

Definition IsThinkingModeEnabled (thinking : option ThinkingConfig) : bool :=
  match thinking with
  | None => false
  | Some t => String.eqb (strings_ToLower (ThinkingConfig_Type t)) "enabled"
  end.

Definition AppendThinkingHint (text hint : string) : string :=
  let normalized := strings_TrimSpace text in
  if strings_HasSuffix normalized hint then text
  else if String.eqb text "" then hint
  else
    let separator :=
      if negb (strings_HasSuffix text LF) && negb (strings_HasSuffix text CR)
      then LF else EmptyString in
    text +:+ separator +:+ hint.

(** The entries a [tool_result] block's content contributes. *)
Definition tool_result_content (rawContent : JSON) : list ToolResultContent :=
  match rawContent with
  | JStr content => [ {| ToolResultContent_Text := content |} ]
  | JArr content =>
      omap (fun item =>
              match item with
              | JObj v =>
                  match v !! "text" with
                  | Some (JStr text) => Some {| ToolResultContent_Text := text |}
                  | _ => None
                  end
              | JStr v => Some {| ToolResultContent_Text := v |}
              | _ => None
              end) content
  | _ => []
  end.

(** The search for an entry with the same id: its content is extended in
    place; [None] when there is none. *)
Fixpoint extend_tool_result (toolResults : list ToolResult) (toolUseID : string)
    (aqContent : list ToolResultContent) : option (list ToolResult) :=
  match toolResults with
  | [] => None
  | r :: rest =>
      if String.eqb (ToolResult_ToolUseID r) toolUseID then
        Some ({| ToolResult_ToolUseID := ToolResult_ToolUseID r;
                 ToolResult_Content := ToolResult_Content r ++ aqContent;
                 ToolResult_Status := ToolResult_Status r |} :: rest)
      else
        match extend_tool_result rest toolUseID aqContent with
        | Some rest => Some (r :: rest)
        | None => None
        end
  end.

(** [ProcessToolResultBlock]: the list [*toolResults] after the call. *)
Definition ProcessToolResultBlock (block : gmap string JSON) (toolResults : list ToolResult)
  : list ToolResult :=
  let toolUseID := get_string block "tool_use_id" in
  let aqContent := tool_result_content (get_value block "content") in
  let hasContent :=
    existsb (fun c => negb (String.eqb (strings_TrimSpace (ToolResultContent_Text c)) ""))
            aqContent in
  let aqContent :=
    if negb hasContent
    then [ {| ToolResultContent_Text := "Tool use was cancelled by the user" |} ]
    else aqContent in
  let status :=
    match block !! "status" with
    | Some (JStr s) => s
    | _ => "success"%string
    end in
  match extend_tool_result toolResults toolUseID aqContent with
  | Some toolResults => toolResults
  | None =>
      toolResults ++ [ {| ToolResult_ToolUseID := toolUseID;
                          ToolResult_Content := aqContent;
                          ToolResult_Status := status |} ]
  end.

(** The loop over the blocks of a user message, shared by [ProcessHistory]
    and [ConvertClaudeToAmazonQRequest]: the text parts, the tool results,
    and whether a [tool_result] block was seen. *)
Fixpoint user_blocks (blocks : list JSON) (textParts : list string)
    (toolResults : list ToolResult) (hasToolResult : bool)
  : list string * list ToolResult * bool :=
  match blocks with
  | [] => (textParts, toolResults, hasToolResult)
  | block :: rest =>
      match block with
      | JObj blockMap =>
          let btype := get_string blockMap "type" in
          if String.eqb btype "text" then
            match blockMap !! "text" with
            | Some (JStr text) => user_blocks rest (textParts ++ [text]) toolResults hasToolResult
            | _ => user_blocks rest textParts toolResults hasToolResult
            end
          else if String.eqb btype "tool_result" then
            user_blocks rest textParts (ProcessToolResultBlock blockMap toolResults) true
          else user_blocks rest textParts toolResults hasToolResult
      | _ => user_blocks rest textParts toolResults hasToolResult
      end
  end.

(** The text and the tool results of a user message's content. *)
Definition user_text_and_results (content : JSON) : string * list ToolResult * bool :=
  match as_list content with
  | Some contentList =>
      let '(textParts, toolResults, hasToolResult) := user_blocks contentList [] [] false in
      (strings_Join textParts LF, toolResults, hasToolResult)
  | None => (ExtractTextFromContent content, [], false)
  end.

Definition default_EnvState : EnvState :=
  {| EnvState_OperatingSystem := "macos"; EnvState_CurrentWorkingDirectory := "/" |}.

(** The tool uses of an assistant message not seen before, and the set of
    ids seen after it. *)
Fixpoint assistant_tool_uses (blocks : list JSON) (seenToolUseIDs : gmap string bool)
    (toolUses : list ToolUse) : list ToolUse * gmap string bool :=
  match blocks with
  | [] => (toolUses, seenToolUseIDs)
  | block :: rest =>
      match block with
      | JObj blockMap =>
          if is_str (get_value blockMap "type") "tool_use" then
            let tid := get_string blockMap "id" in
            if negb (String.eqb tid "")
               && negb (match seenToolUseIDs !! tid with Some b => b | None => false end)
            then
              let seenToolUseIDs := <[tid := true]> seenToolUseIDs in
              let name := get_string blockMap "name" in
              let input :=
                match blockMap !! "input" with
                | Some (JObj inp) => JObj inp
                | _ => JObj ∅
                end in
              assistant_tool_uses rest seenToolUseIDs
                (toolUses ++ [ {| ToolUse_ToolUseID := tid;
                                  ToolUse_Name := name;
                                  ToolUse_Input := input |} ])
            else assistant_tool_uses rest seenToolUseIDs toolUses
          else assistant_tool_uses rest seenToolUseIDs toolUses
      | _ => assistant_tool_uses rest seenToolUseIDs toolUses
      end
  end.

(** Pass one of [ProcessHistory]: each message converted on its own.
    [next] counts the identifiers drawn so far. *)
Fixpoint convert_messages (messages : list ClaudeMessage) (thinkingEnabled : bool)
    (thinkingHint : string) (seenToolUseIDs : gmap string bool) (next : nat)
    (rawHistory : list HistoryEntry) : list HistoryEntry * nat :=
  match messages with
  | [] => (rawHistory, next)
  | msg :: rest =>
      if String.eqb (ClaudeMessage_Role msg) "user" then
        let content := ClaudeMessage_Content msg in
        let images := ExtractImagesFromContent content in
        let shouldAppendHint := thinkingEnabled && negb (ContainsToolContent content) in
        let '(textContent, toolResults, _) := user_text_and_results content in
        let textContent :=
          if shouldAppendHint then AppendThinkingHint textContent thinkingHint
          else textContent in
        let userCtx :=
          {| UserInputMessageContext_EnvState := default_EnvState;
             UserInputMessageContext_Tools := [];
             UserInputMessageContext_ToolResults := toolResults |} in
        let uMsg :=
          {| UserInputMessage_Content := textContent;
             UserInputMessage_UserInputMessageContext := userCtx;
             UserInputMessage_Origin := "CLI";
             UserInputMessage_ModelID := "";
             UserInputMessage_Images := images |} in
        convert_messages rest thinkingEnabled thinkingHint seenToolUseIDs next
          (rawHistory ++ [ {| HistoryEntry_UserInputMessage := Some uMsg;
                              HistoryEntry_AssistantResponseMessage := None |} ])
      else if String.eqb (ClaudeMessage_Role msg) "assistant" then
        let content := ClaudeMessage_Content msg in
        let textContent := ExtractTextFromContent content in
        let messageID := uuid_New next in
        let '(toolUses, seenToolUseIDs) :=
          match as_list content with
          | Some contentList => assistant_tool_uses contentList seenToolUseIDs []
          | None => ([], seenToolUseIDs)
          end in
        let entry :=
          {| HistoryEntry_UserInputMessage := None;
             HistoryEntry_AssistantResponseMessage :=
               Some {| AssistantResponseMessage_MessageID := messageID;
                       AssistantResponseMessage_Content := textContent;
                       AssistantResponseMessage_ToolUses := toolUses |} |} in
        convert_messages rest thinkingEnabled thinkingHint seenToolUseIDs (S next)
          (rawHistory ++ [entry])
      else
        convert_messages rest thinkingEnabled thinkingHint seenToolUseIDs next rawHistory
  end.

Definition user_entry (u : UserInputMessage) : HistoryEntry :=
  {| HistoryEntry_UserInputMessage := Some u;
     HistoryEntry_AssistantResponseMessage := None |}.

(** [if len(pendingUserMsgs) > 0 { merged := MergeUserMessages(...);
    history = append(history, ...) }] *)
Definition flush_pending (pendingUserMsgs : list UserInputMessage)
    (history : list HistoryEntry) : list HistoryEntry :=
  if (0 <? List.length pendingUserMsgs)%nat
  then history ++ [user_entry (MergeUserMessages pendingUserMsgs)]
  else history.

(** Pass two of [ProcessHistory], lines 562-580: consecutive user entries
    are merged. *)
Fixpoint merge_consecutive (rawHistory : list HistoryEntry)
    (pendingUserMsgs : list UserInputMessage) (history : list HistoryEntry)
  : list HistoryEntry :=
  match rawHistory with
  | [] => flush_pending pendingUserMsgs history
  | item :: rest =>
      match HistoryEntry_UserInputMessage item with
      | Some u => merge_consecutive rest (pendingUserMsgs ++ [u]) history
      | None =>
          match HistoryEntry_AssistantResponseMessage item with
          | Some _ =>
              merge_consecutive rest [] (flush_pending pendingUserMsgs history ++ [item])
          | None => merge_consecutive rest pendingUserMsgs history
          end
      end
  end.

(** [ProcessHistory]: the history, and the count of identifiers drawn. *)
Definition ProcessHistory (messages : list ClaudeMessage) (thinkingEnabled : bool)
    (thinkingHint : string) (next : nat) : list HistoryEntry * nat :=
  let '(rawHistory, next) :=
    convert_messages messages thinkingEnabled thinkingHint ∅ next [] in
  (merge_consecutive rawHistory [] [], next).

(** [longDescTools]: name and full description of every tool whose
    description is longer than 10240. *)
Definition longDescTools (tools : list ClaudeTool) : list (string * string) :=
  fold_left (fun acc t =>
               if len (ClaudeTool_Description t) >? 10240
               then acc ++ [ (ClaudeTool_Name t, ClaudeTool_Description t) ]
               else acc)
            tools [].

(** One entry of the documentation block. *)
Definition tool_doc (info : string * string) : string :=
  "Tool: " +:+ fst info +:+ LF +:+ "Full Description:" +:+ LF +:+ snd info +:+ LF.

(** [if len(longDescTools) > 0 { ... }], lines 680-690. *)
Definition with_tool_documentation (infos : list (string * string))
    (formattedContent : string) : string :=
  if (0 <? List.length infos)%nat then
    "--- TOOL DOCUMENTATION BEGIN ---" +:+ LF
    +:+ strings_Join (map tool_doc infos) ""
    +:+ "--- TOOL DOCUMENTATION END ---" +:+ LF +:+ LF
    +:+ formattedContent
  else formattedContent.

(** [if req.System != nil && formattedContent != "" { ... }], lines 692-718. *)
Definition with_system_prompt (system : JSON) (formattedContent : string) : string :=
  if negb (is_nil_value system) && negb (String.eqb formattedContent "") then
    let sysText :=
      match system with
      | JStr sys => sys
      | JArr sys => strings_Join (text_parts sys) LF
      | _ => EmptyString
      end in
    if negb (String.eqb sysText "") then
      "--- SYSTEM PROMPT BEGIN ---" +:+ LF +:+ sysText +:+ LF
      +:+ "--- SYSTEM PROMPT END ---" +:+ LF +:+ LF +:+ formattedContent
    else formattedContent
  else formattedContent.

(** [ConvertClaudeToAmazonQRequest]; the error it returns is always nil. *)
Definition ConvertClaudeToAmazonQRequest (req : ClaudeRequest) (conversationID : string)
  : AmazonQRequest :=
  let '(conversationID, next) :=
    if String.eqb conversationID "" then (uuid_New 0, 1%nat) else (conversationID, 0%nat) in
  let thinkingEnabled := IsThinkingModeEnabled (ClaudeRequest_Thinking req) in
  let budgetTokens := GetThinkingBudgetTokens (ClaudeRequest_Thinking req) in
  let thinkingHint := BuildThinkingHint budgetTokens in
  (* 1. tools *)
  let aqTools := map ConvertTool (ClaudeRequest_Tools req) in
  let longDescTools := longDescTools (ClaudeRequest_Tools req) in
  (* 2. the current message *)
  let lastMsg := last (ClaudeRequest_Messages req) in
  let '(promptContent, toolResults, hasToolResult, images) :=
    match lastMsg with
    | Some m =>
        if String.eqb (ClaudeMessage_Role m) "user" then
          let '(promptContent, toolResults, hasToolResult) :=
            user_text_and_results (ClaudeMessage_Content m) in
          (promptContent, toolResults, hasToolResult,
           ExtractImagesFromContent (ClaudeMessage_Content m))
        else (EmptyString, [], false, [])
    | None => (EmptyString, [], false, [])
    end in
  let promptContent :=
    match lastMsg with
    | Some m =>
        if thinkingEnabled && negb (ContainsToolContent (ClaudeMessage_Content m))
        then AppendThinkingHint promptContent thinkingHint
        else promptContent
    | None => promptContent
    end in
  (* 3. context *)
  let userCtx :=
    {| UserInputMessageContext_EnvState := default_EnvState;
       UserInputMessageContext_Tools := aqTools;
       UserInputMessageContext_ToolResults := toolResults |} in
  (* 4. formatted content *)
  let formattedContent :=
    if hasToolResult && String.eqb promptContent "" then EmptyString
    else
      "--- CONTEXT ENTRY BEGIN ---" +:+ LF +:+ "Current time: " +:+ GetCurrentTimestamp
      +:+ LF +:+ "--- CONTEXT ENTRY END ---" +:+ LF +:+ LF
      +:+ "--- USER MESSAGE BEGIN ---" +:+ LF +:+ promptContent +:+ LF
      +:+ "--- USER MESSAGE END ---" in
  let formattedContent := with_tool_documentation longDescTools formattedContent in
  let formattedContent := with_system_prompt (ClaudeRequest_System req) formattedContent in
  (* 5. the user input message *)
  let userInputMsg :=
    {| UserInputMessage_Content := formattedContent;
       UserInputMessage_UserInputMessageContext := userCtx;
       UserInputMessage_Origin := "CLI";
       UserInputMessage_ModelID := ClaudeRequest_Model req;
       UserInputMessage_Images := images |} in
  (* 6. history *)
  let historyMsgs :=
    if (1 <? List.length (ClaudeRequest_Messages req))%nat
    then take (List.length (ClaudeRequest_Messages req) - 1) (ClaudeRequest_Messages req)
    else [] in
  let '(aqHistory, _) := ProcessHistory historyMsgs thinkingEnabled thinkingHint next in
  (* 7. the request *)
  {| AmazonQRequest_ConversationState :=
       {| ConversationState_ConversationID := conversationID;
          ConversationState_History := aqHistory;
          ConversationState_CurrentMessage :=
            {| CurrentMessage_UserInputMessage := userInputMsg |};
          ConversationState_ChatTriggerType := "MANUAL" |} |}.

End WithRuntime.

(** *** Properties of the converter *)

Lemma append_assoc (a b c : string) : (a +:+ b) +:+ c = a +:+ (b +:+ c).
Proof.
  induction a as [|x a IH]; [reflexivity|].
  change (String x ((a +:+ b) +:+ c) = String x (a +:+ (b +:+ c))).
  f_equal. exact IH.
Qed.

Lemma append_empty_r (a : string) : a +:+ "" = a.
Proof.
  induction a as [|x a IH]; [reflexivity|].
  change (String x (a +:+ "") = String x a).
  f_equal. exact IH.
Qed.

(** [strings.Join] with the empty separator is plain concatenation. *)
Lemma strings_Join_empty_cons (p : string) (rest : list string) :
  strings_Join (p :: rest) "" = p +:+ strings_Join rest "".
Proof. destruct rest; cbn; [rewrite append_empty_r|]; reflexivity. Qed.

Lemma strings_Join_empty_app (l1 l2 : list string) :
  strings_Join (l1 ++ l2) "" = strings_Join l1 "" +:+ strings_Join l2 "".
Proof.
  induction l1 as [|p l1 IH]; [reflexivity|].
  change ((p :: l1) ++ l2) with (p :: (l1 ++ l2)).
  rewrite !strings_Join_empty_cons, IH, append_assoc. reflexivity.
Qed.

(** A loop that appends [f x] for every [x] satisfying [p] builds the
    filtered, mapped list. *)
Lemma fold_left_gather {A B : Type} (p : A -> bool) (f : A -> B) (l : list A) (acc : list B) :
  fold_left (fun acc x => if p x then acc ++ [f x] else acc) l acc
  = acc ++ map f (List.filter p l).
Proof.
  revert acc; induction l as [|x l IH]; intros acc; cbn.
  - rewrite app_nil_r. reflexivity.
  - rewrite IH. destruct (p x); cbn; [rewrite <- app_assoc|]; reflexivity.
Qed.

Lemma fold_left_concat {A : Type} (l : list (list A)) (acc : list A) :
  fold_left (fun kept images => kept ++ images) l acc = acc ++ concat l.
Proof.
  revert acc; induction l as [|x l IH]; intros acc; cbn.
  - rewrite app_nil_r. reflexivity.
  - rewrite IH, app_assoc. reflexivity.
Qed.

(** **** Merging *)

(** The last two elements of a list (all of it when it is shorter). *)
Definition last_two {A : Type} (l : list A) : list A := drop (List.length l - 2) l.

(** The contents of a run that are not empty, in order. *)
Definition nonempty_contents (us : list UserInputMessage) : list string :=
  List.filter (fun s => negb (String.eqb s "")) (map UserInputMessage_Content us).

(** The image lists of a run that are not empty, in order. *)
Definition nonempty_image_lists (us : list UserInputMessage) : list (list AmazonQImage) :=
  List.filter (fun l => (0 <? List.length l)%nat) (map UserInputMessage_Images us).

(** The images of the last two entries of a run, whether or not they carry
    any. *)
Definition images_of_last_two_entries (us : list UserInputMessage) : list AmazonQImage :=
  concat (map UserInputMessage_Images (last_two us)).

Definition is_assistant_entry (e : HistoryEntry) : bool :=
  negb (is_some (HistoryEntry_UserInputMessage e))
  && is_some (HistoryEntry_AssistantResponseMessage e).

(** Nothing, or an assistant entry, stands right before the run. *)
Definition run_starts_after (pre : list HistoryEntry) : Prop :=
  match last pre with
  | None => True
  | Some e => is_assistant_entry e = true
  end.

(** Nothing, or an assistant entry, stands right after the run. *)
Definition run_ends_before (post : list HistoryEntry) : Prop :=
  match post with
  | [] => True
  | e :: _ => is_assistant_entry e = true
  end.

Lemma filter_map_comm {A B : Type} (p : B -> bool) (f : A -> B) (l : list A) :
  map f (List.filter (fun x => p (f x)) l) = List.filter p (map f l).
Proof.
  induction l as [|x l IH]; cbn; [reflexivity|].
  destruct (p (f x)); cbn; rewrite IH; reflexivity.
Qed.

Lemma MergeUserMessages_fields (first : UserInputMessage) (others : list UserInputMessage) :
  let us := first :: others in
  UserInputMessage_Content (MergeUserMessages us)
  = strings_Join (nonempty_contents us) (LF +:+ LF)
  /\ UserInputMessage_UserInputMessageContext (MergeUserMessages us)
     = UserInputMessage_UserInputMessageContext first
  /\ UserInputMessage_Origin (MergeUserMessages us) = UserInputMessage_Origin first
  /\ UserInputMessage_ModelID (MergeUserMessages us) = UserInputMessage_ModelID first
  /\ UserInputMessage_Images (MergeUserMessages us)
     = concat (last_two (nonempty_image_lists us)).
Proof.
  intros us. unfold MergeUserMessages. subst us.
  cbn [UserInputMessage_Content UserInputMessage_UserInputMessageContext
       UserInputMessage_Origin UserInputMessage_ModelID UserInputMessage_Images].
  repeat split.
  - rewrite (fold_left_gather (fun msg => negb (String.eqb (UserInputMessage_Content msg) ""))
               UserInputMessage_Content).
    rewrite app_nil_l.
    rewrite (filter_map_comm (fun s => negb (String.eqb s "")) UserInputMessage_Content).
    reflexivity.
  - rewrite (fold_left_gather (fun msg => (0 <? List.length (UserInputMessage_Images msg))%nat)
               UserInputMessage_Images).
    rewrite app_nil_l.
    rewrite (filter_map_comm (fun l => (0 <? List.length l)%nat) UserInputMessage_Images).
    fold (nonempty_image_lists (first :: others)).
    set (all := nonempty_image_lists (first :: others)).
    destruct (Nat.ltb_spec 0 (List.length all)) as [Hl|Hl].
    + rewrite fold_left_concat, app_nil_l. unfold last_two. f_equal. f_equal.
      destruct (Z.ltb_spec (Z.of_nat (List.length all) - 2) 0); lia.
    + destruct all; [reflexivity|cbn in Hl; lia].
Qed.

Lemma flush_pending_app (p : list UserInputMessage) (h1 h2 : list HistoryEntry) :
  flush_pending p (h1 ++ h2) = h1 ++ flush_pending p h2.
Proof. unfold flush_pending. destruct (0 <? List.length p)%nat; [rewrite app_assoc|]; reflexivity. Qed.

(** The history built so far is only ever extended. *)
Lemma merge_consecutive_history (l : list HistoryEntry) :
  forall p h1 h2,
    merge_consecutive l p (h1 ++ h2) = h1 ++ merge_consecutive l p h2.
Proof.
  induction l as [|e l IH]; intros p h1 h2; cbn [merge_consecutive].
  - apply flush_pending_app.
  - destruct (HistoryEntry_UserInputMessage e); [apply IH|].
    destruct (HistoryEntry_AssistantResponseMessage e); [|apply IH].
    rewrite flush_pending_app, <- app_assoc. apply IH.
Qed.

Lemma merge_consecutive_users (us : list UserInputMessage) (rest : list HistoryEntry) :
  forall p h,
    merge_consecutive (map user_entry us ++ rest) p h = merge_consecutive rest (p ++ us) h.
Proof.
  induction us as [|u us IH]; intros p h; cbn.
  - rewrite app_nil_r. reflexivity.
  - rewrite IH, <- app_assoc. reflexivity.
Qed.

Lemma merge_consecutive_after_assistant (pre : list HistoryEntry) (a : HistoryEntry)
    (rest : list HistoryEntry) :
  is_assistant_entry a = true ->
  forall p h,
    merge_consecutive (pre ++ a :: rest) p h
    = merge_consecutive (pre ++ [a]) p h ++ merge_consecutive rest [] [].
Proof.
  unfold is_assistant_entry. intros Ha.
  induction pre as [|e pre IH]; intros p h; cbn [app merge_consecutive].
  - destruct (HistoryEntry_UserInputMessage a); [discriminate|].
    destruct (HistoryEntry_AssistantResponseMessage a); [|discriminate].
    cbn [flush_pending List.length Nat.ltb Nat.leb].
    rewrite <- (app_nil_r (flush_pending p h ++ [a])) at 1.
    apply merge_consecutive_history.
  - destruct (HistoryEntry_UserInputMessage e); [apply IH|].
    destruct (HistoryEntry_AssistantResponseMessage e); apply IH.
Qed.

Lemma merge_consecutive_split (pre rest : list HistoryEntry) :
  run_starts_after pre ->
  merge_consecutive (pre ++ rest) [] []
  = merge_consecutive pre [] [] ++ merge_consecutive rest [] [].
Proof.
  unfold run_starts_after.
  destruct pre as [|e pre'] using rev_ind; [reflexivity|].
  rewrite last_snoc. intros Ha.
  rewrite <- app_assoc. cbn [app].
  apply merge_consecutive_after_assistant, Ha.
Qed.

Lemma merge_consecutive_flush (us : list UserInputMessage) (post : list HistoryEntry) :
  us <> [] -> run_ends_before post ->
  merge_consecutive post us []
  = user_entry (MergeUserMessages us) :: merge_consecutive post [] [].
Proof.
  intros Hne Hpost.
  assert (flush_pending us [] = [user_entry (MergeUserMessages us)]) as F.
  { unfold flush_pending. destruct us; [congruence|reflexivity]. }
  destruct post as [|a post]; cbn [merge_consecutive]; [exact F|].
  cbn in Hpost. unfold is_assistant_entry in Hpost.
  destruct (HistoryEntry_UserInputMessage a); [discriminate|].
  destruct (HistoryEntry_AssistantResponseMessage a); [|discriminate].
  rewrite F. cbn [flush_pending List.length Nat.ltb Nat.leb app].
  apply (merge_consecutive_history post [] [user_entry (MergeUserMessages us)] [a]).
Qed.

(** What pass two makes of a maximal run of consecutive user entries: one
    entry, the one [MergeUserMessages] builds.  The loop of
    [MergeUserMessages] gathers the texts that are not empty and the image
    lists that are not empty, and keeps the last two gathered lists. *)
Lemma merge_consecutive_run
    (pre post : list HistoryEntry) (first : UserInputMessage)
    (others : list UserInputMessage) :
  let us := first :: others in
  let merged := MergeUserMessages us in
  run_starts_after pre -> run_ends_before post ->
  merge_consecutive (pre ++ map user_entry us ++ post) [] []
  = merge_consecutive pre [] [] ++ user_entry merged :: merge_consecutive post [] []
  /\ UserInputMessage_Content merged = strings_Join (nonempty_contents us) (LF +:+ LF)
  /\ UserInputMessage_UserInputMessageContext merged
     = UserInputMessage_UserInputMessageContext first
  /\ UserInputMessage_Origin merged = UserInputMessage_Origin first
  /\ UserInputMessage_ModelID merged = UserInputMessage_ModelID first
  /\ UserInputMessage_Images merged = concat (last_two (nonempty_image_lists us)).
Proof.
  intros us merged Hpre Hpost. split; [|apply MergeUserMessages_fields].
  rewrite (merge_consecutive_split pre _ Hpre). f_equal.
  rewrite merge_consecutive_users. cbn [app].
  apply merge_consecutive_flush; [discriminate|exact Hpost].
Qed.

(** **** Tool descriptions *)

(** The pointer sentence, after a blank line. *)
Definition truncation_pointer : string :=
  LF +:+ LF +:+ "...(Full description provided in TOOL DOCUMENTATION section)".

Definition is_long (t : ClaudeTool) : bool := len (ClaudeTool_Description t) >? 10240.

(** [cut] is made of the first [n] bytes of [s]. *)
Definition first_bytes (n : Z) (s cut : string) : Prop :=
  len cut = n /\ exists rest, s = cut +:+ rest.

(** The prompt body holds a TOOL DOCUMENTATION section, between its BEGIN
    and END lines, in which the name of the tool is followed by its
    description in full. *)
Definition documents (body name desc : string) : Prop :=
  exists pre a b c post,
    body = pre +:+ "--- TOOL DOCUMENTATION BEGIN ---" +:+ a
           +:+ name +:+ b +:+ desc +:+ c
           +:+ "--- TOOL DOCUMENTATION END ---" +:+ post.

(** The characters of a UTF-8 text are counted by the bytes that do not
    continue one: all but those of the form [10xxxxxx]. *)
Definition continues_character (c : ascii) : bool :=
  (128 <=? N_of_ascii c)%N && (N_of_ascii c <? 192)%N.

Fixpoint characters (s : string) : Z :=
  match s with
  | EmptyString => 0
  | String c s' => (if continues_character c then 0 else 1) + characters s'
  end.

Definition current_message (r : AmazonQRequest) : UserInputMessage :=
  CurrentMessage_UserInputMessage
    (ConversationState_CurrentMessage (AmazonQRequest_ConversationState r)).

(** The request with its tool list replaced. *)
Definition with_tools (req : ClaudeRequest) (tools : list ClaudeTool) : ClaudeRequest :=
  {| ClaudeRequest_Model := ClaudeRequest_Model req;
     ClaudeRequest_Messages := ClaudeRequest_Messages req;
     ClaudeRequest_MaxTokens := ClaudeRequest_MaxTokens req;
     ClaudeRequest_Tools := tools;
     ClaudeRequest_Stream := ClaudeRequest_Stream req;
     ClaudeRequest_System := ClaudeRequest_System req;
     ClaudeRequest_Thinking := ClaudeRequest_Thinking req |}.

Lemma longDescTools_filter (tools : list ClaudeTool) :
  longDescTools tools
  = map (fun t => (ClaudeTool_Name t, ClaudeTool_Description t)) (List.filter is_long tools).
Proof.
  unfold longDescTools.
  rewrite (fold_left_gather is_long
             (fun t => (ClaudeTool_Name t, ClaudeTool_Description t))).
  reflexivity.
Qed.

Lemma filter_idem {A : Type} (p : A -> bool) (l : list A) :
  List.filter p (List.filter p l) = List.filter p l.
Proof.
  induction l as [|x l IH]; cbn; [reflexivity|].
  destruct (p x) eqn:E; cbn; rewrite ?E, IH; reflexivity.
Qed.

Lemma longDescTools_only_long (tools : list ClaudeTool) :
  longDescTools (List.filter is_long tools) = longDescTools tools.
Proof. rewrite !longDescTools_filter, filter_idem. reflexivity. Qed.

Lemma ConvertTool_description (t : ClaudeTool) :
  ToolSpecification_Name (AmazonQTool_ToolSpecification (ConvertTool t)) = ClaudeTool_Name t
  /\ ToolSpecification_Description (AmazonQTool_ToolSpecification (ConvertTool t))
     = if is_long t
       then slice_to (ClaudeTool_Description t) 10100 +:+ truncation_pointer
       else ClaudeTool_Description t.
Proof.
  unfold ConvertTool, is_long. cbn. split; [reflexivity|].
  destruct (len (ClaudeTool_Description t) >? 10240); reflexivity.
Qed.

(** A text is its first [k] bytes followed by the rest. *)
Lemma substring_then_rest (k : nat) (s : string) :
  (k <= String.length s)%nat -> exists rest, s = String.substring 0 k s +:+ rest.
Proof.
  revert s. induction k as [|k IH]; intros s Hk.
  - exists s. destruct s; reflexivity.
  - destruct s as [|x s]; [cbn in Hk; lia|].
    destruct (IH s) as [rest E]; [cbn in Hk; lia|].
    exists rest.
    change (String x s = String x (String.substring 0 k s +:+ rest)).
    f_equal. exact E.
Qed.

(** The cut [s[:n]] is made of the first [n] bytes of [s]. *)
Lemma first_bytes_slice_to (n : Z) (s : string) :
  0 <= n <= len s -> first_bytes n s (slice_to s n).
Proof.
  intros Hn. unfold first_bytes, slice_to, slice, len in *. rewrite Z.sub_0_r. split.
  - rewrite Streaming.length_substring; lia.
  - apply substring_then_rest. lia.
Qed.

Lemma documents_prefix (p body name desc : string) :
  documents body name desc -> documents (p +:+ body) name desc.
Proof.
  intros (pre & a & b & c & post & ->).
  exists (p +:+ pre), a, b, c, post. rewrite append_assoc. reflexivity.
Qed.

Lemma with_tool_documentation_documents (infos : list (string * string))
    (name desc body : string) :
  In (name, desc) infos ->
  documents (with_tool_documentation infos body) name desc.
Proof.
  intros Hin. unfold with_tool_documentation.
  destruct infos as [|i infos]; [destruct Hin|].
  cbn [List.length Nat.ltb Nat.leb].
  apply in_split in Hin as (l1 & l2 & ->).
  rewrite map_app, strings_Join_empty_app. cbn [map].
  rewrite strings_Join_empty_cons. unfold tool_doc. cbn [fst snd].
  exists "", (LF +:+ strings_Join (map tool_doc l1) "" +:+ "Tool: "),
         (LF +:+ "Full Description:" +:+ LF),
         (LF +:+ strings_Join (map tool_doc l2) ""), (LF +:+ LF +:+ body).
  rewrite !append_assoc. reflexivity.
Qed.

Lemma with_system_prompt_documents (system : JSON) (body name desc : string) :
  documents body name desc -> documents (with_system_prompt system body) name desc.
Proof.
  intros H. unfold with_system_prompt.
  destruct (negb (is_nil_value system) && negb (String.eqb body "")); [|exact H].
  destruct (negb (String.eqb _ "")); [|exact H].
  rewrite <- !append_assoc. apply documents_prefix, H.
Qed.

Section ConverterProperties.

Variable strings_TrimSpace : string -> string.
Variable strings_ToLower : string -> string.
Variable GetCurrentTimestamp : string.
Variable uuid_New : nat -> string.

#[local] Abbreviation Convert :=
  (ConvertClaudeToAmazonQRequest strings_TrimSpace strings_ToLower GetCurrentTimestamp
     uuid_New).

(** The prompt body and the converted tools, read off the definition: the
    tools reach the body through [longDescTools] only. *)
Lemma Convert_current_message (req : ClaudeRequest) (conversationID : string) :
  exists body,
    (forall tools,
       UserInputMessage_Content (current_message (Convert (with_tools req tools) conversationID))
       = with_system_prompt (ClaudeRequest_System req)
           (with_tool_documentation (longDescTools tools) body))
    /\ forall tools,
         UserInputMessageContext_Tools
           (UserInputMessage_UserInputMessageContext
              (current_message (Convert (with_tools req tools) conversationID)))
         = map ConvertTool tools.
Proof.
  unfold ConvertClaudeToAmazonQRequest, current_message, with_tools.
  cbn [ClaudeRequest_Model ClaudeRequest_Messages ClaudeRequest_MaxTokens
       ClaudeRequest_Tools ClaudeRequest_Stream ClaudeRequest_System
       ClaudeRequest_Thinking].
  repeat match goal with
         | |- context [let '(_, _) := ?X in _] => destruct X
         end.
  eexists. split; intros tools; reflexivity.
Qed.

Lemma with_tools_same (req : ClaudeRequest) :
  with_tools req (ClaudeRequest_Tools req) = req.
Proof. destruct req; reflexivity. Qed.

(** C9, as amended.  Every tool is converted in place and keeps its name.
    A tool whose description is longer than 10240 bytes gets as description
    the first 10100 bytes of the original followed by the pointer sentence,
    and the prompt body of the request holds a TOOL DOCUMENTATION section in
    which the tool's name is followed by its original description in full.
    A tool whose description is at most 10240 bytes long keeps its
    description, and the prompt body is the one the request would get
    without such tools. *)
Theorem long_tool_descriptions_are_truncated_and_documented
    (req : ClaudeRequest) (conversationID : string) :
  let current := current_message (Convert req conversationID) in
  UserInputMessageContext_Tools (UserInputMessage_UserInputMessageContext current)
  = map ConvertTool (ClaudeRequest_Tools req)
  /\ (forall t, In t (ClaudeRequest_Tools req) ->
        ToolSpecification_Name (AmazonQTool_ToolSpecification (ConvertTool t))
        = ClaudeTool_Name t
        /\ (10240 < len (ClaudeTool_Description t) ->
              (exists cut,
                 first_bytes 10100 (ClaudeTool_Description t) cut
                 /\ ToolSpecification_Description
                      (AmazonQTool_ToolSpecification (ConvertTool t))
                    = cut +:+ truncation_pointer)
              /\ documents (UserInputMessage_Content current)
                   (ClaudeTool_Name t) (ClaudeTool_Description t))
        /\ (len (ClaudeTool_Description t) <= 10240 ->
              ToolSpecification_Description (AmazonQTool_ToolSpecification (ConvertTool t))
              = ClaudeTool_Description t))
  /\ UserInputMessage_Content current
     = UserInputMessage_Content
         (current_message
            (Convert (with_tools req (List.filter is_long (ClaudeRequest_Tools req)))
               conversationID)).
Proof.
  intros current. subst current.
  destruct (Convert_current_message req conversationID) as (body & HC & HT).
  pose proof (HC (ClaudeRequest_Tools req)) as HC1.
  pose proof (HT (ClaudeRequest_Tools req)) as HT1.
  rewrite with_tools_same in HC1, HT1.
  split; [exact HT1|]. split.
  - intros t Hin. destruct (ConvertTool_description t) as [Hn Hd].
    split; [exact Hn|]. unfold is_long in Hd. split; intros Hl.
    + destruct (Z.gtb_spec (len (ClaudeTool_Description t)) 10240) as [_|Hs]; [|lia].
      split.
      * exists (slice_to (ClaudeTool_Description t) 10100). split; [|exact Hd].
        apply first_bytes_slice_to. lia.
      * rewrite HC1.
        apply with_system_prompt_documents, with_tool_documentation_documents.
        rewrite longDescTools_filter.
        apply (in_map (fun t => (ClaudeTool_Name t, ClaudeTool_Description t))).
        apply filter_In. split; [exact Hin|].
        unfold is_long. apply Z.gtb_lt. lia.
    + destruct (Z.gtb_spec (len (ClaudeTool_Description t)) 10240) as [Hs|_]; [lia|].
      exact Hd.
  - rewrite HC1, HC, longDescTools_only_long. reflexivity.
Qed.

End ConverterProperties.

(** *** Concrete conversions *)

Definition image (name : string) : AmazonQImage :=
  {| AmazonQImage_Format := "png"; AmazonQImage_Source := {| ImageBytes_Bytes := name |} |}.

(** A converted user turn with the given text and images. *)
Definition user_turn (text : string) (images : list AmazonQImage) : UserInputMessage :=
  {| UserInputMessage_Content := text;
     UserInputMessage_UserInputMessageContext :=
       {| UserInputMessageContext_EnvState := default_EnvState;
          UserInputMessageContext_Tools := [];
          UserInputMessageContext_ToolResults := [] |};
     UserInputMessage_Origin := "CLI";
     UserInputMessage_ModelID := "";
     UserInputMessage_Images := images |}.

(** A base64 image block of a message, and a text block. *)
Definition image_block (data : string) : JSON :=
  obj [ ("type", JStr "image");
        ("source", obj [ ("type", JStr "base64"); ("media_type", JStr "image/png");
                         ("data", JStr data) ]) ].

Definition text_block (text : string) : JSON :=
  obj [ ("type", JStr "text"); ("text", JStr text) ].

Definition user_message (content : JSON) : ClaudeMessage :=
  {| ClaudeMessage_Role := "user"; ClaudeMessage_Content := content |}.

(** Three user messages in a row, the first with the image [A], the second
    with text only, the third with the image [C], and then the message to
    answer. *)
Definition image_turns_request : ClaudeRequest :=
  {| ClaudeRequest_Model := "m";
     ClaudeRequest_Messages :=
       [ user_message (JArr [ text_block "one"; image_block "A" ]);
         user_message (JStr "two");
         user_message (JArr [ text_block "three"; image_block "C" ]);
         user_message (JStr "now") ];
     ClaudeRequest_MaxTokens := 1024;
     ClaudeRequest_Tools := [];
     ClaudeRequest_Stream := false;
     ClaudeRequest_System := JNull;
     ClaudeRequest_Thinking := None |}.

(** C8.  Three consecutive user turns carrying the images [a], none and
    [c] are merged into one turn.  The last two entries of the run carry
    [c] alone, and the comments of [MergeUserMessages] say that only the
    images of the last two messages are kept; the merged turn carries [a]
    and [c], because the loop gathers an image list only when it is not
    empty and so reaches back to the third entry from the end.  The same
    happens to the history of a request whose first three messages are such
    user turns. *)
Theorem merged_images_reach_past_the_last_two_entries
    (strings_TrimSpace strings_ToLower : string -> string) (GetCurrentTimestamp : string)
    (uuid_New : nat -> string) (t1 t2 t3 : string) (a c : AmazonQImage) :
  let us := [ user_turn t1 [a]; user_turn t2 []; user_turn t3 [c] ] in
  let history :=
    ConversationState_History
      (AmazonQRequest_ConversationState
         (ConvertClaudeToAmazonQRequest strings_TrimSpace strings_ToLower
            GetCurrentTimestamp uuid_New image_turns_request "c1")) in
  merge_consecutive (map user_entry us) [] [] = [user_entry (MergeUserMessages us)]
  /\ images_of_last_two_entries us = [c]
  /\ UserInputMessage_Images (MergeUserMessages us) = [a; c]
  /\ map (fun e => option_map UserInputMessage_Images (HistoryEntry_UserInputMessage e))
         history
     = [ Some [image "A"; image "C"] ].
Proof. repeat split; reflexivity. Qed.

(** Stand-ins for the library calls in the closed example below. *)
Definition sample_TrimSpace (s : string) : string := s.
Definition sample_ToLower (s : string) : string := s.
Definition sample_timestamp : string := "Monday, 2024-01-01T00:00:00.000+00:00".
Definition sample_uuid (n : nat) : string := "00000000-0000-4000-8000-000000000000".

(** A description of 10300 bytes. *)
Definition long_description : string :=
  string_of_list_ascii (replicate (Z.to_nat 10300) "d"%char).

Definition long_tool : ClaudeTool :=
  {| ClaudeTool_Name := "search";
     ClaudeTool_Description := long_description;
     ClaudeTool_InputSchema := obj [] |}.

Definition short_tool : ClaudeTool :=
  {| ClaudeTool_Name := "echo";
     ClaudeTool_Description := "Repeats its input.";
     ClaudeTool_InputSchema := obj [] |}.

Definition sample_request : ClaudeRequest :=
  {| ClaudeRequest_Model := "m";
     ClaudeRequest_Messages :=
       [ {| ClaudeMessage_Role := "user"; ClaudeMessage_Content := JStr "Hi" |} ];
     ClaudeRequest_MaxTokens := 1024;
     ClaudeRequest_Tools := [long_tool; short_tool];
     ClaudeRequest_Stream := false;
     ClaudeRequest_System := JNull;
     ClaudeRequest_Thinking := None |}.

(** An instance of [long_tool_descriptions_are_truncated_and_documented]:
    a request with a tool described in 10300 bytes and a tool described in
    a few. *)
Lemma long_tool_description_witness :
  let current :=
    current_message
      (ConvertClaudeToAmazonQRequest sample_TrimSpace sample_ToLower sample_timestamp
         sample_uuid sample_request "c1") in
  10240 < len long_description
  /\ len (ClaudeTool_Description short_tool) <= 10240
  /\ (exists cut,
        first_bytes 10100 long_description cut
        /\ ToolSpecification_Description
             (AmazonQTool_ToolSpecification (ConvertTool long_tool))
           = cut +:+ truncation_pointer)
  /\ documents (UserInputMessage_Content current) "search" long_description
  /\ ToolSpecification_Description (AmazonQTool_ToolSpecification (ConvertTool short_tool))
     = "Repeats its input.".
Proof.
  cbv zeta.
  assert (10240 < len long_description) as Hl by (vm_compute; reflexivity).
  assert (len (ClaudeTool_Description short_tool) <= 10240) as Hs
    by (vm_compute; intros H; discriminate H).
  destruct (long_tool_descriptions_are_truncated_and_documented
              sample_TrimSpace sample_ToLower sample_timestamp sample_uuid
              sample_request "c1") as (_ & H & _).
  destruct (H long_tool ltac:(left; reflexivity)) as (_ & Hlong & _).
  destruct (H short_tool ltac:(right; left; reflexivity)) as (_ & _ & Hshort).
  destruct (Hlong Hl) as [Hd Hdoc].
  split; [exact Hl|]. split; [exact Hs|].
  split; [exact Hd|]. split; [exact Hdoc|].
  exact (Hshort Hs).
Defined.

(** A description of 5121 characters of two bytes each (the bytes 195 and
    169 encode an accented letter in UTF-8). *)
Definition accented_description : string :=
  string_of_list_ascii (concat (replicate (Z.to_nat 5121) ["195"%char; "169"%char])).

Definition accented_tool : ClaudeTool :=
  {| ClaudeTool_Name := "search";
     ClaudeTool_Description := accented_description;
     ClaudeTool_InputSchema := obj [] |}.

(** C9, as stated, fails: a description of 5121 characters is not longer
    than 10240 characters, and still it is cut and sent to the
    documentation section, because it is 10242 bytes long and the code
    measures bytes. *)
Lemma description_length_is_counted_in_bytes :
  characters accented_description = 5121
  /\ len accented_description = 10242
  /\ ToolSpecification_Description (AmazonQTool_ToolSpecification (ConvertTool accented_tool))
     <> accented_description
  /\ longDescTools [accented_tool] = [ ("search"%string, accented_description) ].
Proof.
  split; [vm_compute; reflexivity|]. split; [vm_compute; reflexivity|].
  split; [|vm_compute; reflexivity].
  intros H. apply (f_equal String.length) in H. vm_compute in H. discriminate H.
Qed.

(** ** Further properties of the converter *)

Lemma length_append (a b : string) :
  String.length (a +:+ b) = (String.length a + String.length b)%nat.
Proof.
  induction a as [|x a IH]; [reflexivity|].
  change (S (String.length (a +:+ b)) = S (String.length a + String.length b)).
  f_equal. exact IH.
Qed.

Lemma len_append (a b : string) : len (a +:+ b) = len a + len b.
Proof. unfold len. rewrite length_append. lia. Qed.

Lemma substring_append (a b : string) :
  String.substring (String.length a) (String.length b) (a +:+ b) = b.
Proof.
  induction a as [|x a IH].
  - change ("" +:+ b) with b. apply Streaming.substring_all.
  - change (String.substring (String.length a) (String.length b) (a +:+ b) = b).
    exact IH.
Qed.

Lemma strings_HasSuffix_append (a b : string) : strings_HasSuffix (a +:+ b) b = true.
Proof.
  unfold strings_HasSuffix, slice_from, slice. rewrite len_append.
  destruct (Z.leb_spec (len b) (len a + len b)); [|unfold len in *; lia].
  cbn [andb].
  replace (Z.to_nat (len a + len b - len b)) with (String.length a) by (unfold len; lia).
  replace (Z.to_nat (len a + len b - (len a + len b - len b)))
    with (String.length b) by (unfold len; lia).
  rewrite substring_append. apply String.eqb_refl.
Qed.

Lemma strings_HasSuffix_refl (a : string) : strings_HasSuffix a a = true.
Proof. apply (strings_HasSuffix_append "" a). Qed.

(** X20.  However long a tool's description is, the description sent
    upstream has at most 10240 bytes: a longer one is cut to 10100 bytes and
    a pointer of 62. *)
Theorem converted_description_fits (tool : ClaudeTool) :
  len (ToolSpecification_Description (AmazonQTool_ToolSpecification (ConvertTool tool)))
  <= 10240.
Proof.
  unfold ConvertTool. cbn [AmazonQTool_ToolSpecification ToolSpecification_Description].
  destruct (Z.gtb_spec (len (ClaudeTool_Description tool)) 10240) as [Hl|Hs]; [|exact Hs].
  rewrite !len_append.
  assert (len (slice_to (ClaudeTool_Description tool) 10100) = 10100) as ->.
  { unfold slice_to, slice, len in *.
    rewrite Streaming.length_substring; lia. }
  change (len LF) with 1.
  change (len "...(Full description provided in TOOL DOCUMENTATION section)") with 60.
  lia.
Qed.

Section HintProperties.

Variable strings_TrimSpace : string -> string.

(** X21.  [AppendThinkingHint] is idempotent, provided trimming white space
    off a text that ends with the hint leaves the hint at its end, as it
    does for the hints [BuildThinkingHint] makes: appending the hint to a
    text that already carries it changes nothing. *)
Theorem AppendThinkingHint_idempotent (text hint : string) :
  (forall s, strings_HasSuffix s hint = true ->
             strings_HasSuffix (strings_TrimSpace s) hint = true) ->
  AppendThinkingHint strings_TrimSpace (AppendThinkingHint strings_TrimSpace text hint) hint
  = AppendThinkingHint strings_TrimSpace text hint.
Proof.
  intros Htrim.
  assert (strings_HasSuffix
            (strings_TrimSpace (AppendThinkingHint strings_TrimSpace text hint)) hint
          = true) as H.
  { unfold AppendThinkingHint.
    destruct (strings_HasSuffix (strings_TrimSpace text) hint) eqn:E; [exact E|].
    destruct (String.eqb text "").
    - apply Htrim, strings_HasSuffix_refl.
    - apply Htrim. rewrite <- append_assoc. apply strings_HasSuffix_append. }
  unfold AppendThinkingHint at 1. rewrite H. reflexivity.
Qed.

(** *** Tool results *)

Definition tool_result_ids (toolResults : list ToolResult) : list string :=
  map ToolResult_ToolUseID toolResults.

(** The text put in place of a content that says nothing. *)
Definition cancellation_text : string := "Tool use was cancelled by the user".

(** A content entry that says something: its text is not blank, or it is
    the cancellation text. *)
Definition says_something (c : ToolResultContent) : Prop :=
  strings_TrimSpace (ToolResultContent_Text c) <> EmptyString
  \/ ToolResultContent_Text c = cancellation_text.

Definition has_content (r : ToolResult) : Prop :=
  Exists says_something (ToolResult_Content r).

Lemma extend_tool_result_None (toolResults : list ToolResult) (toolUseID : string)
    (aqContent : list ToolResultContent) :
  extend_tool_result toolResults toolUseID aqContent = None ->
  ~ In toolUseID (tool_result_ids toolResults).
Proof.
  induction toolResults as [|r rest IH]; cbn; [tauto|].
  destruct (String.eqb_spec (ToolResult_ToolUseID r) toolUseID) as [E|N];
    [intros; discriminate|].
  destruct (extend_tool_result rest toolUseID aqContent); [intros; discriminate|].
  intros _ [H|H]; [congruence|]. exact (IH eq_refl H).
Qed.

Lemma extend_tool_result_Some (toolResults : list ToolResult) (toolUseID : string)
    (aqContent : list ToolResultContent) :
  forall extended,
    extend_tool_result toolResults toolUseID aqContent = Some extended ->
    tool_result_ids extended = tool_result_ids toolResults
    /\ (Forall has_content toolResults -> Forall has_content extended).
Proof.
  induction toolResults as [|r rest IH]; cbn; intros extended; [intros; discriminate|].
  destruct (String.eqb (ToolResult_ToolUseID r) toolUseID).
  - intros [= <-]. split; [reflexivity|].
    intros H. apply Forall_cons in H as [Hr Hrest]. constructor; [|exact Hrest].
    unfold has_content in *. cbn. apply Exists_app. left. exact Hr.
  - destruct (extend_tool_result rest toolUseID aqContent) as [rest'|];
      [|intros; discriminate].
    intros [= <-]. destruct (IH rest' eq_refl) as [Hi Hc]. split.
    + cbn. f_equal. exact Hi.
    + intros H. apply Forall_cons in H as [Hr Hrest]. constructor; auto.
Qed.

(** The content a block contributes says something: it holds an entry that
    is not blank, or it was replaced by the cancellation text. *)
Lemma contributed_content_says_something (raw : list ToolResultContent) :
  let hasContent :=
    existsb (fun c => negb (String.eqb (strings_TrimSpace (ToolResultContent_Text c)) ""))
            raw in
  Exists says_something
    (if negb hasContent
     then [ {| ToolResultContent_Text := "Tool use was cancelled by the user" |} ]
     else raw).
Proof.
  cbv zeta.
  destruct (existsb _ raw) eqn:E; cbn [negb].
  - apply existsb_exists in E as (c & Hin & Hc).
    apply Exists_exists. exists c. split; [apply list_elem_of_In, Hin|].
    left. apply negb_true_iff, String.eqb_neq in Hc. exact Hc.
  - constructor. right. reflexivity.
Qed.

(** One [tool_result] block keeps the ids distinct and every result
    saying something. *)
Lemma ProcessToolResultBlock_keeps (block : gmap string JSON)
    (toolResults : list ToolResult) :
  NoDup (tool_result_ids toolResults) -> Forall has_content toolResults ->
  NoDup (tool_result_ids (ProcessToolResultBlock strings_TrimSpace block toolResults))
  /\ Forall has_content (ProcessToolResultBlock strings_TrimSpace block toolResults).
Proof.
  intros Hn Hc. unfold ProcessToolResultBlock.
  pose proof (contributed_content_says_something
                (tool_result_content (get_value block "content"))) as Ha.
  cbv zeta in Ha.
  set (raw := tool_result_content (get_value block "content")) in *.
  set (hasContent := existsb _ raw) in *.
  set (aqContent := if negb hasContent then _ else raw) in *.
  destruct (extend_tool_result toolResults (get_string block "tool_use_id") aqContent)
    as [extended|] eqn:E.
  - apply extend_tool_result_Some in E as [Hi He]. rewrite Hi. auto.
  - apply extend_tool_result_None in E. split.
    + unfold tool_result_ids in *. rewrite List.map_app. cbn [map].
      apply NoDup_app. split; [exact Hn|]. split; [|apply NoDup_singleton].
      intros x Hx Hx'. apply list_elem_of_singleton in Hx'. subst x.
      apply E, list_elem_of_In, Hx.
    + apply Forall_app. split; [exact Hc|]. constructor; [exact Ha|constructor].
Qed.

Lemma user_blocks_keeps (blocks : list JSON) :
  forall textParts toolResults hasToolResult,
    NoDup (tool_result_ids toolResults) -> Forall has_content toolResults ->
    NoDup (tool_result_ids
             (snd (fst (user_blocks strings_TrimSpace blocks textParts toolResults
                          hasToolResult))))
    /\ Forall has_content
         (snd (fst (user_blocks strings_TrimSpace blocks textParts toolResults
                      hasToolResult))).
Proof.
  induction blocks as [|block blocks IH]; intros textParts toolResults hasToolResult Hn Hc;
    cbn [user_blocks]; [split; assumption|].
  destruct block as [| | | | |blockMap]; try (apply IH; assumption).
  destruct (String.eqb (get_string blockMap "type") "text").
  - destruct (blockMap !! "text") as [[]|]; apply IH; assumption.
  - destruct (String.eqb (get_string blockMap "type") "tool_result");
      [|apply IH; assumption].
    destruct (ProcessToolResultBlock_keeps blockMap toolResults Hn Hc).
    apply IH; assumption.
Qed.

(** X22.  Whatever blocks a user message carries, the tool results made of
    it have pairwise distinct ids, the blocks with the same [tool_use_id]
    being merged into one result, and each of them says something: its
    content holds an entry whose text is not blank, or the cancellation
    text that is put in place of a content that is empty or blank. *)
Theorem tool_results_are_distinct_and_filled (content : JSON) :
  NoDup (tool_result_ids (snd (fst (user_text_and_results strings_TrimSpace content))))
  /\ Forall (fun r =>
               Exists (fun c =>
                         strings_TrimSpace (ToolResultContent_Text c) <> EmptyString
                         \/ ToolResultContent_Text c
                            = "Tool use was cancelled by the user"%string)
                      (ToolResult_Content r))
       (snd (fst (user_text_and_results strings_TrimSpace content))).
Proof.
  change (NoDup (tool_result_ids
                   (snd (fst (user_text_and_results strings_TrimSpace content))))
          /\ Forall has_content
               (snd (fst (user_text_and_results strings_TrimSpace content)))).
  unfold user_text_and_results.
  destruct (as_list content) as [contentList|];
    [|cbn; split; constructor].
  pose proof (user_blocks_keeps contentList [] [] false ltac:(constructor)
                ltac:(constructor)) as H.
  destruct (user_blocks strings_TrimSpace contentList [] [] false) as [[tp tr] b].
  exact H.
Qed.

End HintProperties.

(** *** The shape of the history *)

Definition is_user_entry (e : HistoryEntry) : bool :=
  is_some (HistoryEntry_UserInputMessage e).

(** No two neighbours are both user entries. *)
Fixpoint no_adjacent_users (history : list HistoryEntry) : bool :=
  match history with
  | e1 :: (e2 :: _) as rest =>
      negb (is_user_entry e1 && is_user_entry e2) && no_adjacent_users rest
  | _ => true
  end.

(** The last entry, if there is one, is not a user entry. *)
Definition ends_with_assistant (history : list HistoryEntry) : bool :=
  match last history with
  | Some e => negb (is_user_entry e)
  | None => true
  end.

Lemma no_adjacent_users_snoc (history : list HistoryEntry) (e : HistoryEntry) :
  no_adjacent_users history = true ->
  ends_with_assistant history = true \/ is_user_entry e = false ->
  no_adjacent_users (history ++ [e]) = true.
Proof.
  induction history as [|e1 [|e2 rest] IH]; intros Hn He; [reflexivity| |].
  - cbn. unfold ends_with_assistant in He. cbn in He.
    destruct He as [He|He]; [|rewrite He, andb_false_r; reflexivity].
    apply negb_true_iff in He. rewrite He. reflexivity.
  - cbn [app no_adjacent_users] in *. apply andb_prop in Hn as [H1 H2].
    rewrite H1. cbn [andb]. apply IH; [exact H2|].
    destruct He as [He|He]; [left|right; exact He].
    unfold ends_with_assistant in *. rewrite last_cons in He.
    destruct (last (e2 :: rest)) eqn:El; [exact He|].
    rewrite last_cons in El. destruct (last rest); discriminate El.
Qed.

Lemma flush_pending_keeps (pendingUserMsgs : list UserInputMessage)
    (history : list HistoryEntry) :
  no_adjacent_users history = true -> ends_with_assistant history = true ->
  no_adjacent_users (flush_pending pendingUserMsgs history) = true.
Proof.
  intros Hn He. unfold flush_pending.
  destruct (0 <? List.length pendingUserMsgs)%nat; [|exact Hn].
  apply no_adjacent_users_snoc; auto.
Qed.

Lemma merge_consecutive_no_adjacent_users (rawHistory : list HistoryEntry) :
  forall pendingUserMsgs history,
    no_adjacent_users history = true -> ends_with_assistant history = true ->
    no_adjacent_users (merge_consecutive rawHistory pendingUserMsgs history) = true.
Proof.
  induction rawHistory as [|item rest IH]; intros pending history Hn He;
    cbn [merge_consecutive].
  - apply flush_pending_keeps; assumption.
  - destruct (HistoryEntry_UserInputMessage item) as [u|] eqn:Eu; [apply IH; assumption|].
    destruct (HistoryEntry_AssistantResponseMessage item); [|apply IH; assumption].
    apply IH.
    + apply no_adjacent_users_snoc; [apply flush_pending_keeps; assumption|].
      right. unfold is_user_entry. rewrite Eu. reflexivity.
    + unfold ends_with_assistant, is_user_entry. rewrite last_snoc, Eu. reflexivity.
Qed.

Section HistoryProperties.

Variable strings_TrimSpace : string -> string.
Variable strings_ToLower : string -> string.
Variable GetCurrentTimestamp : string.
Variable uuid_New : nat -> string.

#[local] Abbreviation Convert :=
  (ConvertClaudeToAmazonQRequest strings_TrimSpace strings_ToLower GetCurrentTimestamp
     uuid_New).

Lemma Convert_history (req : ClaudeRequest) (conversationID : string) :
  exists messages thinkingEnabled thinkingHint next,
    ConversationState_History (AmazonQRequest_ConversationState (Convert req conversationID))
    = fst (ProcessHistory strings_TrimSpace uuid_New messages thinkingEnabled thinkingHint
             next).
Proof.
  unfold ConvertClaudeToAmazonQRequest.
  repeat match goal with
         | |- context [let '(_, _) := ?X in _] => destruct X eqn:?
         end.
  cbn [AmazonQRequest_ConversationState ConversationState_History].
  match goal with
  | H : ProcessHistory _ _ ?m ?t ?h ?n = _ |- _ =>
      exists m, t, h, n; rewrite H; reflexivity
  end.
Qed.

(** X23.  In the history sent upstream no two neighbouring entries are both
    user entries, whatever the roles of the messages of the request are:
    user messages that follow one another have been merged into one. *)
Theorem history_has_no_adjacent_user_entries (req : ClaudeRequest)
    (conversationID : string) :
  no_adjacent_users
    (ConversationState_History (AmazonQRequest_ConversationState (Convert req conversationID)))
  = true.
Proof.
  destruct (Convert_history req conversationID) as (m & t & h & n & ->).
  unfold ProcessHistory.
  destruct (convert_messages _ _ _ _ _ _ _ _) as [rawHistory next].
  cbn [fst]. apply merge_consecutive_no_adjacent_users; reflexivity.
Qed.

(** *** A turn that only carries tool results *)

Definition is_tool_result_block (block : JSON) : bool :=
  match block with
  | JObj blockMap => String.eqb (get_string blockMap "type") "tool_result"
  | _ => false
  end.

Lemma user_blocks_tool_results (blocks : list JSON) :
  forallb is_tool_result_block blocks = true ->
  forall textParts toolResults hasToolResult,
    fst (fst (user_blocks strings_TrimSpace blocks textParts toolResults hasToolResult))
    = textParts
    /\ snd (user_blocks strings_TrimSpace blocks textParts toolResults hasToolResult)
       = match blocks with [] => hasToolResult | _ => true end.
Proof.
  induction blocks as [|block blocks IH]; intros Hb textParts toolResults hasToolResult;
    [split; reflexivity|].
  cbn [forallb] in Hb. apply andb_prop in Hb as [H1 H2].
  destruct block as [| | | | |blockMap]; try discriminate H1.
  cbn [is_tool_result_block] in H1. apply String.eqb_eq in H1.
  cbn [user_blocks]. rewrite H1. cbn.
  destruct (IH H2 textParts (ProcessToolResultBlock strings_TrimSpace blockMap toolResults)
              true) as [I1 I2].
  split; [exact I1|]. rewrite I2. destruct blocks; reflexivity.
Qed.

Lemma ContainsToolContent_tool_results (blocks : list JSON) :
  blocks <> [] -> forallb is_tool_result_block blocks = true ->
  ContainsToolContent (JArr blocks) = true.
Proof.
  intros Hn Hb. destruct blocks as [|block blocks]; [congruence|].
  cbn [forallb] in Hb. apply andb_prop in Hb as [H1 _].
  destruct block as [| | | | |blockMap]; try discriminate H1.
  cbn [is_tool_result_block] in H1.
  unfold ContainsToolContent. cbn. rewrite H1. reflexivity.
Qed.

(** X24.  When the last message of the request is a user message made of
    [tool_result] blocks only, and no tool has a long description, the
    current message is sent with an empty content: no context entry, no
    user-message wrapper, no thinking hint, and the system prompt is left
    out as well. *)
Theorem tool_result_turn_has_empty_content (req : ClaudeRequest) (conversationID : string)
    (earlier : list ClaudeMessage) (m : ClaudeMessage) (blocks : list JSON) :
  ClaudeRequest_Messages req = earlier ++ [m] ->
  ClaudeMessage_Role m = "user"%string ->
  ClaudeMessage_Content m = JArr blocks ->
  blocks <> [] ->
  forallb is_tool_result_block blocks = true ->
  List.filter is_long (ClaudeRequest_Tools req) = [] ->
  UserInputMessage_Content (current_message (Convert req conversationID)) = EmptyString.
Proof.
  intros Hm Hr Hc Hn Hb Hl.
  unfold ConvertClaudeToAmazonQRequest, current_message.
  rewrite Hm, last_snoc, Hr, Hc, longDescTools_filter, Hl.
  rewrite (ContainsToolContent_tool_results blocks Hn Hb), andb_false_r.
  unfold user_text_and_results. cbn [as_list].
  destruct (user_blocks_tool_results blocks Hb [] [] false) as [H1 H2].
  destruct (user_blocks strings_TrimSpace blocks [] [] false) as [[tp tr] b].
  cbn [fst snd] in H1, H2. subst tp.
  assert (b = true) as -> by (destruct blocks; [congruence|exact H2]).
  cbn.
  repeat match goal with
         | |- context [let '(_, _) := ?X in _] => destruct X
         end.
  cbn. unfold with_system_prompt. cbn. rewrite andb_false_r. reflexivity.
Qed.

(** *** Tool uses in the history *)

Definition entry_tool_use_ids (e : HistoryEntry) : list string :=
  match HistoryEntry_AssistantResponseMessage e with
  | Some a => map ToolUse_ToolUseID (AssistantResponseMessage_ToolUses a)
  | None => []
  end.

Definition history_tool_use_ids (history : list HistoryEntry) : list string :=
  flat_map entry_tool_use_ids history.

(** The ids gathered so far are distinct, and each is marked as seen. *)
Definition all_seen (ids : list string) (seenToolUseIDs : gmap string bool) : Prop :=
  NoDup ids /\ forall x, In x ids -> seenToolUseIDs !! x = Some true.

Lemma assistant_tool_uses_all_seen (prior : list string) (blocks : list JSON) :
  forall seenToolUseIDs toolUses,
    all_seen (prior ++ map ToolUse_ToolUseID toolUses) seenToolUseIDs ->
    all_seen (prior ++ map ToolUse_ToolUseID
                         (fst (assistant_tool_uses blocks seenToolUseIDs toolUses)))
             (snd (assistant_tool_uses blocks seenToolUseIDs toolUses)).
Proof.
  induction blocks as [|block blocks IH]; intros seen toolUses H;
    cbn [assistant_tool_uses]; [exact H|].
  destruct block as [| | | | |blockMap]; try (apply IH; exact H).
  destruct (is_str (get_value blockMap "type") "tool_use"); [|apply IH; exact H].
  set (tid := get_string blockMap "id").
  destruct (negb (String.eqb tid "")
            && negb (match seen !! tid with Some b => b | None => false end)) eqn:E;
    [|apply IH; exact H].
  apply andb_prop in E as [_ E]. apply negb_true_iff in E.
  apply IH. destruct H as [Hn Hs]. rewrite List.map_app, app_assoc.
  cbn [map ToolUse_ToolUseID]. split.
  - apply NoDup_app. split; [exact Hn|]. split; [|apply NoDup_singleton].
    intros x Hx Hx'. apply list_elem_of_singleton in Hx'. subst x.
    apply list_elem_of_In, Hs in Hx. rewrite Hx in E. discriminate E.
  - intros x Hx. apply in_app_or in Hx as [Hx|[<-|[]]].
    + destruct (String.eqb_spec x tid) as [->|N].
      * apply lookup_insert_eq.
      * rewrite lookup_insert_ne by congruence. apply Hs, Hx.
    + apply lookup_insert_eq.
Qed.

Lemma convert_messages_all_seen (messages : list ClaudeMessage) (thinkingEnabled : bool)
    (thinkingHint : string) :
  forall seenToolUseIDs next rawHistory,
    all_seen (history_tool_use_ids rawHistory) seenToolUseIDs ->
    NoDup (history_tool_use_ids
             (fst (convert_messages strings_TrimSpace uuid_New messages thinkingEnabled
                     thinkingHint seenToolUseIDs next rawHistory))).
Proof.
  induction messages as [|msg messages IH]; intros seen next rawHistory H;
    cbn [convert_messages]; [exact (proj1 H)|].
  destruct (String.eqb (ClaudeMessage_Role msg) "user").
  - destruct (user_text_and_results _ _) as [[textContent toolResults] b].
    apply IH. unfold history_tool_use_ids in *. rewrite flat_map_app. cbn.
    rewrite app_nil_r. exact H.
  - destruct (String.eqb (ClaudeMessage_Role msg) "assistant"); [|apply IH; exact H].
    destruct (as_list (ClaudeMessage_Content msg)) as [contentList|].
    + pose proof (assistant_tool_uses_all_seen (history_tool_use_ids rawHistory)
                    contentList seen []) as A.
      destruct (assistant_tool_uses contentList seen []) as [toolUses seen'].
      cbn [fst snd map] in A. rewrite app_nil_r in A. specialize (A H).
      apply IH. unfold history_tool_use_ids in *. rewrite flat_map_app. cbn.
      rewrite app_nil_r. exact A.
    + apply IH. unfold history_tool_use_ids in *. rewrite flat_map_app. cbn.
      rewrite app_nil_r. exact H.
Qed.

(** **** The first tool use of each id is the one kept *)

Definition history_tool_uses (history : list HistoryEntry) : list ToolUse :=
  flat_map (fun e =>
              match HistoryEntry_AssistantResponseMessage e with
              | Some a => AssistantResponseMessage_ToolUses a
              | None => []
              end) history.

(** The tool use a block of an assistant message describes: a [tool_use]
    block with an id that is not empty. *)
Definition tool_use_of_block (block : JSON) : option ToolUse :=
  match block with
  | JObj blockMap =>
      if is_str (get_value blockMap "type") "tool_use"
         && negb (String.eqb (get_string blockMap "id") "")
      then Some {| ToolUse_ToolUseID := get_string blockMap "id";
                   ToolUse_Name := get_string blockMap "name";
                   ToolUse_Input :=
                     match blockMap !! "input" with
                     | Some (JObj inp) => JObj inp
                     | _ => JObj ∅
                     end |}
      else None
  | _ => None
  end.

(** The tool uses the assistant messages describe, in order, with the ids
    that come again. *)
Definition requested_tool_uses (messages : list ClaudeMessage) : list ToolUse :=
  flat_map (fun msg =>
              if String.eqb (ClaudeMessage_Role msg) "assistant" then
                match as_list (ClaudeMessage_Content msg) with
                | Some contentList => omap tool_use_of_block contentList
                | None => []
                end
              else []) messages.

(** The first tool use of each id, those with an id in [seen] left out. *)
Fixpoint first_of_each_id (seen : list string) (uses : list ToolUse) : list ToolUse :=
  match uses with
  | [] => []
  | u :: rest =>
      if existsb (String.eqb (ToolUse_ToolUseID u)) seen
      then first_of_each_id seen rest
      else u :: first_of_each_id (ToolUse_ToolUseID u :: seen) rest
  end.

(** The map [seenToolUseIDs] marks the ids of [seen], and no other. *)
Definition marks (seenToolUseIDs : gmap string bool) (seen : list string) : Prop :=
  forall x,
    match seenToolUseIDs !! x with Some b => b | None => false end
    = existsb (String.eqb x) seen.

Lemma existsb_eqb_In (x : string) (l : list string) :
  existsb (String.eqb x) l = true <-> In x l.
Proof.
  rewrite existsb_exists. split.
  - intros (y & Hy & E). apply String.eqb_eq in E. subst y. exact Hy.
  - intros H. exists x. split; [exact H|apply String.eqb_refl].
Qed.

Lemma existsb_eqb_ext (l l' : list string) :
  (forall x, In x l <-> In x l') ->
  forall x, existsb (String.eqb x) l = existsb (String.eqb x) l'.
Proof.
  intros H x.
  destruct (existsb (String.eqb x) l) eqn:E1, (existsb (String.eqb x) l') eqn:E2;
    try reflexivity.
  - apply existsb_eqb_In, H, existsb_eqb_In in E1. congruence.
  - apply existsb_eqb_In, H, existsb_eqb_In in E2. congruence.
Qed.

Lemma first_of_each_id_ext (uses : list ToolUse) :
  forall seen seen',
    (forall x, In x seen <-> In x seen') ->
    first_of_each_id seen uses = first_of_each_id seen' uses.
Proof.
  induction uses as [|u uses IH]; intros seen seen' H; cbn [first_of_each_id];
    [reflexivity|].
  rewrite (existsb_eqb_ext seen seen' H).
  destruct (existsb (String.eqb (ToolUse_ToolUseID u)) seen'); [apply IH, H|].
  f_equal. apply IH. intros x. cbn [In]. rewrite H. reflexivity.
Qed.

Lemma first_of_each_id_app (uses1 uses2 : list ToolUse) :
  forall seen,
    first_of_each_id seen (uses1 ++ uses2)
    = first_of_each_id seen uses1
      ++ first_of_each_id
           (map ToolUse_ToolUseID (first_of_each_id seen uses1) ++ seen) uses2.
Proof.
  induction uses1 as [|u uses1 IH]; intros seen; cbn [first_of_each_id app];
    [reflexivity|].
  destruct (existsb (String.eqb (ToolUse_ToolUseID u)) seen); [apply IH|].
  cbn [app map]. f_equal. rewrite IH. f_equal.
  apply first_of_each_id_ext. intros x. cbn [In]. rewrite !in_app_iff. cbn [In]. tauto.
Qed.

Lemma marks_insert (seenToolUseIDs : gmap string bool) (seen : list string) (tid : string) :
  marks seenToolUseIDs seen -> marks (<[tid := true]> seenToolUseIDs) (tid :: seen).
Proof.
  intros H x. cbn [existsb].
  destruct (String.eqb_spec x tid) as [->|N].
  - rewrite lookup_insert_eq. reflexivity.
  - rewrite lookup_insert_ne by congruence. apply H.
Qed.

Lemma marks_ext (seenToolUseIDs : gmap string bool) (seen seen' : list string) :
  (forall x, In x seen <-> In x seen') ->
  marks seenToolUseIDs seen -> marks seenToolUseIDs seen'.
Proof. intros H M x. rewrite (M x). apply existsb_eqb_ext, H. Qed.

(** The loop over the blocks of one assistant message keeps the first tool
    use of each id not seen before. *)
Lemma assistant_tool_uses_first (blocks : list JSON) :
  forall seenToolUseIDs seen toolUses,
    marks seenToolUseIDs seen ->
    fst (assistant_tool_uses blocks seenToolUseIDs toolUses)
    = toolUses ++ first_of_each_id seen (omap tool_use_of_block blocks)
    /\ marks (snd (assistant_tool_uses blocks seenToolUseIDs toolUses))
         (map ToolUse_ToolUseID (first_of_each_id seen (omap tool_use_of_block blocks))
          ++ seen).
Proof.
  assert (forall block l,
            omap tool_use_of_block (block :: l)
            = match tool_use_of_block block with
              | Some u => u :: omap tool_use_of_block l
              | None => omap tool_use_of_block l
              end) as Oc by reflexivity.
  induction blocks as [|block blocks IH]; intros m seen toolUses M;
    cbn [assistant_tool_uses].
  - cbn. rewrite app_nil_r. split; [reflexivity|exact M].
  - rewrite Oc.
    destruct block as [| | | | |blockMap]; try (apply IH; exact M).
    cbn [tool_use_of_block].
    destruct (is_str (get_value blockMap "type") "tool_use"); [|apply IH; exact M].
    cbn [andb].
    destruct (negb (String.eqb (get_string blockMap "id") "")); [|apply IH; exact M].
    cbn [andb first_of_each_id ToolUse_ToolUseID].
    rewrite (M (get_string blockMap "id")).
    destruct (existsb (String.eqb (get_string blockMap "id")) seen) eqn:E; cbn [negb];
      [apply IH; exact M|].
    destruct (IH _ _ (toolUses ++ [ {| ToolUse_ToolUseID := get_string blockMap "id";
                                       ToolUse_Name := get_string blockMap "name";
                                       ToolUse_Input :=
                                         match blockMap !! "input" with
                                         | Some (JObj inp) => JObj inp
                                         | _ => JObj ∅
                                         end |} ])
                (marks_insert m seen (get_string blockMap "id") M)) as [I1 I2].
    split.
    + rewrite I1, <- app_assoc. reflexivity.
    + eapply marks_ext; [|exact I2].
      intros x. cbn [map app In ToolUse_ToolUseID]. rewrite !in_app_iff. cbn [In]. tauto.
Qed.

Lemma history_tool_use_ids_map (history : list HistoryEntry) :
  history_tool_use_ids history = map ToolUse_ToolUseID (history_tool_uses history).
Proof.
  unfold history_tool_use_ids, history_tool_uses.
  induction history as [|e l IH]; [reflexivity|].
  cbn [flat_map]. rewrite List.map_app, <- IH. f_equal.
  unfold entry_tool_use_ids.
  destruct (HistoryEntry_AssistantResponseMessage e); reflexivity.
Qed.

Lemma history_tool_uses_app (h1 h2 : list HistoryEntry) :
  history_tool_uses (h1 ++ h2) = history_tool_uses h1 ++ history_tool_uses h2.
Proof. apply flat_map_app. Qed.

Lemma requested_tool_uses_cons (msg : ClaudeMessage) (messages : list ClaudeMessage) :
  requested_tool_uses (msg :: messages)
  = (if String.eqb (ClaudeMessage_Role msg) "assistant" then
       match as_list (ClaudeMessage_Content msg) with
       | Some contentList => omap tool_use_of_block contentList
       | None => []
       end
     else [])
    ++ requested_tool_uses messages.
Proof. reflexivity. Qed.

(** Pass one of [ProcessHistory] keeps, over all assistant messages, the
    first tool use of each id. *)
Lemma convert_messages_first (messages : list ClaudeMessage) (thinkingEnabled : bool)
    (thinkingHint : string) :
  forall seenToolUseIDs seen next rawHistory,
    marks seenToolUseIDs seen ->
    history_tool_uses
      (fst (convert_messages strings_TrimSpace uuid_New messages thinkingEnabled
              thinkingHint seenToolUseIDs next rawHistory))
    = history_tool_uses rawHistory
      ++ first_of_each_id seen (requested_tool_uses messages).
Proof.
  induction messages as [|msg messages IH]; intros m seen next rawHistory M;
    cbn [convert_messages].
  - cbn. rewrite app_nil_r. reflexivity.
  - rewrite requested_tool_uses_cons.
    destruct (String.eqb_spec (ClaudeMessage_Role msg) "user") as [Eu|Nu].
    + rewrite Eu. cbn [String.eqb]. change (String.eqb "user" "assistant") with false.
      cbn [app].
      destruct (user_text_and_results _ _) as [[textContent toolResults] b].
      rewrite (IH _ _ _ _ M), history_tool_uses_app. cbn. rewrite app_nil_r. reflexivity.
    + destruct (String.eqb (ClaudeMessage_Role msg) "assistant");
        [|cbn [app]; apply IH; exact M].
      destruct (as_list (ClaudeMessage_Content msg)) as [contentList|].
      * destruct (assistant_tool_uses_first contentList m seen [] M) as [A1 A2].
        destruct (assistant_tool_uses contentList m []) as [toolUses m'].
        cbn [fst snd app] in A1, A2. subst toolUses.
        rewrite (IH _ _ _ _ A2), history_tool_uses_app, first_of_each_id_app. cbn.
        rewrite !app_nil_r, app_assoc. reflexivity.
      * cbn [app]. rewrite (IH _ _ _ _ M), history_tool_uses_app. cbn.
        rewrite !app_nil_r. reflexivity.
Qed.

Lemma flush_pending_tool_uses (pendingUserMsgs : list UserInputMessage)
    (history : list HistoryEntry) :
  history_tool_uses (flush_pending pendingUserMsgs history) = history_tool_uses history.
Proof.
  unfold flush_pending. destruct (0 <? List.length pendingUserMsgs)%nat; [|reflexivity].
  rewrite history_tool_uses_app. cbn. apply app_nil_r.
Qed.

(** Pass two of [ProcessHistory] keeps every tool use, in order. *)
Lemma merge_consecutive_tool_uses (rawHistory : list HistoryEntry) :
  (forall e, In e rawHistory ->
             HistoryEntry_UserInputMessage e = None
             \/ HistoryEntry_AssistantResponseMessage e = None) ->
  forall pendingUserMsgs history,
    history_tool_uses (merge_consecutive rawHistory pendingUserMsgs history)
    = history_tool_uses history ++ history_tool_uses rawHistory.
Proof.
  induction rawHistory as [|item rest IH]; intros Hx pending history;
    cbn [merge_consecutive].
  - rewrite flush_pending_tool_uses. cbn. rewrite app_nil_r. reflexivity.
  - change (history_tool_uses (item :: rest))
      with (match HistoryEntry_AssistantResponseMessage item with
            | Some a => AssistantResponseMessage_ToolUses a
            | None => []
            end ++ history_tool_uses rest).
    assert (forall e, In e rest ->
                      HistoryEntry_UserInputMessage e = None
                      \/ HistoryEntry_AssistantResponseMessage e = None) as Hr
      by (intros e He; apply Hx; right; exact He).
    destruct (Hx item ltac:(left; reflexivity)) as [Hu|Ha].
    + rewrite Hu. destruct (HistoryEntry_AssistantResponseMessage item) as [a|] eqn:Ea.
      * rewrite (IH Hr), history_tool_uses_app, flush_pending_tool_uses. cbn.
        rewrite Ea, app_nil_r, <- app_assoc. reflexivity.
      * cbn [app]. apply (IH Hr).
    + rewrite Ha. cbn [app].
      destruct (HistoryEntry_UserInputMessage item); apply (IH Hr).
Qed.

(** Pass one makes entries that are a user entry or an assistant entry,
    never both. *)
Lemma convert_messages_one_sided (messages : list ClaudeMessage) (thinkingEnabled : bool)
    (thinkingHint : string) :
  forall seenToolUseIDs next rawHistory,
    (forall e, In e rawHistory ->
               HistoryEntry_UserInputMessage e = None
               \/ HistoryEntry_AssistantResponseMessage e = None) ->
    forall e,
      In e (fst (convert_messages strings_TrimSpace uuid_New messages thinkingEnabled
                   thinkingHint seenToolUseIDs next rawHistory)) ->
      HistoryEntry_UserInputMessage e = None
      \/ HistoryEntry_AssistantResponseMessage e = None.
Proof.
  induction messages as [|msg messages IH]; intros m next rawHistory H;
    cbn [convert_messages]; [exact H|].
  destruct (String.eqb (ClaudeMessage_Role msg) "user").
  - destruct (user_text_and_results _ _) as [[textContent toolResults] b].
    apply IH. intros e He. apply in_app_or in He as [He|[<-|[]]]; [apply H, He|].
    right. reflexivity.
  - destruct (String.eqb (ClaudeMessage_Role msg) "assistant"); [|apply IH, H].
    destruct (match as_list (ClaudeMessage_Content msg) with
              | Some contentList => assistant_tool_uses contentList m []
              | None => ([], m)
              end) as [toolUses m'].
    apply IH. intros e He. apply in_app_or in He as [He|[<-|[]]]; [apply H, He|].
    left. reflexivity.
Qed.

(** The messages [ProcessHistory] is called on: all but the last. *)
Lemma history_messages (messages : list ClaudeMessage) :
  (if (1 <? List.length messages)%nat
   then take (List.length messages - 1) messages else [])
  = removelast messages.
Proof.
  induction messages as [|m1 [|m2 rest] IH]; [reflexivity|reflexivity|].
  change (removelast (m1 :: m2 :: rest)) with (m1 :: removelast (m2 :: rest)).
  rewrite <- IH. cbn [List.length].
  destruct rest as [|m3 rest]; [reflexivity|].
  cbn [Nat.ltb Nat.leb List.length].
  replace (S (S (S (List.length rest))) - 1)%nat with (S (S (List.length rest))) by lia.
  replace (S (S (List.length rest)) - 1)%nat with (S (List.length rest)) by lia.
  reflexivity.
Qed.

Lemma Convert_history_messages (req : ClaudeRequest) (conversationID : string) :
  exists thinkingEnabled thinkingHint next,
    ConversationState_History (AmazonQRequest_ConversationState (Convert req conversationID))
    = fst (ProcessHistory strings_TrimSpace uuid_New
             (removelast (ClaudeRequest_Messages req)) thinkingEnabled thinkingHint next).
Proof.
  unfold ConvertClaudeToAmazonQRequest. rewrite history_messages.
  repeat match goal with
         | |- context [let '(_, _) := ?X in _] => destruct X eqn:?
         end.
  cbn [AmazonQRequest_ConversationState ConversationState_History].
  match goal with
  | H : ProcessHistory _ _ _ ?t ?h ?n = _ |- _ =>
      exists t, h, n; rewrite H; reflexivity
  end.
Qed.

(** X25.  A tool use id appears at most once among the tool uses of the
    history sent upstream, and the tool use kept for an id is the first one
    that the assistant messages before the last message describe with that
    id: the tool uses of the history are the first of each id, in the order
    of the messages. *)
Theorem history_keeps_the_first_tool_use_of_each_id
    (req : ClaudeRequest) (conversationID : string) :
  let history :=
    ConversationState_History
      (AmazonQRequest_ConversationState (Convert req conversationID)) in
  NoDup (map ToolUse_ToolUseID (history_tool_uses history))
  /\ history_tool_uses history
     = first_of_each_id []
         (requested_tool_uses (removelast (ClaudeRequest_Messages req))).
Proof.
  cbv zeta.
  destruct (Convert_history_messages req conversationID) as (t & h & n & ->).
  unfold ProcessHistory.
  pose proof (convert_messages_all_seen (removelast (ClaudeRequest_Messages req))
                t h ∅ n []) as C.
  pose proof (convert_messages_first (removelast (ClaudeRequest_Messages req))
                t h ∅ [] n []) as F.
  pose proof (convert_messages_one_sided (removelast (ClaudeRequest_Messages req))
                t h ∅ n []) as O.
  destruct (convert_messages _ _ _ _ _ _ _ _) as [rawHistory next].
  cbn [fst] in *.
  rewrite merge_consecutive_tool_uses by (apply O; intros e []).
  cbn [history_tool_uses flat_map app].
  split.
  - rewrite <- history_tool_use_ids_map. apply C. split; [constructor|intros x []].
  - apply F. intros x. rewrite lookup_empty. reflexivity.
Qed.

End HistoryProperties.

(** *** Instances *)

(** An instance of [AppendThinkingHint_idempotent], with a [TrimSpace] that
    finds nothing to trim. *)
Lemma AppendThinkingHint_witness :
  AppendThinkingHint sample_TrimSpace
    (AppendThinkingHint sample_TrimSpace "Hello" (BuildThinkingHint 16000))
    (BuildThinkingHint 16000)
  = AppendThinkingHint sample_TrimSpace "Hello" (BuildThinkingHint 16000).
Proof.
  apply AppendThinkingHint_idempotent. intros s H. exact H.
Defined.

(** A request whose only message returns the result of a tool call. *)
Definition tool_result_request : ClaudeRequest :=
  {| ClaudeRequest_Model := "claude-sonnet-4";
     ClaudeRequest_Messages :=
       [ {| ClaudeMessage_Role := "user";
            ClaudeMessage_Content :=
              JArr [ obj [ ("type", JStr "tool_result"); ("tool_use_id", JStr "t1");
                           ("content", JStr "42") ] ] |} ];
     ClaudeRequest_MaxTokens := 1024;
     ClaudeRequest_Tools := [];
     ClaudeRequest_Stream := false;
     ClaudeRequest_System := JStr "Be brief.";
     ClaudeRequest_Thinking := None |}.

(** An instance of [tool_result_turn_has_empty_content]. *)
Lemma tool_result_turn_witness :
  UserInputMessage_Content
    (current_message
       (ConvertClaudeToAmazonQRequest sample_TrimSpace sample_ToLower sample_timestamp
          sample_uuid tool_result_request "c1"))
  = EmptyString.
Proof.
  apply (tool_result_turn_has_empty_content sample_TrimSpace sample_ToLower
           sample_timestamp sample_uuid tool_result_request "c1" []
           {| ClaudeMessage_Role := "user";
              ClaudeMessage_Content :=
                JArr [ obj [ ("type", JStr "tool_result"); ("tool_use_id", JStr "t1");
                             ("content", JStr "42") ] ] |}
           [ obj [ ("type", JStr "tool_result"); ("tool_use_id", JStr "t1");
                   ("content", JStr "42") ] ]);
    try reflexivity.
  intros H; discriminate H.
Defined.

End Converter.

(** ** Authentication (middleware.go) *)

Module Auth.

(** [strings.SplitN(s, ":", 3)]: the text is cut at its first two colons,
    and what follows the second is kept whole. *)
Definition strings_SplitN3 (s : string) : list string :=
  let m := strings_Index s ":" in
  if m <? 0 then [s] else
  let first := slice_to s m in
  let s := slice_from s (m + 1) in
  let m := strings_Index s ":" in
  if m <? 0 then [first; s] else
  [first; slice_to s m; slice_from s (m + 1)].

(** [parseBearerToken] *)
Definition parseBearerToken (bearerToken : string) : string * string * string :=
  match strings_SplitN3 bearerToken with
  | [clientID; clientSecret; refreshToken] => (clientID, clientSecret, refreshToken)
  | _ => (EmptyString, EmptyString, EmptyString)
  end.

(** The line [extractAndExchangeToken] writes to the credentials file:
    [fmt.Sprintf("%s:%s:%s", client_id, client_secret, refresh_token)]. *)
Definition credentials (clientID clientSecret refreshToken : string) : string :=
  clientID +:+ ":" +:+ clientSecret +:+ ":" +:+ refreshToken.

Record TokenCache : Type := mkTokenCache {
  AccessToken : string;
  RefreshToken : string;
  ClientID : string;
  ClientSecret : string;
  LastRefresh : Z
}.

(** What the middleware does with the request: it aborts with status 401
    and an error text, or it sets four keys of the context and calls the
    next handler. *)
Inductive Verdict : Type :=
| Unauthorized (error : string)
| Next (accessToken clientId clientSecret refreshToken : string).

Section Middleware.

(** [sha256Hash] *)
Variable sha256Hash : string -> string.

(** [handleTokenRefresh], a call to the OIDC service: the access token, or
    the text of the error. *)
Variable handleTokenRefresh : string -> string -> string -> string + string.

(** [time.Now()] at the moment the cache entry is made. *)
Variable time_Now : Z.

(** [strings.TrimPrefix(auth, "Bearer ")] for a text that has the prefix. *)
Definition trim_Bearer (auth : string) : string := slice_from auth 7.

(** The handler [AuthMiddleware] returns, on the two request headers it
    reads (the empty string for a missing header) and the token cache: the
    verdict and the cache after the call. *)
Definition AuthMiddleware (xApiKey authorization : string) (tokenMap : gmap string TokenCache)
  : Verdict * gmap string TokenCache :=
  let token := xApiKey in
  let token :=
    if String.eqb token "" then
      if strings_HasPrefix authorization "Bearer " then trim_Bearer authorization
      else token
    else token in
  if String.eqb token "" then
    (Unauthorized "Missing authentication. Provide Authorization header or x-api-key",
     tokenMap)
  else
    let tokenHash := sha256Hash token in
    match tokenMap !! tokenHash with
    | Some cached =>
        (Next (AccessToken cached) (ClientID cached) (ClientSecret cached)
           (RefreshToken cached),
         tokenMap)
    | None =>
        let '(clientID, clientSecret, refreshToken) := parseBearerToken token in
        if String.eqb clientID "" || String.eqb clientSecret ""
           || String.eqb refreshToken "" then
          (Unauthorized "Invalid token format. Expected: clientId:clientSecret:refreshToken",
           tokenMap)
        else
          match handleTokenRefresh clientID clientSecret refreshToken with
          | inr err =>
              (Unauthorized ("Failed to refresh access token: " +:+ err), tokenMap)
          | inl accessToken =>
              (Next accessToken clientID clientSecret refreshToken,
               <[tokenHash := {| AccessToken := accessToken;
                                 RefreshToken := refreshToken;
                                 ClientID := clientID;
                                 ClientSecret := clientSecret;
                                 LastRefresh := time_Now |}]> tokenMap)
          end
    end.

End Middleware.

(** *** Properties *)

Definition has_colon (s : string) : bool := strings_Contains s ":".

Lemma index_nat_colon (a rest : string) :
  has_colon a = false ->
  index_nat (a +:+ ":" +:+ rest) ":" = Some (String.length a).
Proof.
  unfold has_colon, strings_Contains, strings_Index.
  induction a as [|c a IH]; intros H.
  - change (index_nat (String ":" rest) ":" = Some O).
    cbn [index_nat String.prefix].
    destruct (ascii_dec ":" ":") as [_|N]; [destruct rest; reflexivity|congruence].
  - change (String c a +:+ ":" +:+ rest) with (String c (a +:+ ":" +:+ rest)).
    cbn [index_nat String.prefix] in *. revert H.
    destruct (ascii_dec ":" c) as [<-|N].
    + destruct a; cbn; intros H; discriminate H.
    + destruct (index_nat a ":") as [n|] eqn:E; [cbn; intros H; discriminate H|].
      intros _. rewrite IH by reflexivity. reflexivity.
Qed.

Lemma strings_Index_colon (a rest : string) :
  has_colon a = false -> strings_Index (a +:+ ":" +:+ rest) ":" = len a.
Proof. intros H. unfold strings_Index. rewrite index_nat_colon by exact H. reflexivity. Qed.

Lemma no_colon_index (s : string) : has_colon s = false -> strings_Index s ":" = -1.
Proof.
  unfold has_colon, strings_Contains. intros H. apply negb_false_iff, Z.eqb_eq in H.
  exact H.
Qed.

Lemma substring_prefix (a b : string) :
  String.substring 0 (String.length a) (a +:+ b) = a.
Proof.
  induction a as [|c a IH]; [destruct b; reflexivity|].
  change (String c (String.substring 0 (String.length a) (a +:+ b)) = String c a).
  rewrite IH. reflexivity.
Qed.

Lemma slice_to_append (a b : string) : slice_to (a +:+ b) (len a) = a.
Proof.
  unfold slice_to, slice, len. rewrite Z.sub_0_r, Nat2Z.id. apply substring_prefix.
Qed.

Lemma slice_from_append (a b : string) :
  slice_from (a +:+ ":" +:+ b) (len a + 1) = b.
Proof.
  unfold slice_from, slice. rewrite !Converter.len_append.
  change (len ":") with 1.
  replace (Z.to_nat (len a + 1)) with (String.length (a +:+ ":"))
    by (rewrite Converter.length_append; unfold len; cbn; lia).
  replace (Z.to_nat (len a + (1 + len b) - (len a + 1))) with (String.length b)
    by (unfold len; lia).
  rewrite <- Converter.append_assoc. apply Converter.substring_append.
Qed.

(** The three parts [strings.SplitN] cuts a credentials line into. *)
Lemma strings_SplitN3_credentials (clientID clientSecret refreshToken : string) :
  has_colon clientID = false -> has_colon clientSecret = false ->
  strings_SplitN3 (credentials clientID clientSecret refreshToken)
  = [clientID; clientSecret; refreshToken].
Proof.
  intros H1 H2. unfold strings_SplitN3, credentials.
  rewrite (strings_Index_colon clientID _ H1).
  destruct (Z.ltb_spec (len clientID) 0) as [L|_]; [unfold len in L; lia|].
  rewrite slice_to_append, slice_from_append.
  rewrite (strings_Index_colon clientSecret _ H2).
  destruct (Z.ltb_spec (len clientSecret) 0) as [L|_]; [unfold len in L; lia|].
  rewrite slice_to_append, slice_from_append. reflexivity.
Qed.

(** A token with fewer than two colons gives three empty parts. *)
Lemma parseBearerToken_too_few_colons (bearerToken : string) :
  has_colon bearerToken = false
  \/ (exists a b, bearerToken = a +:+ ":" +:+ b /\ has_colon a = false
                  /\ has_colon b = false) ->
  parseBearerToken bearerToken = (EmptyString, EmptyString, EmptyString).
Proof.
  unfold parseBearerToken, strings_SplitN3.
  intros [H|(a & b & -> & Ha & Hb)].
  - rewrite (no_colon_index _ H). reflexivity.
  - rewrite (strings_Index_colon a b Ha).
    destruct (Z.ltb_spec (len a) 0) as [L|_]; [unfold len in L; lia|].
    rewrite slice_from_append, (no_colon_index _ Hb). reflexivity.
Qed.

(** X26.  The credentials line the token tool writes is read back by the
    middleware as the three parts it was made of, provided the client id and
    the client secret hold no colon; the refresh token may hold any. *)
Theorem parseBearerToken_reads_credentials (clientID clientSecret refreshToken : string) :
  has_colon clientID = false -> has_colon clientSecret = false ->
  parseBearerToken (credentials clientID clientSecret refreshToken)
  = (clientID, clientSecret, refreshToken).
Proof.
  intros H1 H2. unfold parseBearerToken.
  rewrite strings_SplitN3_credentials by assumption. reflexivity.
Qed.

(** X27.  A token that is not in the cache is turned away as malformed,
    with the cache untouched and whatever the token service would answer,
    when it has fewer than two colons, and also when it is a credentials
    line with an empty client secret, which the token tool writes for a
    client that has none. *)
Theorem AuthMiddleware_rejects_malformed_token
    (sha256Hash : string -> string)
    (handleTokenRefresh : string -> string -> string -> string + string)
    (time_Now : Z) (token : string) (tokenMap : gmap string TokenCache) :
  token <> EmptyString ->
  tokenMap !! sha256Hash token = None ->
  has_colon token = false
  \/ (exists a b, token = a +:+ ":" +:+ b /\ has_colon a = false /\ has_colon b = false)
  \/ (exists clientID refreshToken,
        token = credentials clientID "" refreshToken /\ has_colon clientID = false) ->
  AuthMiddleware sha256Hash handleTokenRefresh time_Now token "" tokenMap
  = (Unauthorized "Invalid token format. Expected: clientId:clientSecret:refreshToken",
     tokenMap).
Proof.
  intros Hn Hc Hm. apply String.eqb_neq in Hn.
  unfold AuthMiddleware. cbv zeta. rewrite Hn. cbv iota. rewrite Hn, Hc.
  destruct Hm as [H|[H|(clientID & refreshToken & -> & H)]].
  - rewrite parseBearerToken_too_few_colons by (left; exact H). reflexivity.
  - rewrite parseBearerToken_too_few_colons by (right; exact H). reflexivity.
  - unfold parseBearerToken.
    rewrite strings_SplitN3_credentials by (exact H || reflexivity).
    cbn [String.eqb orb]. rewrite orb_true_r. reflexivity.
Qed.

(** X28.  When a call of the middleware lets a request through and leaves
    the cache [tokenMap'], a call with the same two headers on that cache
    lets the request through with the same access token and credentials and
    leaves the cache as it is, whatever the token service answers and
    whatever the clock shows at that call.  The statement is about the cache
    as the first call left it; what [RefreshAllTokens] does to the cache
    between two requests is not part of it. *)
Theorem AuthMiddleware_serves_from_cache
    (sha256Hash : string -> string)
    (handleTokenRefresh anyTokenRefresh : string -> string -> string -> string + string)
    (time_Now anyTime : Z) (xApiKey authorization : string)
    (tokenMap tokenMap' : gmap string TokenCache)
    (accessToken clientId clientSecret refreshToken : string) :
  AuthMiddleware sha256Hash handleTokenRefresh time_Now xApiKey authorization tokenMap
  = (Next accessToken clientId clientSecret refreshToken, tokenMap') ->
  AuthMiddleware sha256Hash anyTokenRefresh anyTime xApiKey authorization tokenMap'
  = (Next accessToken clientId clientSecret refreshToken, tokenMap').
Proof.
  unfold AuthMiddleware. cbv zeta.
  set (token := if String.eqb xApiKey "" then _ else xApiKey).
  destruct (String.eqb token ""); [intros; discriminate|].
  destruct (tokenMap !! sha256Hash token) as [cached|] eqn:E.
  - intros [= <- <- <- <- <-]. rewrite E. reflexivity.
  - destruct (parseBearerToken token) as [[cid cs] rt].
    destruct (String.eqb cid "" || String.eqb cs "" || String.eqb rt "");
      [intros; discriminate|].
    destruct (handleTokenRefresh cid cs rt) as [tok|err]; [|intros; discriminate].
    intros [= <- <- <- <- <-]. rewrite lookup_insert_eq. reflexivity.
Qed.

(** X29.  A request the middleware turns away leaves the token cache as it
    was, and a request without a token is turned away whatever the cache
    holds. *)
Theorem AuthMiddleware_rejection_keeps_cache
    (sha256Hash : string -> string)
    (handleTokenRefresh : string -> string -> string -> string + string)
    (time_Now : Z) (xApiKey authorization : string) (tokenMap : gmap string TokenCache) :
  (forall error tokenMap',
     AuthMiddleware sha256Hash handleTokenRefresh time_Now xApiKey authorization tokenMap
     = (Unauthorized error, tokenMap') ->
     tokenMap' = tokenMap)
  /\ (xApiKey = EmptyString -> strings_HasPrefix authorization "Bearer " = false ->
      exists error,
        AuthMiddleware sha256Hash handleTokenRefresh time_Now xApiKey authorization tokenMap
        = (Unauthorized error, tokenMap)).
Proof.
  split.
  - intros error tokenMap'. unfold AuthMiddleware. cbv zeta.
    set (token := if String.eqb xApiKey "" then _ else xApiKey).
    destruct (String.eqb token ""); [intros [= _ <-]; reflexivity|].
    destruct (tokenMap !! sha256Hash token) as [cached|]; [intros; discriminate|].
    destruct (parseBearerToken token) as [[cid cs] rt].
    destruct (String.eqb cid "" || String.eqb cs "" || String.eqb rt "");
      [intros [= _ <-]; reflexivity|].
    destruct (handleTokenRefresh cid cs rt) as [tok|err]; [intros; discriminate|].
    intros [= _ <-]. reflexivity.
  - intros -> Hp. unfold AuthMiddleware. rewrite Hp. cbn. eauto.
Qed.

(** *** Instances

    A hash that leaves the text as it is, a token service that answers, and
    one that is down. *)
Definition sample_hash (text : string) : string := text.

Definition sample_refresh (clientID clientSecret refreshToken : string) : string + string :=
  inl ("access-" +:+ refreshToken).

Definition failing_refresh (clientID clientSecret refreshToken : string) : string + string :=
  inr "connection refused"%string.

(** An instance of [parseBearerToken_reads_credentials]: a refresh token
    that holds a colon. *)
Lemma parseBearerToken_witness :
  parseBearerToken (credentials "id" "secret" "aor:refresh")
  = ("id"%string, "secret"%string, "aor:refresh"%string).
Proof.
  apply parseBearerToken_reads_credentials; reflexivity.
Defined.

(** An instance of [AuthMiddleware_rejects_malformed_token]: the
    credentials of a client without a secret. *)
Lemma AuthMiddleware_malformed_witness :
  AuthMiddleware sample_hash sample_refresh 0 "id::refresh" "" ∅
  = (Unauthorized "Invalid token format. Expected: clientId:clientSecret:refreshToken", ∅).
Proof.
  apply AuthMiddleware_rejects_malformed_token.
  - intros H; discriminate H.
  - reflexivity.
  - right. right. exists "id"%string, "refresh"%string. split; reflexivity.
Defined.

(** An instance of [AuthMiddleware_serves_from_cache]: on the cache the
    first call left, the second call lets the request through although the
    token service is down. *)
Lemma AuthMiddleware_cache_witness :
  let entry := {| AccessToken := "access-refresh"; RefreshToken := "refresh";
                  ClientID := "id"; ClientSecret := "secret"; LastRefresh := 0 |} in
  AuthMiddleware sample_hash failing_refresh 1 "id:secret:refresh" ""
    (<["id:secret:refresh"%string := entry]> ∅)
  = (Next "access-refresh" "id" "secret" "refresh",
     <["id:secret:refresh"%string := entry]> ∅).
Proof.
  cbv zeta.
  apply (AuthMiddleware_serves_from_cache sample_hash sample_refresh failing_refresh 0 1
           "id:secret:refresh" "" ∅).
  vm_compute. reflexivity.
Defined.

(** An instance of [AuthMiddleware_rejection_keeps_cache]: a request with
    an [Authorization] header that is not a bearer token. *)
Lemma AuthMiddleware_rejection_witness :
  exists error,
    AuthMiddleware sample_hash sample_refresh 0 "" "Basic dXNlcg==" ∅
    = (Unauthorized error, ∅).
Proof.
  apply (AuthMiddleware_rejection_keeps_cache sample_hash sample_refresh 0 ""
           "Basic dXNlcg==" ∅); reflexivity.
Defined.

End Auth.
